(** * SIPO alert correlation: a shallow embedding of [src/ml/alert_correlation.py]

    The development follows the class [AlertCorrelator]:
    [preprocess_features], [find_optimal_eps], [cluster_alerts],
    [create_incidents] and [correlate_alerts], then the loop of
    [save_incidents], the report of [main], and of
    [src/ml/generate_alerts.py] the weighted choice of an error code and the
    counting loop of [save_alerts_to_csv].

    Modelling conventions.
    - Python exceptions are values of [PyExc]; a function that may raise
      returns [result].
    - A pandas [Timestamp] is its integer count of nanoseconds since
      1970-01-01T00:00:00 (the alerts carry naive timestamps).
    - NumPy [float64] arrays are lists over the real numbers [R]: the
      arithmetic of the scaler, of the distances and of the percentile is the
      exact one, rounding is not modelled; the scaler's test for a constant
      feature keeps its tolerance, which is written with the constant 2^-52.
    - The weighted choice of [generate_alerts] is over binary64 floats
      ([PrimFloat]): the weights and the draw are doubles, the running sum
      is the rounded one and the comparison is that of doubles.
    - Library calls whose behaviour decides a property are written out from
      their documented behaviour ([LabelEncoder], [StandardScaler],
      [NearestNeighbors.kneighbors], [np.sort], [np.percentile],
      [Series.mode], [list.sort]); [DBSCAN.fit_predict] and
      [silhouette_score], whose internals no property below depends on, are
      parameters of the pipeline. *)

From Stdlib Require Import PrimFloat SpecFloat FloatOps FloatAxioms.
From Stdlib Require Import ZArith String Ascii List Bool Arith Lia.
From Stdlib Require Import Permutation Sorted.
From Stdlib Require Import Reals Lra.
Import ListNotations.

Local Open Scope Z_scope.

(* ===================================================================== *)
(** * Exceptions and the error monad *)
(* ===================================================================== *)

Inductive PyExc : Type :=
| ValueError_length_mismatch   (* DataFrame column assignment of another length *)
| IndexError_iloc              (* [.iloc[0]] on an empty Series *)
| ValueError_no_samples        (* StandardScaler fitted on 0 rows *)
| ValueError_n_neighbors       (* kneighbors: n_neighbors <= 0 or > n_samples_fit *)
| LibraryError (msg : string). (* raised inside DBSCAN or silhouette_score *)

Inductive result (A : Type) : Type :=
| Ok (a : A)
| Raise (e : PyExc).
Arguments Ok {A} a.
Arguments Raise {A} e.

Definition bind {A B : Type} (m : result A) (f : A -> result B) : result B :=
  match m with
  | Ok a => f a
  | Raise e => Raise e
  end.

Notation "x <- m ;; k" := (bind m (fun x => k))
  (at level 61, m at next level, right associativity).

(* ===================================================================== *)
(** * Python and NumPy list primitives *)
(* ===================================================================== *)

Section Sorting.
Context {A : Type} (leb : A -> A -> bool).

(** Stable insertion: [x] comes from the left of everything in [l], so it
    is placed before the first element it does not exceed. *)
Fixpoint py_insert (x : A) (l : list A) : list A :=
  match l with
  | [] => [x]
  | y :: t => if leb x y then x :: y :: t else y :: py_insert x t
  end.

(** [sorted(l)], [np.sort(l)]: ascending for [leb], stable. *)
Fixpoint py_sorted (l : list A) : list A :=
  match l with
  | [] => []
  | x :: t => py_insert x (py_sorted t)
  end.
End Sorting.

Section Unique.
Context {A : Type} (eqb : A -> A -> bool).

(** Distinct values in order of first appearance ([Series.unique], the
    elements of [set(l)] before sorting). *)
Fixpoint unique (l : list A) : list A :=
  match l with
  | [] => []
  | x :: t => x :: filter (fun y => negb (eqb y x)) (unique t)
  end.

Definition count (x : A) (l : list A) : nat :=
  length (filter (eqb x) l).
End Unique.

(** [list.sort(key=key, reverse=True)] on integer keys: descending, and
    stable (equal keys keep their order). *)
Definition sort_desc_by {A : Type} (key : A -> Z) (l : list A) : list A :=
  py_sorted (fun a b => key b <=? key a) l.

(** [.iloc[0]] *)
Definition iloc0 {A : Type} (l : list A) : result A :=
  match l with
  | [] => Raise IndexError_iloc
  | x :: _ => Ok x
  end.

(** [Series.mode()]: the most frequent values, sorted ascending. *)
Definition mode (l : list string) : list string :=
  let distinct := unique String.eqb l in
  let top := fold_right Nat.max 0%nat (map (fun x => count String.eqb x l) distinct) in
  py_sorted String.leb
    (filter (fun x => Nat.eqb (count String.eqb x l) top) distinct).

(** [Series.sum()] of an int64 column wraps around. *)
Definition wrap_int64 (z : Z) : Z := (z + 2 ^ 63) mod 2 ^ 64 - 2 ^ 63.

Definition sumZ (l : list Z) : Z := fold_left Z.add l 0.

Definition series_sum (l : list Z) : Z := wrap_int64 (sumZ l).

(** [Series.min()], [Series.max()] of a timestamp column; [None] is [NaT]. *)
Definition series_min (l : list Z) : option Z :=
  match l with
  | [] => None
  | x :: t => Some (fold_left Z.min t x)
  end.

Definition series_max (l : list Z) : option Z :=
  match l with
  | [] => None
  | x :: t => Some (fold_left Z.max t x)
  end.

(* ===================================================================== *)
(** * Data model *)
(* ===================================================================== *)

(** A row of [alerts.csv]. *)
Record Alert : Type := mkAlert {
  a_timestamp : Z;
  a_device_id : string;
  a_error_code : string;
  a_customer_impact : Z;
  a_revenue_risk : Z
}.

(** A row of [processed_df]: the alert and the columns added by
    [preprocess_features]. *)
Record Row : Type := mkRow {
  timestamp : Z;
  device_id : string;
  error_code : string;
  customer_impact : Z;
  revenue_risk : Z;
  hour : Z;
  day_of_week : Z;
  device_id_encoded : Z;
  error_code_encoded : Z
}.

Inductive Priority : Type := High | Medium | Low.

Record Incident : Type := mkIncident {
  incident_id : Z;
  alert_count : Z;
  alerts : list Row;
  priority : Priority;
  total_customers : Z;
  total_revenue_risk : Z;
  primary_error : string;
  affected_devices : list string;
  start_time : option Z;
  end_time : option Z
}.

(** The DBSCAN label of noise points. *)
Definition NOISE : Z := -1.

(* ===================================================================== *)
(** * [create_incidents] *)
(* ===================================================================== *)

(** The [if/elif/else] on [total_revenue_risk]. *)
Definition priority_of_risk (total_revenue_risk : Z) : Priority :=
  if total_revenue_risk >? 500000 then High
  else if total_revenue_risk >? 100000 then Medium
  else Low.

(** [df_clustered[df_clustered['cluster'] == cluster_id]], the [cluster]
    column dropped again. *)
Definition rows_with_label (df_clustered : list (Row * Z)) (cluster_id : Z)
  : list Row :=
  map fst (filter (fun rc => snd rc =? cluster_id) df_clustered).

(** Body of the loop over clusters. *)
Definition cluster_incident (incidents : list Incident)
    (cluster_alerts : list Row) : result Incident :=
  let total_customers := series_sum (map customer_impact cluster_alerts) in
  let total_revenue_risk := series_sum (map revenue_risk cluster_alerts) in
  let alert_count := Z.of_nat (length cluster_alerts) in
  let priority := priority_of_risk total_revenue_risk in
  primary_error <- iloc0 (mode (map error_code cluster_alerts)) ;;
  let affected_devices :=
    py_sorted String.leb (unique String.eqb (map device_id cluster_alerts)) in
  Ok {| incident_id := Z.of_nat (length incidents) + 1;
        alert_count := alert_count;
        alerts := cluster_alerts;
        priority := priority;
        total_customers := total_customers;
        total_revenue_risk := total_revenue_risk;
        primary_error := primary_error;
        affected_devices := affected_devices;
        start_time := series_min (map timestamp cluster_alerts);
        end_time := series_max (map timestamp cluster_alerts) |}.

(** [for cluster_id in sorted(set(cluster_labels))], appending to
    [incidents]. *)
Fixpoint cluster_loop (df_clustered : list (Row * Z)) (cluster_ids : list Z)
    (incidents : list Incident) : result (list Incident) :=
  match cluster_ids with
  | [] => Ok incidents
  | cluster_id :: rest =>
      if cluster_id =? NOISE then cluster_loop df_clustered rest incidents
      else
        incident <- cluster_incident incidents
                      (rows_with_label df_clustered cluster_id) ;;
        cluster_loop df_clustered rest (incidents ++ [incident])
  end.

(** Body of the loop over noise rows. *)
Definition noise_incident (incidents : list Incident) (alert : Row)
  : Incident :=
  {| incident_id := Z.of_nat (length incidents) + 1;
     alert_count := 1;
     alerts := [alert];
     priority := Low;
     total_customers := customer_impact alert;
     total_revenue_risk := revenue_risk alert;
     primary_error := error_code alert;
     affected_devices := [device_id alert];
     start_time := Some (timestamp alert);
     end_time := Some (timestamp alert) |}.

(** [for idx, alert in noise_alerts.iterrows()], appending to
    [incidents]. *)
Fixpoint noise_loop (noise_alerts : list Row) (incidents : list Incident)
  : list Incident :=
  match noise_alerts with
  | [] => incidents
  | alert :: rest =>
      noise_loop rest (incidents ++ [noise_incident incidents alert])
  end.

(** The incident list as it stands before the final sort. *)
Definition created_incidents (df : list Row) (cluster_labels : list Z)
  : result (list Incident) :=
  if negb (Nat.eqb (length cluster_labels) (length df))
  then Raise ValueError_length_mismatch
  else
    let df_clustered := combine df cluster_labels in
    incidents <- cluster_loop df_clustered
                   (py_sorted Z.leb (unique Z.eqb cluster_labels)) [] ;;
    Ok (noise_loop (rows_with_label df_clustered NOISE) incidents).

Definition create_incidents (df : list Row) (cluster_labels : list Z)
  : result (list Incident) :=
  incidents <- created_incidents df cluster_labels ;;
  Ok (sort_desc_by total_revenue_risk incidents).

(* ===================================================================== *)
(** * [preprocess_features] *)
(* ===================================================================== *)

(** ** [LabelEncoder] *)

Record LabelEncoder : Type := mkLabelEncoder {
  classes_ : list string
}.

(** [LabelEncoder()]: not fitted yet. *)
Definition LabelEncoder_new : LabelEncoder := {| classes_ := [] |}.

(** Position of [x] in [l] (the inverse table built by the encoder). *)
Fixpoint index_of (x : string) (l : list string) : Z :=
  match l with
  | [] => 0
  | y :: t => if String.eqb x y then 0 else 1 + index_of x t
  end.

(** [enc.fit_transform(y)]: [classes_] becomes [np.unique(y)], that is the
    sorted distinct values, whatever [enc] held before; each value is
    replaced by its position in [classes_]. *)
Definition fit_transform (enc : LabelEncoder) (y : list string)
  : LabelEncoder * list Z :=
  let classes := py_sorted String.leb (unique String.eqb y) in
  ({| classes_ := classes |}, map (fun v => index_of v classes) y).

(** ** A Python dict with string keys *)

Fixpoint dict_get {V : Type} (k : string) (d : list (string * V)) : option V :=
  match d with
  | [] => None
  | (k', v) :: t => if String.eqb k k' then Some v else dict_get k t
  end.

Fixpoint dict_set {V : Type} (k : string) (v : V) (d : list (string * V))
  : list (string * V) :=
  match d with
  | [] => [(k, v)]
  | (k', v') :: t =>
      if String.eqb k k' then (k, v) :: t else (k', v') :: dict_set k v t
  end.

(** ** [StandardScaler] over exact reals *)

Definition Rleb (x y : R) : bool := if Rle_dec x y then true else false.

Definition np_sort (l : list R) : list R := py_sorted Rleb l.

Definition Rsum (l : list R) : R := fold_right Rplus 0%R l.

Definition Rmean (l : list R) : R := (Rsum l / INR (length l))%R.

(** Population variance ([ddof = 0]). *)
Definition Rvar (l : list R) : R :=
  Rmean (map (fun x => Rsqr (x - Rmean l)) l).

(** [np.finfo(np.float64).eps], the constant 2^-52. *)
Definition float64_eps : R := (/ 2 ^ 52)%R.

(** [_is_constant_feature(var, mean, n_samples)]:
    [var <= n_samples*eps*var + (n_samples*mean*eps)**2]. *)
Definition is_constant_feature (var mean n_samples : R) : bool :=
  Rleb var (n_samples * float64_eps * var
            + Rsqr (n_samples * mean * float64_eps))%R.

(** [_handle_zeros_in_scale]: [scale[constant_mask] = 1.0]. *)
Definition handle_zeros_in_scale (scale : R) (constant_mask : bool) : R :=
  if constant_mask then 1%R else scale.

Record StandardScaler : Type := mkStandardScaler {
  mean_ : list R;
  var_ : list R;
  scale_ : list R
}.

Definition StandardScaler_new : StandardScaler :=
  {| mean_ := []; var_ := []; scale_ := [] |}.

Definition column (j : nat) (X : list (list R)) : list R :=
  map (fun row => nth j row 0%R) X.

Definition n_features (X : list (list R)) : nat :=
  match X with
  | [] => 0%nat
  | row :: _ => length row
  end.

(** [scaler.fit(X)]: the statistics are recomputed from [X] alone. *)
Definition scaler_fit (X : list (list R)) : result StandardScaler :=
  match X with
  | [] => Raise ValueError_no_samples
  | _ :: _ =>
      let cols := map (fun j => column j X) (seq 0 (n_features X)) in
      let n_samples := INR (length X) in
      Ok {| mean_ := map Rmean cols;
            var_ := map Rvar cols;
            scale_ := map (fun col =>
                             handle_zeros_in_scale (sqrt (Rvar col))
                               (is_constant_feature (Rvar col) (Rmean col)
                                  n_samples))
                        cols |}
  end.

(** One row of [(X - mean_) / scale_]. *)
Fixpoint scale_row (row mean scale : list R) : list R :=
  match row, mean, scale with
  | x :: row', m :: mean', s :: scale' =>
      ((x - m) / s)%R :: scale_row row' mean' scale'
  | _, _, _ => []
  end.

Definition scaler_transform (sc : StandardScaler) (X : list (list R))
  : list (list R) :=
  map (fun row => scale_row row (mean_ sc) (scale_ sc)) X.

(** [scaler.fit_transform(X)]: the scaler held before is overwritten. *)
Definition scaler_fit_transform (sc : StandardScaler) (X : list (list R))
  : result (StandardScaler * list (list R)) :=
  sc' <- scaler_fit X ;;
  Ok (sc', scaler_transform sc' X).

(** ** The correlator object and the feature pipeline *)

Record AlertCorrelator : Type := mkAlertCorrelator {
  scaler : StandardScaler;
  label_encoders : list (string * LabelEncoder)
}.

(** [AlertCorrelator()] *)
Definition AlertCorrelator_new : AlertCorrelator :=
  {| scaler := StandardScaler_new; label_encoders := [] |}.

Definition NS_PER_HOUR : Z := 3600 * 1000000000.
Definition NS_PER_DAY : Z := 24 * NS_PER_HOUR.

(** [.dt.hour] *)
Definition dt_hour (t : Z) : Z := (t / NS_PER_HOUR) mod 24.

(** [.dt.dayofweek]: Monday is 0; 1970-01-01 was a Thursday. *)
Definition dt_dayofweek (t : Z) : Z := (t / NS_PER_DAY + 3) mod 7.

(** One turn of [for col in categorical_cols]: the encoder of [col] is
    created when the dict has none, then refitted on the column. *)
Definition encode_column (encoders : list (string * LabelEncoder))
    (col : string) (values : list string)
  : list (string * LabelEncoder) * list Z :=
  let encoders1 :=
    match dict_get col encoders with
    | Some _ => encoders
    | None => dict_set col LabelEncoder_new encoders
    end in
  let enc :=
    match dict_get col encoders1 with
    | Some e => e
    | None => LabelEncoder_new
    end in
  let '(enc', encoded) := fit_transform enc values in
  (dict_set col enc' encoders1, encoded).

Fixpoint build_rows (df : list Alert) (dev err : list Z) : list Row :=
  match df, dev, err with
  | a :: df', d :: dev', e :: err' =>
      {| timestamp := a_timestamp a;
         device_id := a_device_id a;
         error_code := a_error_code a;
         customer_impact := a_customer_impact a;
         revenue_risk := a_revenue_risk a;
         hour := dt_hour (a_timestamp a);
         day_of_week := dt_dayofweek (a_timestamp a);
         device_id_encoded := d;
         error_code_encoded := e |} :: build_rows df' dev' err'
  | _, _, _ => []
  end.

(** [processed_df[feature_cols].values] *)
Definition feature_row (r : Row) : list R :=
  [IZR (device_id_encoded r); IZR (error_code_encoded r);
   IZR (customer_impact r); IZR (revenue_risk r);
   IZR (hour r); IZR (day_of_week r)].

Definition preprocess_features (self : AlertCorrelator) (df : list Alert)
  : result (AlertCorrelator * (list (list R) * list Row)) :=
  let '(encoders1, dev) :=
    encode_column (label_encoders self) "device_id" (map a_device_id df) in
  let '(encoders2, err) :=
    encode_column encoders1 "error_code" (map a_error_code df) in
  let processed_df := build_rows df dev err in
  let features := map feature_row processed_df in
  r <- scaler_fit_transform (scaler self) features ;;
  let '(scaler', features_scaled) := r in
  Ok ({| scaler := scaler'; label_encoders := encoders2 |},
      (features_scaled, processed_df)).

(** [processed_df[feature_cols].values] as [preprocess_features] builds it
    from the batch, before scaling. *)
Definition raw_features (df : list Alert) : list (list R) :=
  let dev := snd (fit_transform LabelEncoder_new (map a_device_id df)) in
  let err := snd (fit_transform LabelEncoder_new (map a_error_code df)) in
  map feature_row (build_rows df dev err).

(* ===================================================================== *)
(** * [find_optimal_eps] *)
(* ===================================================================== *)

Fixpoint sq_dist (p q : list R) : R :=
  match p, q with
  | a :: p', b :: q' => (Rsqr (a - b) + sq_dist p' q')%R
  | _, _ => 0%R
  end.

Definition euclidean (p q : list R) : R := sqrt (sq_dist p q).

(** [NearestNeighbors(n_neighbors).fit(fit_X).kneighbors(X)], distances
    only: for each query row the [n_neighbors] smallest distances to the
    fitted rows, ascending. The query rows are passed explicitly, so a row
    that is also a fitted row is among its own neighbours. *)
Definition kneighbors (n_neighbors : Z) (fit_X X : list (list R))
  : result (list (list R)) :=
  if n_neighbors <=? 0 then Raise ValueError_n_neighbors
  else if Z.of_nat (length fit_X) <? n_neighbors
  then Raise ValueError_n_neighbors
  else Ok (map (fun x => firstn (Z.to_nat n_neighbors)
                           (np_sort (map (euclidean x) fit_X))) X).

(** [np.percentile(a, q)] of an array that is not empty, linear
    interpolation: the virtual index is [(n - 1) * q / 100]; [q] is an
    integer number of percent. *)
Definition percentile (a : list R) (q : Z) : R :=
  let s := np_sort a in
  let n := Z.of_nat (length s) in
  let num := (n - 1) * q in
  let lo := num / 100 in
  let hi := Z.min (lo + 1) (n - 1) in
  let gamma := (IZR (num mod 100) / 100)%R in
  let a_lo := nth (Z.to_nat lo) s 0%R in
  let a_hi := nth (Z.to_nat hi) s 0%R in
  (a_lo + gamma * (a_hi - a_lo))%R.

Definition find_optimal_eps (features : list (list R)) (min_samples : Z)
  : result R :=
  distances <- kneighbors min_samples features features ;;
  let distances :=
    np_sort (map (fun row => nth (Z.to_nat (min_samples - 1)) row 0%R)
               distances) in
  Ok (percentile distances 75).

(* ===================================================================== *)
(** * [cluster_alerts] and [correlate_alerts] *)
(* ===================================================================== *)

Section Pipeline.
(** [DBSCAN(eps, min_samples).fit_predict(features)] *)
Variable DBSCAN_fit_predict : R -> Z -> list (list R) -> result (list Z).
(** [silhouette_score(features, cluster_labels)] *)
Variable silhouette_score : list (list R) -> list Z -> result R.

Definition cluster_alerts (features : list (list R)) (eps : option R)
    (min_samples : Z) : result (list Z) :=
  eps <- match eps with
         | None => find_optimal_eps features min_samples
         | Some e => Ok e
         end ;;
  cluster_labels <- DBSCAN_fit_predict eps min_samples features ;;
  let n_clusters :=
    Z.of_nat (length (unique Z.eqb cluster_labels))
    - (if existsb (Z.eqb NOISE) cluster_labels then 1 else 0) in
  _ <- (if n_clusters >? 1
        then silhouette_score features cluster_labels
        else Ok 0%R) ;;
  Ok cluster_labels.

(** [load] is what [load_alerts(csv_path)] returned: the batch, or [None]
    when reading failed.  With an output path, [save_incidents] renders the
    timestamps of the member records as strings in place; a timestamp stays
    the same instant, which is all the model keeps of it, and exceptions of
    the writing are caught there. *)
Definition correlate_alerts (self : AlertCorrelator)
    (load : option (list Alert)) (output_path : option string)
  : result (AlertCorrelator * option (list Incident)) :=
  match load with
  | None => Ok (self, None)
  | Some df =>
      r <- preprocess_features self df ;;
      let '(self', (features, processed_df)) := r in
      cluster_labels <- cluster_alerts features None 5 ;;
      incidents <- create_incidents processed_df cluster_labels ;;
      Ok (self', Some incidents)
  end.
End Pipeline.

(* ===================================================================== *)
(** * The properties as the specification words them *)
(* ===================================================================== *)

(** Encoding by order of first appearance in the batch. *)
Definition first_seen_encoding (y : list string) : list Z :=
  map (fun v => index_of v (unique String.eqb y)) y.

(** The most frequent value, the first encountered one among equals. *)
Definition mode_first_encountered (l : list string) : option string :=
  let distinct := unique String.eqb l in
  let top := fold_right Nat.max 0%nat (map (fun x => count String.eqb x l) distinct) in
  hd_error (filter (fun x => Nat.eqb (count String.eqb x l) top) distinct).

(** All rows but the one at position [i]. *)
Definition others {A : Type} (i : nat) (X : list A) : list A :=
  firstn i X ++ skipn (S i) X.

(** Distance from row [i] to its [k]-th nearest neighbour, the row itself
    excluded ([k] counts from 1). *)
Definition kth_neighbor_distance (k : nat) (X : list (list R)) (i : nat) : R :=
  nth (k - 1) (np_sort (map (euclidean (nth i X [])) (others i X))) 0%R.

(** The estimate of section 4.3: the k-distances to the [minPts]-th
    neighbour, self excluded, sorted, and their 75th percentile. *)
Definition spec_estimated_eps (X : list (list R)) (minPts : Z) : R :=
  percentile
    (np_sort (map (kth_neighbor_distance (Z.to_nat minPts) X)
                (seq 0 (length X))))
    75.

(** The incident made of one noise alert. *)
Definition is_noise_incident_of (a : Row) (inc : Incident) : Prop :=
  alerts inc = [a] /\ alert_count inc = 1 /\ priority inc = Low
  /\ total_customers inc = customer_impact a
  /\ total_revenue_risk inc = revenue_risk a.

(** Descending order of [total_revenue_risk]. *)
Definition risk_ge (a b : Incident) : Prop :=
  total_revenue_risk b <= total_revenue_risk a.

(** The positions of a label list that carry the label [c], ascending;
    [start] is the position of the head. *)
Fixpoint positions_with_label (labels : list Z) (c : Z) (start : nat)
  : list nat :=
  match labels with
  | [] => []
  | l :: rest =>
      if l =? c then start :: positions_with_label rest c (S start)
      else positions_with_label rest c (S start)
  end.

(** Incident ids numbered 1, 2, ... along the returned (sorted) list. *)
Definition ids_follow_list_order (incidents : list Incident) : Prop :=
  map incident_id incidents = map Z.of_nat (seq 1 (length incidents)).

(* ===================================================================== *)
(** * Sample batches *)
(* ===================================================================== *)

(** A processed row with the derived columns left at 0. *)
Definition sample_row (t : Z) (dev err : string) (impact risk : Z) : Row :=
  {| timestamp := t; device_id := dev; error_code := err;
     customer_impact := impact; revenue_risk := risk;
     hour := 0; day_of_week := 0;
     device_id_encoded := 0; error_code_encoded := 0 |}.

Definition row_small : Row := sample_row 1 "T1" "TIMEOUT" 5 10.
Definition row_mid : Row := sample_row 2 "T2" "BGP_FAIL" 6 20.
Definition row_big : Row := sample_row 3 "T1" "LINK_DOWN" 7 600000.

(** Two alerts one minute apart; the device seen first is the greater one
    in the order of strings. *)
Definition alert_t2 : Alert :=
  {| a_timestamp := 0; a_device_id := "T2"; a_error_code := "TIMEOUT";
     a_customer_impact := 5; a_revenue_risk := 10 |}.
Definition alert_t1 : Alert :=
  {| a_timestamp := 60000000000; a_device_id := "T1";
     a_error_code := "BGP_FAIL";
     a_customer_impact := 6; a_revenue_risk := 20 |}.

(** Five feature vectors on a line, and three. *)
Definition five_points : list (list R) :=
  [[0%R]; [1%R]; [2%R]; [3%R]; [4%R]].
Definition three_points : list (list R) := [[0%R]; [1%R]; [3%R]].

(** A clusterer that calls every point noise, and a constant score: stand-ins
    for the two library parameters in closed examples. *)
Definition dbscan_all_noise (eps : R) (min_samples : Z) (X : list (list R))
  : result (list Z) := Ok (map (fun _ => NOISE) X).
Definition silhouette_zero (X : list (list R)) (labels : list Z)
  : result R := Ok 0%R.

(* ===================================================================== *)
(** * The summary of [correlate_alerts] and the report of [main] *)
(* ===================================================================== *)

(** The alert a processed row was made from. *)
Definition alert_of_row (r : Row) : Alert :=
  {| a_timestamp := timestamp r;
     a_device_id := device_id r;
     a_error_code := error_code r;
     a_customer_impact := customer_impact r;
     a_revenue_risk := revenue_risk r |}.

(** [d.get(k, default)] *)
Definition dict_get_default {V : Type} (k : string) (d : list (string * V))
    (default : V) : V :=
  match dict_get k d with
  | Some v => v
  | None => default
  end.

(** The counting loop of both files,
    [for k in keys: counts[k] = counts.get(k, 0) + 1]. *)
Fixpoint count_keys (keys : list string) (counts : list (string * Z))
  : list (string * Z) :=
  match keys with
  | [] => counts
  | k :: rest =>
      count_keys rest (dict_set k (dict_get_default k counts 0 + 1) counts)
  end.

(** The priority strings of the incident dicts. *)
Definition priority_name (p : Priority) : string :=
  match p with
  | High => "High"
  | Medium => "Medium"
  | Low => "Low"
  end.

(** [priority_counts] of [correlate_alerts]. *)
Definition priority_counts (incidents : list Incident) : list (string * Z) :=
  count_keys (map (fun inc => priority_name (priority inc)) incidents) [].

(** [error_counts] of [save_alerts_to_csv]. *)
Definition error_counts (alerts : list Alert) : list (string * Z) :=
  count_keys (map a_error_code alerts) [].

Definition is_high (inc : Incident) : bool :=
  match priority inc with
  | High => true
  | _ => false
  end.

(** [[i for i in incidents if i['priority'] == 'High'][:5]] of [main]. *)
Definition high_priority (incidents : list Incident) : list Incident :=
  firstn 5 (filter is_high incidents).

(** The two numbers [cluster_alerts] prints:
    [len(set(cluster_labels)) - (1 if -1 in cluster_labels else 0)] and
    [list(cluster_labels).count(-1)]. *)
Definition n_clusters (cluster_labels : list Z) : Z :=
  Z.of_nat (length (unique Z.eqb cluster_labels))
  - (if existsb (Z.eqb NOISE) cluster_labels then 1 else 0).

Definition n_noise (cluster_labels : list Z) : Z :=
  Z.of_nat (count Z.eqb NOISE cluster_labels).

(** An incident as one of the two loops of [create_incidents] builds it. *)
Definition made_by_loops (inc : Incident) : Prop :=
  (exists prev rows, rows <> [] /\ cluster_incident prev rows = Ok inc)
  \/ (exists prev a, inc = noise_incident prev a).

(* ===================================================================== *)
(** * [save_incidents]: what it does to the incidents it is given *)
(* ===================================================================== *)

(** A value found under a time key of a dict: a [Timestamp], [NaT], or a
    string. *)
Inductive TimeVal : Type :=
| Instant (ns : Z)
| NaT
| Text (s : string).

Section SaveIncidents.
(** [str] of a [Timestamp] *)
Variable timestamp_str : Z -> string.
(** What the alert dicts and the incident dicts hold under the keys that
    [save_incidents] does not touch. *)
Context {AlertRest IncidentRest : Type}.

(** An alert dict: the value under 'timestamp', if the key is there, and
    the rest. *)
Definition AlertDict : Type := (option TimeVal * AlertRest)%type.

(** An incident dict; the list under 'alerts' holds references to alert
    dicts, which are positions in the store of alert dicts. *)
Record IncidentDict : Type := mkIncidentDict {
  i_start_time : TimeVal;
  i_end_time : TimeVal;
  i_alerts : list nat;
  i_rest : IncidentRest
}.

Definition py_str (v : TimeVal) : string :=
  match v with
  | Instant t => timestamp_str t
  | NaT => "NaT"
  | Text s => s
  end.

(** [if 'timestamp' in alert: alert['timestamp'] = str(alert['timestamp'])] *)
Definition stringify_alert (alert : AlertDict) : AlertDict :=
  (option_map (fun v => Text (py_str v)) (fst alert), snd alert).

(** The dict at [ref] is mutated in place. *)
Fixpoint update_at (store : list AlertDict) (ref : nat)
    (f : AlertDict -> AlertDict) : list AlertDict :=
  match store, ref with
  | [], _ => []
  | alert :: rest, O => f alert :: rest
  | alert :: rest, S ref' => alert :: update_at rest ref' f
  end.

(** [for alert in incident_copy['alerts']: ...] *)
Fixpoint stringify_alerts (store : list AlertDict) (refs : list nat)
  : list AlertDict :=
  match refs with
  | [] => store
  | ref :: rest => stringify_alerts (update_at store ref stringify_alert) rest
  end.

(** [incident_copy]: a shallow copy with its two time keys replaced by
    strings; the list under 'alerts' is the one of the incident. *)
Definition incident_copy (incident : IncidentDict) : IncidentDict :=
  {| i_start_time := Text (py_str (i_start_time incident));
     i_end_time := Text (py_str (i_end_time incident));
     i_alerts := i_alerts incident;
     i_rest := i_rest incident |}.

(** [for incident in incidents: ...; incidents_json.append(incident_copy)] *)
Fixpoint save_loop (store : list AlertDict) (incidents : list IncidentDict)
    (incidents_json : list IncidentDict)
  : list AlertDict * list IncidentDict :=
  match incidents with
  | [] => (store, incidents_json)
  | incident :: rest =>
      let copy := incident_copy incident in
      let store := stringify_alerts store (i_alerts copy) in
      save_loop store rest (incidents_json ++ [copy])
  end.

(** The loop of [save_incidents]: the store of alert dicts afterwards, and
    [incidents_json]. The incident dicts of the caller are not written to;
    the file is written after the loop, and whether that succeeds changes
    nothing of the store. *)
Definition save_incidents (store : list AlertDict)
    (incidents : list IncidentDict) : list AlertDict * list IncidentDict :=
  save_loop store incidents [].
End SaveIncidents.

(* ===================================================================== *)
(** * [generate_alerts]: the weighted choice of an error code *)
(* ===================================================================== *)

(** A decimal literal denotes the double nearest to it, as in Python. *)
Set Warnings "-inexact-float".

(** The table [error_codes]. *)
Definition error_codes : list (string * float) :=
  [("BGP_FAIL"%string, 0.10%float); ("LINK_DOWN"%string, 0.15%float);
   ("HARDWARE_FAIL"%string, 0.10%float); ("POWER_FAIL"%string, 0.08%float);
   ("FIBER_CUT"%string, 0.12%float); ("OVERLOAD"%string, 0.20%float);
   ("CONFIG_ERROR"%string, 0.10%float); ("TIMEOUT"%string, 0.15%float)].

(** [for error_code, weight in table: cumulative += weight;
     if rand_val <= cumulative: selected_error = error_code; break] *)
Fixpoint select_loop (table : list (string * float))
    (rand_val cumulative : float) (selected_error : string) : string :=
  match table with
  | [] => selected_error
  | (error_code, weight) :: rest =>
      let cumulative := (cumulative + weight)%float in
      if (rand_val <=? cumulative)%float then error_code
      else select_loop rest rand_val cumulative selected_error
  end.

(** The error code chosen for the draw [rand_val = random.random()];
    [cumulative] starts at the integer 0, which the first addition turns
    into the double 0.0. *)
Definition select_error (rand_val : float) : string :=
  select_loop error_codes rand_val 0%float "BGP_FAIL".

(** The values [cumulative] takes over the table, in order. *)
Fixpoint running_sums (table : list (string * float)) (cumulative : float)
  : list float :=
  match table with
  | [] => []
  | (_, weight) :: rest =>
      let cumulative := (cumulative + weight)%float in
      cumulative :: running_sums rest cumulative
  end.

(* ===================================================================== *)
(** * Facts about sorting and distinct values *)
(* ===================================================================== *)

Section SortingFacts.
Context {A : Type} (leb : A -> A -> bool).

Let le (x y : A) : Prop := leb x y = true.

Lemma py_insert_perm (x : A) (l : list A) :
  Permutation (py_insert leb x l) (x :: l).
Proof.
  induction l as [|y t IH]; simpl.
  - apply Permutation_refl.
  - destruct (leb x y).
    + apply Permutation_refl.
    + eapply perm_trans; [apply perm_skip, IH | apply perm_swap].
Qed.

Lemma py_sorted_perm (l : list A) : Permutation (py_sorted leb l) l.
Proof.
  induction l as [|x t IH]; simpl.
  - constructor.
  - eapply perm_trans; [apply py_insert_perm | now apply perm_skip].
Qed.

Lemma py_sorted_length (l : list A) : length (py_sorted leb l) = length l.
Proof. apply Permutation_length, py_sorted_perm. Qed.

Lemma py_sorted_in (l : list A) (x : A) : In x (py_sorted leb l) <-> In x l.
Proof.
  split; apply Permutation_in;
    [apply py_sorted_perm | apply Permutation_sym, py_sorted_perm].
Qed.

Hypothesis leb_total : forall x y, leb x y = true \/ leb y x = true.

Lemma py_insert_Sorted (x : A) (l : list A) :
  Sorted le l -> Sorted le (py_insert leb x l).
Proof.
  induction l as [|y t IH]; simpl; intros Hs.
  - repeat constructor.
  - destruct (leb x y) eqn:Hxy.
    + constructor; [assumption | constructor; exact Hxy].
    + inversion Hs as [|? ? Ht Hhd]; subst.
      constructor; [now apply IH |].
      assert (Hyx : le y x) by (destruct (leb_total x y); congruence).
      destruct t as [|z t']; simpl.
      * now constructor.
      * destruct (leb x z); constructor; trivial.
        now inversion Hhd.
Qed.

Lemma py_sorted_Sorted (l : list A) : Sorted le (py_sorted leb l).
Proof.
  induction l as [|x t IH]; simpl; [constructor | now apply py_insert_Sorted].
Qed.

Hypothesis leb_trans :
  forall x y z, leb x y = true -> leb y z = true -> leb x z = true.

Lemma py_sorted_StronglySorted (l : list A) :
  StronglySorted le (py_sorted leb l).
Proof.
  apply Sorted_StronglySorted; [|apply py_sorted_Sorted].
  intros x y z; apply leb_trans.
Qed.

(** The head of a sorted list is a least element of the input. *)
Lemma py_sorted_head_least (l : list A) (h : A) (t : list A) :
  py_sorted leb l = h :: t -> forall x, In x l -> x = h \/ le h x.
Proof.
  intros E x Hx.
  pose proof (py_sorted_StronglySorted l) as Hs.
  rewrite <- py_sorted_in, E in Hx. rewrite E in Hs.
  destruct Hx as [->|Hx]; [now left | right].
  inversion Hs as [|? ? _ Hall]; subst.
  rewrite Forall_forall in Hall; now apply Hall.
Qed.

Hypothesis leb_antisym :
  forall x y, leb x y = true -> leb y x = true -> x = y.

(** A sorted list is determined by its elements. *)
Lemma StronglySorted_perm_eq (l l' : list A) :
  StronglySorted le l -> StronglySorted le l' -> Permutation l l' -> l = l'.
Proof.
  revert l'; induction l as [|x t IH]; intros l' Hs Hs' Hp.
  - now apply Permutation_nil in Hp.
  - destruct l' as [|y t'].
    + now apply Permutation_sym, Permutation_nil in Hp.
    + inversion Hs as [|? ? Hst Hall]; subst.
      inversion Hs' as [|? ? Hst' Hall']; subst.
      rewrite Forall_forall in Hall, Hall'.
      assert (x = y) as ->.
      { assert (Hx : In x (y :: t'))
          by (eapply Permutation_in; [exact Hp | now left]).
        assert (Hy : In y (x :: t))
          by (eapply Permutation_in; [apply Permutation_sym, Hp | now left]).
        destruct Hx as [->|Hx]; trivial.
        destruct Hy as [->|Hy]; trivial.
        apply leb_antisym; [now apply Hall | now apply Hall']. }
      f_equal. apply IH; trivial.
      now apply Permutation_cons_inv in Hp.
Qed.

Lemma py_sorted_perm_eq (l l' : list A) :
  Permutation l l' -> py_sorted leb l = py_sorted leb l'.
Proof.
  intros Hp. apply StronglySorted_perm_eq;
    try apply py_sorted_StronglySorted.
  eapply perm_trans; [apply py_sorted_perm |].
  eapply perm_trans; [exact Hp | apply Permutation_sym, py_sorted_perm].
Qed.
End SortingFacts.

Section UniqueFacts.
Context {A : Type} (eqb : A -> A -> bool).
Hypothesis eqb_eq : forall x y, eqb x y = true <-> x = y.

Lemma unique_in (l : list A) (x : A) : In x (unique eqb l) <-> In x l.
Proof.
  induction l as [|y t IH]; simpl; [tauto|].
  rewrite filter_In, IH. split.
  - intros [->|[H _]]; auto.
  - intros [->|H]; auto.
    destruct (eqb x y) eqn:E.
    + apply eqb_eq in E; auto.
    + right; split; trivial.
Qed.

Lemma unique_NoDup (l : list A) : NoDup (unique eqb l).
Proof.
  induction l as [|y t IH]; simpl; constructor.
  - rewrite filter_In. intros [_ H].
    assert (eqb y y = true) as E by now apply eqb_eq.
    now rewrite E in H.
  - now apply NoDup_filter.
Qed.

Lemma count_pos (l : list A) (x : A) : In x l -> (0 < count eqb x l)%nat.
Proof.
  unfold count. induction l as [|y t IH]; simpl; [tauto|].
  intros [->|H].
  - assert (eqb x x = true) as E by now apply eqb_eq.
    rewrite E; simpl; lia.
  - destruct (eqb x y); simpl; auto with arith.
Qed.
End UniqueFacts.

(** ** The order of Python strings *)

Lemma string_compare_refl (s : string) : String.compare s s = Eq.
Proof.
  induction s as [|a s IH]; simpl; trivial.
  unfold Ascii.compare; now rewrite N.compare_refl.
Qed.

Lemma string_compare_le_trans (s1 s2 s3 : string) :
  String.compare s1 s2 <> Gt -> String.compare s2 s3 <> Gt ->
  String.compare s1 s3 <> Gt.
Proof.
  revert s2 s3; induction s1 as [|a s1 IH]; intros [|b s2] [|c s3]; simpl;
    try congruence.
  unfold Ascii.compare.
  destruct (N.compare_spec (N_of_ascii a) (N_of_ascii b)) as [Eab|Lab|Gab];
    destruct (N.compare_spec (N_of_ascii b) (N_of_ascii c)) as [Ebc|Lbc|Gbc];
    try congruence; intros H1 H2.
  - rewrite Eab, Ebc, N.compare_refl. now apply (IH s2 s3).
  - rewrite Eab. apply N.compare_lt_iff in Lbc. now rewrite Lbc.
  - rewrite <- Ebc. apply N.compare_lt_iff in Lab. now rewrite Lab.
  - assert (L : (N_of_ascii a < N_of_ascii c)%N) by lia.
    apply N.compare_lt_iff in L. now rewrite L.
Qed.

Lemma string_leb_trans (x y z : string) :
  String.leb x y = true -> String.leb y z = true -> String.leb x z = true.
Proof.
  unfold String.leb. intros H1 H2.
  pose proof (string_compare_le_trans x y z) as H.
  destruct (String.compare x y), (String.compare y z),
    (String.compare x z); try discriminate; trivial;
    exfalso; apply H; congruence.
Qed.

Lemma string_leb_refl (x : string) : String.leb x x = true.
Proof. unfold String.leb; now rewrite string_compare_refl. Qed.

Lemma Zleb_total (x y : Z) : (x <=? y) = true \/ (y <=? x) = true.
Proof. rewrite !Z.leb_le; lia. Qed.

Lemma Zleb_trans (x y z : Z) :
  (x <=? y) = true -> (y <=? z) = true -> (x <=? z) = true.
Proof. rewrite !Z.leb_le; lia. Qed.

(* ===================================================================== *)
(** * The final sort of [create_incidents] *)
(* ===================================================================== *)

Section SortDesc.
Context {A : Type} (key : A -> Z).

Lemma sort_desc_by_perm (l : list A) : Permutation (sort_desc_by key l) l.
Proof. apply py_sorted_perm. Qed.

Lemma sort_desc_by_sorted (l : list A) :
  StronglySorted (fun a b => key b <= key a) (sort_desc_by key l).
Proof.
  pose proof (py_sorted_StronglySorted (fun a b => key b <=? key a)) as H.
  assert (Hs : StronglySorted (fun a b => (key b <=? key a) = true)
                 (sort_desc_by key l)).
  { apply H.
    - intros x y; apply Zleb_total.
    - intros x y z Hxy Hyz; now apply (Zleb_trans _ (key y)). }
  clear H. induction Hs as [|a t Ht IH Hall]; constructor; trivial.
  rewrite Forall_forall in *; intros b Hb; apply Z.leb_le; auto.
Qed.

(** Stability: the incidents of one risk keep their relative order. *)
Lemma py_insert_desc_filter (v : Z) (x : A) (l : list A) :
  filter (fun a => key a =? v) (py_insert (fun a b => key b <=? key a) x l)
  = filter (fun a => key a =? v) (x :: l).
Proof.
  induction l as [|y t IH]; simpl; trivial.
  destruct (key y <=? key x) eqn:E; simpl; trivial.
  rewrite IH; simpl.
  destruct (key x =? v) eqn:Ex, (key y =? v) eqn:Ey; trivial.
  apply Z.eqb_eq in Ex, Ey. apply Z.leb_gt in E. lia.
Qed.

Lemma sort_desc_by_stable (v : Z) (l : list A) :
  filter (fun a => key a =? v) (sort_desc_by key l)
  = filter (fun a => key a =? v) l.
Proof.
  unfold sort_desc_by; induction l as [|x t IH]; simpl; trivial.
  rewrite py_insert_desc_filter; simpl. now rewrite IH.
Qed.
End SortDesc.

(* ===================================================================== *)
(** * The two loops of [create_incidents] *)
(* ===================================================================== *)

Lemma max_attained {A : Type} (f : A -> nat) (d : list A) :
  d <> [] -> exists x, In x d /\ f x = fold_right Nat.max 0%nat (map f d).
Proof.
  induction d as [|y t IH]; [congruence|]; intros _; simpl.
  destruct t as [|z t'].
  - exists y; simpl; split; auto. lia.
  - destruct IH as [x [Hx Ex]]; [discriminate|].
    destruct (Nat.max_spec (f y) (fold_right Nat.max 0%nat (map f (z :: t'))))
      as [[_ E]|[_ E]]; rewrite E.
    + exists x; split; [now right | exact Ex].
    + exists y; split; [now left | reflexivity].
Qed.

Lemma mode_nonempty (l : list string) : l <> [] -> mode l <> [].
Proof.
  intros Hl Hm. unfold mode in Hm.
  destruct (max_attained (fun x => count String.eqb x l) (unique String.eqb l))
    as [x [Hx Ex]].
  { destruct l; [congruence | discriminate]. }
  assert (Hin : In x (py_sorted String.leb
             (filter (fun x => Nat.eqb (count String.eqb x l)
                        (fold_right Nat.max 0%nat
                           (map (fun x => count String.eqb x l)
                              (unique String.eqb l))))
                (unique String.eqb l)))).
  { apply py_sorted_in, filter_In; split; trivial. now apply Nat.eqb_eq. }
  rewrite Hm in Hin; inversion Hin.
Qed.

Lemma cluster_incident_ok (incidents : list Incident) (rows : list Row) :
  rows <> [] ->
  exists inc, cluster_incident incidents rows = Ok inc
    /\ alerts inc = rows
    /\ alert_count inc = Z.of_nat (length rows)
    /\ incident_id inc = Z.of_nat (S (length incidents))
    /\ total_revenue_risk inc = series_sum (map revenue_risk rows)
    /\ priority inc = priority_of_risk (total_revenue_risk inc)
    /\ iloc0 (mode (map error_code rows)) = Ok (primary_error inc).
Proof.
  intros Hr. unfold cluster_incident.
  destruct (mode (map error_code rows)) as [|m ms] eqn:Em.
  - exfalso. apply (mode_nonempty (map error_code rows)); trivial.
    destruct rows; [congruence | discriminate].
  - simpl. eexists; split; [reflexivity|]. simpl.
    repeat split; trivial. lia.
Qed.

Lemma rows_with_label_nonempty (dfc : list (Row * Z)) (c : Z) :
  In c (map snd dfc) -> rows_with_label dfc c <> [].
Proof.
  unfold rows_with_label. induction dfc as [|[r c'] t IH]; simpl; [tauto|].
  intros [->|H].
  - rewrite Z.eqb_refl; discriminate.
  - destruct (c' =? c); [discriminate | auto].
Qed.

Lemma map_snd_combine {A B : Type} (l : list A) (l' : list B) :
  length l' = length l -> map snd (combine l l') = l'.
Proof.
  revert l'; induction l as [|x t IH]; intros [|y t']; simpl;
    try discriminate; trivial.
  intros H; f_equal; apply IH; lia.
Qed.

Lemma map_fst_combine {A B : Type} (l : list A) (l' : list B) :
  length l' = length l -> map fst (combine l l') = l.
Proof.
  revert l'; induction l as [|x t IH]; intros [|y t']; simpl;
    try discriminate; trivial.
  intros H; f_equal; apply IH; lia.
Qed.

(** The cluster loop appends one incident per listed label other than the
    noise label, numbered on from the incidents already there. *)
Lemma cluster_loop_spec (dfc : list (Row * Z)) (ids : list Z) :
  (forall c, In c ids -> c <> NOISE -> In c (map snd dfc)) ->
  forall acc, exists new,
    cluster_loop dfc ids acc = Ok (acc ++ new)
    /\ map alerts new
       = map (rows_with_label dfc) (filter (fun c => negb (c =? NOISE)) ids)
    /\ map incident_id new
       = map Z.of_nat (seq (S (length acc)) (length new))
    /\ Forall (fun inc =>
         alert_count inc = Z.of_nat (length (alerts inc))
         /\ priority inc = priority_of_risk (total_revenue_risk inc)
         /\ iloc0 (mode (map error_code (alerts inc))) = Ok (primary_error inc))
         new.
Proof.
  induction ids as [|c rest IH]; intros Hin acc; simpl.
  - exists []; rewrite app_nil_r; repeat split; trivial.
  - destruct (c =? NOISE) eqn:Ec; simpl.
    + apply IH; intros c' H; apply Hin; now right.
    + destruct (cluster_incident_ok acc (rows_with_label dfc c))
        as [inc [E [Ha [Hc [Hid [Hrisk [Hp Hm]]]]]]].
      { apply rows_with_label_nonempty, Hin; [now left|].
        now apply Z.eqb_neq. }
      rewrite E; simpl.
      destruct (IH (fun c' H => Hin c' (or_intror H)) (acc ++ [inc]))
        as [new [E' [Ha' [Hid' Hall]]]].
      exists (inc :: new). rewrite E', <- app_assoc; simpl.
      split; [reflexivity|]. split; [now rewrite Ha, Ha'|]. split.
      * rewrite Hid, Hid'. rewrite length_app; simpl.
        now replace (length acc + 1)%nat with (S (length acc)) by lia.
      * constructor; trivial. rewrite Ha. repeat split; trivial.
Qed.

(** The noise loop appends one singleton incident per noise row, in the
    order of the rows, numbered on likewise. *)
Lemma noise_loop_spec (rows : list Row) :
  forall acc, exists new,
    noise_loop rows acc = acc ++ new
    /\ Forall2 is_noise_incident_of rows new
    /\ map incident_id new
       = map Z.of_nat (seq (S (length acc)) (length new)).
Proof.
  induction rows as [|a rest IH]; intros acc; simpl.
  - exists []; rewrite app_nil_r; repeat split; constructor.
  - destruct (IH (acc ++ [noise_incident acc a])) as [new [E [Hf Hid]]].
    exists (noise_incident acc a :: new).
    rewrite E, <- app_assoc; simpl. split; [reflexivity|]. split.
    + constructor; trivial. repeat split.
    + rewrite Hid, length_app; simpl.
      replace (length acc + 1)%nat with (S (length acc)) by lia.
      f_equal. lia.
Qed.

(** Shape of the incident list before the final sort. *)
Lemma created_incidents_spec (df : list Row) (labels : list Z) :
  length labels = length df ->
  exists clusters noise,
    created_incidents df labels = Ok (clusters ++ noise)
    /\ map alerts clusters
       = map (rows_with_label (combine df labels))
           (filter (fun c => negb (c =? NOISE))
              (py_sorted Z.leb (unique Z.eqb labels)))
    /\ Forall (fun inc =>
         alert_count inc = Z.of_nat (length (alerts inc))
         /\ priority inc = priority_of_risk (total_revenue_risk inc)
         /\ iloc0 (mode (map error_code (alerts inc))) = Ok (primary_error inc))
         clusters
    /\ Forall2 is_noise_incident_of
         (rows_with_label (combine df labels) NOISE) noise
    /\ map incident_id (clusters ++ noise)
       = map Z.of_nat (seq 1 (length (clusters ++ noise))).
Proof.
  intros Hlen. unfold created_incidents.
  rewrite Hlen, Nat.eqb_refl; simpl.
  destruct (cluster_loop_spec (combine df labels)
              (py_sorted Z.leb (unique Z.eqb labels))) with (acc := @nil Incident)
    as [clusters [E [Ha [Hid Hall]]]].
  { intros c Hc _. rewrite map_snd_combine by trivial.
    apply (proj1 (unique_in Z.eqb Z.eqb_eq labels c)).
    exact (proj1 (py_sorted_in _ _ _) Hc). }
  simpl in E, Hid. rewrite E; simpl.
  destruct (noise_loop_spec (rows_with_label (combine df labels) NOISE) clusters)
    as [noise [E' [Hf Hid']]].
  exists clusters, noise. rewrite E'.
  repeat split; trivial.
  rewrite map_app, Hid, Hid', length_app, <- map_app. f_equal.
  now rewrite (seq_app (length clusters) (length noise) 1).
Qed.

(* ===================================================================== *)
(** * Membership: the incidents partition the batch *)
(* ===================================================================== *)

Lemma filter_disjoint_perm {A : Type} (p q : A -> bool) (l : list A) :
  (forall x, p x = true -> q x = true -> False) ->
  Permutation (filter p l ++ filter q l) (filter (fun x => p x || q x) l).
Proof.
  intros Hd. induction l as [|x t IH]; simpl; [constructor|].
  destruct (p x) eqn:Ep, (q x) eqn:Eq; simpl.
  - exfalso; eauto.
  - now apply perm_skip.
  - eapply perm_trans; [apply Permutation_sym, Permutation_middle |].
    now apply perm_skip.
  - exact IH.
Qed.

Lemma rows_of_labels_perm (dfc : list (Row * Z)) (ks : list Z) :
  NoDup ks ->
  Permutation (concat (map (rows_with_label dfc) ks))
    (map fst (filter (fun rc => existsb (Z.eqb (snd rc)) ks) dfc)).
Proof.
  induction 1 as [|k ks' Hk Hnd IH]; simpl.
  - induction dfc as [|rc t IHt]; simpl; [constructor | exact IHt].
  - eapply perm_trans; [apply Permutation_app_head, IH |].
    unfold rows_with_label. rewrite <- map_app. apply Permutation_map.
    apply filter_disjoint_perm. intros rc E1 E2.
    apply Z.eqb_eq in E1. apply existsb_exists in E2.
    destruct E2 as [k' [Hin E2]]. apply Z.eqb_eq in E2. congruence.
Qed.

Lemma concat_singletons {A : Type} (l : list A) :
  concat (map (fun a => [a]) l) = l.
Proof. induction l as [|x t IH]; simpl; congruence. Qed.

Lemma noise_incidents_alerts (rows : list Row) (noise : list Incident) :
  Forall2 is_noise_incident_of rows noise ->
  map alerts noise = map (fun a => [a]) rows.
Proof.
  induction 1 as [|a inc rows' noise' [Ha _] _ IH]; simpl; congruence.
Qed.

Lemma created_incidents_members (df : list Row) (labels : list Z)
    (clusters noise : list Incident) :
  length labels = length df ->
  map alerts clusters
  = map (rows_with_label (combine df labels))
      (filter (fun c => negb (c =? NOISE))
         (py_sorted Z.leb (unique Z.eqb labels))) ->
  Forall2 is_noise_incident_of
    (rows_with_label (combine df labels) NOISE) noise ->
  Permutation (concat (map alerts (clusters ++ noise))) df.
Proof.
  intros Hlen Hc Hn.
  set (dfc := combine df labels) in *.
  set (ks := filter (fun c => negb (c =? NOISE))
               (py_sorted Z.leb (unique Z.eqb labels))) in *.
  rewrite map_app, concat_app, Hc, (noise_incidents_alerts _ _ Hn),
    concat_singletons.
  assert (Hnd : NoDup (ks ++ [NOISE])).
  { apply NoDup_app.
    - apply NoDup_filter.
      eapply Permutation_NoDup; [apply Permutation_sym, py_sorted_perm |].
      apply unique_NoDup, Z.eqb_eq.
    - repeat constructor; simpl; tauto.
    - intros c H1 [<-|[]]. apply filter_In in H1.
      destruct H1 as [_ H1]. now rewrite Z.eqb_refl in H1. }
  pose proof (rows_of_labels_perm dfc _ Hnd) as Hp.
  rewrite map_app, concat_app in Hp; simpl in Hp.
  rewrite app_nil_r in Hp.
  eapply perm_trans; [exact Hp|].
  rewrite forallb_filter_id; [subst dfc; now rewrite map_fst_combine |].
  apply forallb_forall. intros [r c] Hin; simpl.
  apply existsb_exists. exists c; split; [|apply Z.eqb_refl].
  destruct (c =? NOISE) eqn:Ec.
  - apply Z.eqb_eq in Ec; subst c. apply in_or_app; right; now left.
  - apply in_or_app; left. apply filter_In; split; [|now rewrite Ec].
    apply py_sorted_in, (unique_in Z.eqb Z.eqb_eq).
    apply (in_map snd) in Hin; simpl in Hin.
    subst dfc; now rewrite map_snd_combine in Hin.
Qed.

Lemma nth_error_combine_In {A B : Type} (l : list A) (l' : list B)
    (i : nat) (a : A) (b : B) :
  nth_error l i = Some a -> nth_error l' i = Some b -> In (a, b) (combine l l').
Proof.
  revert l l'; induction i as [|i IH]; intros [|x t] [|y t']; simpl;
    try discriminate.
  - intros [= ->] [= ->]; now left.
  - intros H1 H2; right; now apply IH.
Qed.

Lemma Forall2_In_l {A B : Type} (R : A -> B -> Prop) (l : list A)
    (l' : list B) (a : A) :
  Forall2 R l l' -> In a l -> exists b, In b l' /\ R a b.
Proof.
  induction 1 as [|x y t t' Hxy _ IH]; simpl; [tauto|].
  intros [->|Hin].
  - exists y; auto.
  - destruct (IH Hin) as [b [Hb Hr]]; exists b; auto.
Qed.

(* ===================================================================== *)
(** * Properties of [create_incidents] *)
(* ===================================================================== *)

(** C1, as the code has it: [incident_id] is given when an incident is
    appended, 1, 2, ... in creation order (the clusters by ascending label,
    then the noise rows in batch order); the list is then sorted once, stably,
    by [total_revenue_risk] descending, and the ids are left as they were. So
    the returned ids are a permutation of 1..n, and id 1 belongs to the
    incident created first. *)
Theorem incident_ids_follow_creation_order (df : list Row) (labels : list Z) :
  length labels = length df ->
  exists created,
    created_incidents df labels = Ok created
    /\ create_incidents df labels
       = Ok (sort_desc_by total_revenue_risk created)
    /\ map incident_id created = map Z.of_nat (seq 1 (length created))
    /\ StronglySorted risk_ge (sort_desc_by total_revenue_risk created)
    /\ (forall v,
          filter (fun inc => total_revenue_risk inc =? v)
            (sort_desc_by total_revenue_risk created)
          = filter (fun inc => total_revenue_risk inc =? v) created)
    /\ Permutation
         (map incident_id (sort_desc_by total_revenue_risk created))
         (map Z.of_nat (seq 1 (length created))).
Proof.
  intros Hlen.
  destruct (created_incidents_spec df labels Hlen)
    as [clusters [noise [E [_ [_ [_ Hid]]]]]].
  exists (clusters ++ noise). split; [exact E|]. split.
  { unfold create_incidents. now rewrite E. }
  split; [exact Hid|]. split; [apply sort_desc_by_sorted|].
  split; [intros v; apply sort_desc_by_stable|].
  rewrite <- Hid. apply Permutation_map, sort_desc_by_perm.
Qed.

Lemma incident_ids_follow_creation_order_witness :
  length [0; 1] = length [row_small; row_mid]
  /\ exists created,
       created_incidents [row_small; row_mid] [0; 1] = Ok created
       /\ create_incidents [row_small; row_mid] [0; 1]
          = Ok (sort_desc_by total_revenue_risk created)
       /\ map incident_id created = map Z.of_nat (seq 1 (length created))
       /\ StronglySorted risk_ge (sort_desc_by total_revenue_risk created)
       /\ (forall v,
             filter (fun inc => total_revenue_risk inc =? v)
               (sort_desc_by total_revenue_risk created)
             = filter (fun inc => total_revenue_risk inc =? v) created)
       /\ Permutation
            (map incident_id (sort_desc_by total_revenue_risk created))
            (map Z.of_nat (seq 1 (length created))).
Proof.
  split; [reflexivity|].
  apply (incident_ids_follow_creation_order [row_small; row_mid] [0; 1]).
  reflexivity.
Defined.

(** C1 as stated fails: two clusters of risk 10 and 20 come back with the
    ids 2, 1; the incident of highest risk carries id 2. *)
Lemma incident_ids_not_in_sorted_order :
  exists incidents,
    create_incidents [row_small; row_mid] [0; 1] = Ok incidents
    /\ map total_revenue_risk incidents = [20; 10]
    /\ map incident_id incidents = [2; 1]
    /\ ~ ids_follow_list_order incidents.
Proof.
  eexists. split; [vm_compute; reflexivity|].
  split; [reflexivity|]. split; [reflexivity|].
  unfold ids_follow_list_order; simpl. discriminate.
Qed.

(** C3, as the code has it: a noise alert is the only member of an incident
    of its own with [alert_count] 1 and its own [revenue_risk] as total, and
    the priority of that incident is [Low] whatever the risk; it is what the
    thresholds would give exactly when the risk is at most 100000. *)
Theorem noise_incident_priority_ignores_risk (df : list Row)
    (labels : list Z) (i : nat) (a : Row) :
  length labels = length df ->
  nth_error df i = Some a ->
  nth_error labels i = Some NOISE ->
  exists incidents inc,
    create_incidents df labels = Ok incidents
    /\ In inc incidents
    /\ alerts inc = [a]
    /\ alert_count inc = 1
    /\ total_revenue_risk inc = revenue_risk a
    /\ priority inc = Low
    /\ (priority inc = priority_of_risk (total_revenue_risk inc)
        <-> revenue_risk a <= 100000).
Proof.
  intros Hlen Ha Hl.
  destruct (created_incidents_spec df labels Hlen)
    as [clusters [noise [E [_ [_ [Hn _]]]]]].
  assert (Hin : In a (rows_with_label (combine df labels) NOISE)).
  { unfold rows_with_label.
    change a with (fst (a, NOISE)). apply in_map, filter_In; split.
    - now apply (nth_error_combine_In df labels i).
    - apply Z.eqb_refl. }
  destruct (Forall2_In_l _ _ _ _ Hn Hin)
    as [inc [Hinc [Hal [Hcnt [Hp [_ Hrisk]]]]]].
  exists (sort_desc_by total_revenue_risk (clusters ++ noise)), inc.
  split; [unfold create_incidents; now rewrite E|].
  split.
  { eapply Permutation_in;
      [apply Permutation_sym, sort_desc_by_perm | apply in_or_app; now right]. }
  repeat (split; trivial).
  - rewrite Hp, Hrisk. unfold priority_of_risk.
    destruct (revenue_risk a >? 500000) eqn:E1; [discriminate|].
    destruct (revenue_risk a >? 100000) eqn:E2; [discriminate|].
    intros _. rewrite Z.gtb_ltb in E2. now apply Z.ltb_ge in E2.
  - rewrite Hp, Hrisk. unfold priority_of_risk. intros Hle.
    destruct (revenue_risk a >? 500000) eqn:E1;
      [rewrite Z.gtb_ltb in E1; apply Z.ltb_lt in E1; lia|].
    destruct (revenue_risk a >? 100000) eqn:E2;
      [rewrite Z.gtb_ltb in E2; apply Z.ltb_lt in E2; lia|].
    reflexivity.
Qed.

Lemma noise_incident_priority_ignores_risk_witness :
  length [0; NOISE] = length [row_small; row_big]
  /\ nth_error [row_small; row_big] 1 = Some row_big
  /\ nth_error [0; NOISE] 1 = Some NOISE
  /\ exists incidents inc,
       create_incidents [row_small; row_big] [0; NOISE] = Ok incidents
       /\ In inc incidents
       /\ alerts inc = [row_big]
       /\ alert_count inc = 1
       /\ total_revenue_risk inc = revenue_risk row_big
       /\ priority inc = Low
       /\ (priority inc = priority_of_risk (total_revenue_risk inc)
           <-> revenue_risk row_big <= 100000).
Proof.
  split; [reflexivity|]. split; [reflexivity|]. split; [reflexivity|].
  apply (noise_incident_priority_ignores_risk
           [row_small; row_big] [0; NOISE] 1 row_big); reflexivity.
Defined.

(** C3 as stated fails: a lone noise alert of risk 600000, above the [High]
    threshold, has no incident of the priority its risk asks for. *)
Lemma noise_priority_not_by_thresholds :
  priority_of_risk (revenue_risk row_big) = High
  /\ exists incidents,
       create_incidents [row_big] [NOISE] = Ok incidents
       /\ ~ exists inc,
             In inc incidents /\ alerts inc = [row_big]
             /\ priority inc = priority_of_risk (revenue_risk row_big).
Proof.
  split; [reflexivity|].
  eexists. split; [vm_compute; reflexivity|].
  intros [inc [[<-|[]] [_ H]]]. discriminate H.
Qed.

(** ** Rows by position *)

Lemma positions_with_label_spec (labels : list Z) (c : Z) :
  forall start i,
    In i (positions_with_label labels c start)
    <-> (start <= i)%nat /\ nth_error labels (i - start) = Some c.
Proof.
  induction labels as [|l rest IH]; intros start i; cbn [positions_with_label].
  - split; [intros [] | intros [_ H]]. now destruct (i - start)%nat.
  - assert (Hrest : In i (positions_with_label rest c (S start))
                    <-> (S start <= i)%nat
                        /\ nth_error rest (i - S start) = Some c)
      by apply IH.
    destruct (Nat.eq_dec i start) as [->|Hne].
    + rewrite Nat.sub_diag. cbn [nth_error].
      destruct (Z.eqb_spec l c) as [->|Hlc].
      * split; [intros _; split; [lia | reflexivity] | intros _; now left].
      * rewrite Hrest. split; [intros [H _]; lia | intros [_ [= H]]; congruence].
    + assert (Hsub : forall (H : (start <= i)%nat),
                 (i - start)%nat = S (i - S start)) by (intros; lia).
      destruct (l =? c).
      * cbn [In]. rewrite Hrest. split.
        -- intros [H|[H1 H2]]; [congruence|].
           split; [lia|]. rewrite Hsub by lia. exact H2.
        -- intros [H1 H2]. right. split; [lia|].
           rewrite Hsub in H2 by lia. exact H2.
      * rewrite Hrest. split.
        -- intros [H1 H2]. split; [lia|]. rewrite Hsub by lia. exact H2.
        -- intros [H1 H2]. split; [lia|].
           rewrite Hsub in H2 by lia. exact H2.
Qed.

Lemma positions_with_label_sorted (labels : list Z) (c : Z) :
  forall start, StronglySorted lt (positions_with_label labels c start).
Proof.
  induction labels as [|l rest IH]; intros start; cbn [positions_with_label];
    [constructor|].
  destruct (l =? c); [|apply IH].
  constructor; [apply IH|]. apply Forall_forall. intros i Hi.
  apply positions_with_label_spec in Hi. lia.
Qed.

(** The rows the code selects for a label are the rows at the positions
    of that label, in batch order. *)
Lemma positions_with_label_rows (c : Z) (df : list Row) :
  forall (labels : list Z) (pre : list Row),
    length labels = length df ->
    map (nth_error (pre ++ df))
      (positions_with_label labels c (length pre))
    = map Some (rows_with_label (combine df labels) c).
Proof.
  unfold rows_with_label.
  induction df as [|a t IH]; intros [|l ls] pre Hlen; try discriminate;
    [reflexivity|].
  cbn [positions_with_label combine filter snd].
  assert (Hrest : map (nth_error (pre ++ a :: t))
                    (positions_with_label ls c (S (length pre)))
                  = map Some
                      (map fst (filter (fun rc => snd rc =? c)
                                  (combine t ls)))).
  { specialize (IH ls (pre ++ [a])).
    rewrite <- app_assoc, length_app in IH. cbn [app length] in IH.
    replace (length pre + 1)%nat with (S (length pre)) in IH by lia.
    apply IH. simpl in Hlen. lia. }
  destruct (l =? c); [|exact Hrest].
  cbn [map fst]. rewrite Hrest. f_equal.
  rewrite nth_error_app2 by lia. now rewrite Nat.sub_diag.
Qed.

Lemma rows_at_positions (df : list Row) (labels : list Z) (c : Z) :
  length labels = length df ->
  exists positions,
    StronglySorted lt positions
    /\ (forall i, In i positions <-> nth_error labels i = Some c)
    /\ map (nth_error df) positions
       = map Some (rows_with_label (combine df labels) c).
Proof.
  intros Hlen. exists (positions_with_label labels c 0).
  split; [apply positions_with_label_sorted|]. split.
  - intros i. rewrite positions_with_label_spec, Nat.sub_0_r.
    split; [tauto | intros H; split; [lia | exact H]].
  - exact (positions_with_label_rows c df labels [] Hlen).
Qed.

Lemma Forall2_compose {A B C : Type} (R1 : A -> B -> Prop)
    (R2 : B -> C -> Prop) (la : list A) (lb : list B) (lc : list C) :
  Forall2 R1 la lb -> Forall2 R2 lb lc ->
  Forall2 (fun a c => exists b, R1 a b /\ R2 b c) la lc.
Proof.
  intros H1; revert lc; induction H1 as [|a b la lb Hab _ IH]; intros lc H2;
    inversion H2; subst; constructor; eauto.
Qed.

Lemma map_nth_error_Forall2 {A : Type} (l : list A) (positions : list nat)
    (rows : list A) :
  map (nth_error l) positions = map Some rows ->
  Forall2 (fun i a => nth_error l i = Some a) positions rows.
Proof.
  revert rows; induction positions as [|i t IH]; intros [|a rows] H;
    try discriminate; constructor.
  - now injection H.
  - apply IH. now injection H.
Qed.

(** C4: with one label per alert, the returned incidents are, up to the
    order of the final sort, the cluster incidents followed by the noise
    incidents; the noise incidents stand one to one, in batch order, for the
    positions [i] of the batch whose label is the noise label: the incident
    of position [i] has the alert at [i] as its only member, [alert_count]
    1 and priority [Low], whatever the alert's revenue risk. The members of
    every cluster incident are the alerts at the positions of one label
    other than the noise label. *)
Theorem noise_alerts_become_low_singletons (df : list Row) (labels : list Z) :
  length labels = length df ->
  exists incidents clusters noise noise_positions,
    create_incidents df labels = Ok incidents
    /\ Permutation incidents (clusters ++ noise)
    /\ StronglySorted lt noise_positions
    /\ (forall i, In i noise_positions <-> nth_error labels i = Some NOISE)
    /\ Forall2 (fun i inc => exists a,
                  nth_error df i = Some a
                  /\ alerts inc = [a] /\ alert_count inc = 1
                  /\ priority inc = Low)
         noise_positions noise
    /\ Forall (fun inc => exists c positions,
                 c <> NOISE
                 /\ StronglySorted lt positions
                 /\ (forall i, In i positions <-> nth_error labels i = Some c)
                 /\ map (nth_error df) positions = map Some (alerts inc))
         clusters.
Proof.
  intros Hlen.
  destruct (created_incidents_spec df labels Hlen)
    as [clusters [noise [E [Hc [_ [Hn _]]]]]].
  destruct (rows_at_positions df labels NOISE Hlen)
    as [noise_positions [Hsorted [Hcover Hrows]]].
  exists (sort_desc_by total_revenue_risk (clusters ++ noise)), clusters, noise,
    noise_positions.
  split; [unfold create_incidents; now rewrite E|].
  split; [apply sort_desc_by_perm|].
  split; [exact Hsorted|]. split; [exact Hcover|]. split.
  - apply map_nth_error_Forall2 in Hrows.
    pose proof (Forall2_compose _ _ _ _ _ Hrows Hn) as H.
    clear -H. induction H as [|i inc ps noise' [a [Ha Hr]] _ IH];
      constructor; trivial.
    destruct Hr as [H1 [H2 [H3 _]]]. exists a. auto.
  - clear -Hc Hlen.
    assert (Hk : Forall (fun c => c <> NOISE)
                   (filter (fun c => negb (c =? NOISE))
                      (py_sorted Z.leb (unique Z.eqb labels)))).
    { apply Forall_forall. intros c H. apply filter_In in H.
      destruct H as [_ H]. apply negb_true_iff, Z.eqb_neq in H. exact H. }
    revert Hc Hk.
    generalize (filter (fun c => negb (c =? NOISE))
                  (py_sorted Z.leb (unique Z.eqb labels))) as ks.
    induction clusters as [|inc t IH]; intros [|k ks]; simpl;
      try discriminate; constructor.
    + inversion Hk; subst. injection Hc as Hc1 Hc2.
      destruct (rows_at_positions df labels k Hlen)
        as [positions [Hs [Hcov Hr]]].
      exists k, positions. rewrite Hc1. auto.
    + inversion Hk; subst. injection Hc as Hc1 Hc2. now apply (IH ks).
Qed.

Lemma noise_alerts_become_low_singletons_witness :
  length [NOISE; 0; NOISE] = length [row_big; row_small; row_mid]
  /\ exists incidents clusters noise noise_positions,
       create_incidents [row_big; row_small; row_mid] [NOISE; 0; NOISE]
       = Ok incidents
       /\ Permutation incidents (clusters ++ noise)
       /\ StronglySorted lt noise_positions
       /\ (forall i, In i noise_positions
                     <-> nth_error [NOISE; 0; NOISE] i = Some NOISE)
       /\ Forall2 (fun i inc => exists a,
                     nth_error [row_big; row_small; row_mid] i = Some a
                     /\ alerts inc = [a] /\ alert_count inc = 1
                     /\ priority inc = Low)
            noise_positions noise
       /\ Forall (fun inc => exists c positions,
                    c <> NOISE
                    /\ StronglySorted lt positions
                    /\ (forall i, In i positions
                                  <-> nth_error [NOISE; 0; NOISE] i = Some c)
                    /\ map (nth_error [row_big; row_small; row_mid]) positions
                       = map Some (alerts inc))
            clusters.
Proof.
  split; [reflexivity|].
  apply (noise_alerts_become_low_singletons
           [row_big; row_small; row_mid] [NOISE; 0; NOISE]).
  reflexivity.
Defined.

(** C9: whatever the labels (one per alert), the member lists of the returned
    incidents, put end to end, are a rearrangement of the batch: every alert
    is a member of exactly one incident, none is lost and none is repeated.
    Every incident has at least one member and counts its members. *)
Theorem incidents_partition_batch (df : list Row) (labels : list Z) :
  length labels = length df ->
  exists incidents,
    create_incidents df labels = Ok incidents
    /\ Permutation (concat (map alerts incidents)) df
    /\ Forall (fun inc =>
                 alerts inc <> []
                 /\ alert_count inc = Z.of_nat (length (alerts inc)))
         incidents.
Proof.
  intros Hlen.
  destruct (created_incidents_spec df labels Hlen)
    as [clusters [noise [E [Hc [Hall [Hn _]]]]]].
  exists (sort_desc_by total_revenue_risk (clusters ++ noise)).
  split; [unfold create_incidents; now rewrite E|]. split.
  - eapply perm_trans;
      [| exact (created_incidents_members df labels clusters noise Hlen Hc Hn)].
    rewrite <- !flat_map_concat_map.
    apply Permutation_flat_map, sort_desc_by_perm.
  - apply Forall_forall. intros inc Hin.
    apply (Permutation_in _ (sort_desc_by_perm total_revenue_risk _)) in Hin.
    apply in_app_or in Hin. destruct Hin as [Hin|Hin].
    + rewrite Forall_forall in Hall.
      destruct (Hall inc Hin) as [Hcnt [_ Hm]]. split; trivial.
      intros Hnil. rewrite Hnil in Hm. discriminate Hm.
    + clear -Hn Hin.
      induction Hn as [|a i rows noise' [H1 [H2 _]] _ IH]; [inversion Hin|].
      destruct Hin as [<-|Hin]; [|now apply IH].
      rewrite H1, H2. split; [discriminate | reflexivity].
Qed.

Lemma incidents_partition_batch_witness :
  length [NOISE; 0; NOISE] = length [row_big; row_small; row_mid]
  /\ exists incidents,
       create_incidents [row_big; row_small; row_mid] [NOISE; 0; NOISE]
       = Ok incidents
       /\ Permutation (concat (map alerts incidents))
            [row_big; row_small; row_mid]
       /\ Forall (fun inc =>
                    alerts inc <> []
                    /\ alert_count inc = Z.of_nat (length (alerts inc)))
            incidents.
Proof.
  split; [reflexivity|].
  apply (incidents_partition_batch
           [row_big; row_small; row_mid] [NOISE; 0; NOISE]).
  reflexivity.
Defined.

(* ===================================================================== *)
(** * [primary_error]: the mode of the error codes *)
(* ===================================================================== *)

Lemma max_bound {A : Type} (f : A -> nat) (d : list A) (x : A) :
  In x d -> (f x <= fold_right Nat.max 0 (map f d))%nat.
Proof.
  induction d as [|y t IH]; simpl; [tauto|].
  intros [->|H]; [lia|]. specialize (IH H). lia.
Qed.

(** The first value of [mode] is a most frequent value, and the least of
    the most frequent ones in the order of strings. *)
Lemma mode_head_spec (codes : list string) (m : string) (ms : list string) :
  mode codes = m :: ms ->
  In m codes
  /\ forall e, In e codes ->
       (count String.eqb e codes <= count String.eqb m codes)%nat
       /\ (count String.eqb e codes = count String.eqb m codes ->
           String.leb m e = true).
Proof.
  unfold mode.
  set (top := fold_right Nat.max 0%nat
                (map (fun x => count String.eqb x codes)
                   (unique String.eqb codes))).
  intros E.
  assert (Hm : In m (filter (fun x => Nat.eqb (count String.eqb x codes) top)
                       (unique String.eqb codes))).
  { apply (py_sorted_in String.leb). rewrite E; now left. }
  apply filter_In in Hm. destruct Hm as [Hmu Hmc].
  apply Nat.eqb_eq in Hmc.
  split; [now apply (unique_in String.eqb String.eqb_eq)|].
  intros e He.
  assert (Heu : In e (unique String.eqb codes))
    by now apply (unique_in String.eqb String.eqb_eq).
  split.
  - rewrite Hmc. subst top.
    apply (max_bound (fun x => count String.eqb x codes)); trivial.
  - intros Hc.
    destruct (py_sorted_head_least String.leb String.leb_total
                string_leb_trans _ _ _ E e) as [->|H]; trivial.
    + apply filter_In; split; trivial. apply Nat.eqb_eq; congruence.
    + apply string_leb_refl.
Qed.

(** C6, as the code has it: for every cluster incident, [primary_error] is a
    most frequent error code of the members, and when several codes are tied
    for most frequent it is the least of them in the order of strings (the
    first in alphabetical order), not the first encountered. *)
Theorem primary_error_is_least_mode (df : list Row) (labels : list Z) :
  length labels = length df ->
  exists incidents clusters noise,
    create_incidents df labels = Ok incidents
    /\ Permutation incidents (clusters ++ noise)
    /\ map alerts clusters
       = map (rows_with_label (combine df labels))
           (filter (fun c => negb (c =? NOISE))
              (py_sorted Z.leb (unique Z.eqb labels)))
    /\ Forall (fun inc =>
         let codes := map error_code (alerts inc) in
         In (primary_error inc) codes
         /\ forall e, In e codes ->
              (count String.eqb e codes
               <= count String.eqb (primary_error inc) codes)%nat
              /\ (count String.eqb e codes
                  = count String.eqb (primary_error inc) codes ->
                  String.leb (primary_error inc) e = true))
         clusters.
Proof.
  intros Hlen.
  destruct (created_incidents_spec df labels Hlen)
    as [clusters [noise [E [Hc [Hall _]]]]].
  exists (sort_desc_by total_revenue_risk (clusters ++ noise)), clusters, noise.
  split; [unfold create_incidents; now rewrite E|].
  split; [apply sort_desc_by_perm|]. split; [exact Hc|].
  eapply Forall_impl; [|exact Hall]. intros inc [_ [_ Hm]]; simpl.
  destruct (mode (map error_code (alerts inc))) as [|m ms] eqn:Em;
    [discriminate|].
  injection Hm as <-. now apply (mode_head_spec _ _ ms).
Qed.

Lemma primary_error_is_least_mode_witness :
  length [0; 0] = length [row_small; row_mid]
  /\ exists incidents clusters noise,
       create_incidents [row_small; row_mid] [0; 0] = Ok incidents
       /\ Permutation incidents (clusters ++ noise)
       /\ map alerts clusters
          = map (rows_with_label (combine [row_small; row_mid] [0; 0]))
              (filter (fun c => negb (c =? NOISE))
                 (py_sorted Z.leb (unique Z.eqb [0; 0])))
       /\ Forall (fun inc =>
            let codes := map error_code (alerts inc) in
            In (primary_error inc) codes
            /\ forall e, In e codes ->
                 (count String.eqb e codes
                  <= count String.eqb (primary_error inc) codes)%nat
                 /\ (count String.eqb e codes
                     = count String.eqb (primary_error inc) codes ->
                     String.leb (primary_error inc) e = true))
            clusters.
Proof.
  split; [reflexivity|].
  apply (primary_error_is_least_mode [row_small; row_mid] [0; 0]).
  reflexivity.
Defined.

(** C6 as stated fails: in a cluster whose members carry TIMEOUT then
    BGP_FAIL, once each, the first encountered of the tied codes is TIMEOUT
    and [primary_error] is BGP_FAIL. *)
Lemma primary_error_not_first_encountered :
  mode_first_encountered (map error_code [row_small; row_mid])
  = Some "TIMEOUT"%string
  /\ exists incidents,
       create_incidents [row_small; row_mid] [0; 0] = Ok incidents
       /\ map alerts incidents = [[row_small; row_mid]]
       /\ map primary_error incidents = ["BGP_FAIL"%string]
       /\ ~ Forall (fun inc =>
                     mode_first_encountered (map error_code (alerts inc))
                     = Some (primary_error inc)) incidents.
Proof.
  split; [reflexivity|].
  eexists. split; [vm_compute; reflexivity|].
  split; [reflexivity|]. split; [reflexivity|].
  intros H. inversion H as [|? ? Hhd _]; subst. discriminate Hhd.
Qed.

(* ===================================================================== *)
(** * Categorical encoding *)
(* ===================================================================== *)

Lemma index_of_nonneg (x : string) (l : list string) : 0 <= index_of x l.
Proof.
  induction l as [|y t IH]; cbn [index_of]; [lia|].
  destruct (String.eqb x y); lia.
Qed.

Lemma index_of_nth (x : string) (l : list string) :
  In x l ->
  0 <= index_of x l < Z.of_nat (length l)
  /\ nth (Z.to_nat (index_of x l)) l EmptyString = x.
Proof.
  induction l as [|y t IH]; [simpl; tauto|].
  cbn [index_of length]. intros Hin.
  destruct (String.eqb_spec x y) as [->|Hne].
  - split; [lia | reflexivity].
  - destruct Hin as [->|Hin]; [congruence|].
    destruct (IH Hin) as [Hb Hn]. split; [lia|].
    replace (Z.to_nat (1 + index_of x t)) with (S (Z.to_nat (index_of x t)))
      by lia.
    exact Hn.
Qed.

Lemma string_leb_neq_ltb (a b : string) :
  String.leb a b = true -> a <> b -> String.ltb a b = true.
Proof.
  unfold String.leb, String.ltb. intros H Hne.
  destruct (String.compare a b) eqn:E; trivial.
  apply String.compare_eq_iff in E; congruence.
Qed.

Lemma string_leb_not_ltb (a b : string) :
  String.leb a b = true -> String.ltb b a = false.
Proof.
  unfold String.leb, String.ltb. rewrite (String.compare_antisym a b).
  destruct (String.compare b a); simpl; trivial; discriminate.
Qed.

(** In a sorted list of distinct strings, positions compare as the strings
    do. *)
Lemma index_of_lt_iff (l : list string) :
  StronglySorted (fun a b => String.leb a b = true) l -> NoDup l ->
  forall v w, In v l -> In w l ->
    (index_of v l < index_of w l <-> String.ltb v w = true).
Proof.
  induction 1 as [|h t Hs IH Hall]; intros Hnd v w Hv Hw; [inversion Hv|].
  inversion Hnd as [|? ? Hnotin Hnd']; subst.
  rewrite Forall_forall in Hall. cbn [index_of].
  destruct (String.eqb_spec v h) as [->|Hvh];
    destruct (String.eqb_spec w h) as [->|Hwh].
  - rewrite (string_leb_not_ltb h h (string_leb_refl h)).
    split; [lia | discriminate].
  - destruct Hw as [->|Hw]; [congruence|].
    pose proof (index_of_nonneg w t).
    rewrite (string_leb_neq_ltb h w); [split; [trivial | lia] | auto |].
    intros ->; contradiction.
  - destruct Hv as [->|Hv]; [congruence|].
    pose proof (index_of_nonneg v t).
    rewrite (string_leb_not_ltb h v) by auto.
    split; [lia | discriminate].
  - destruct Hv as [->|Hv]; [congruence|].
    destruct Hw as [->|Hw]; [congruence|].
    rewrite <- (IH Hnd' v w Hv Hw). lia.
Qed.

Lemma classes_sorted_distinct (y : list string) :
  StronglySorted (fun a b => String.leb a b = true)
    (py_sorted String.leb (unique String.eqb y))
  /\ NoDup (py_sorted String.leb (unique String.eqb y)).
Proof.
  split.
  - apply py_sorted_StronglySorted;
      [apply String.leb_total | apply string_leb_trans].
  - eapply Permutation_NoDup; [apply Permutation_sym, py_sorted_perm |].
    apply unique_NoDup, String.eqb_eq.
Qed.

Lemma in_classes (y : list string) (v : string) :
  In v (py_sorted String.leb (unique String.eqb y)) <-> In v y.
Proof.
  rewrite py_sorted_in. apply unique_in, String.eqb_eq.
Qed.

(** ** The encoder dict *)

Lemma dict_get_set_same {V : Type} (k : string) (v : V)
    (d : list (string * V)) :
  dict_get k (dict_set k v d) = Some v.
Proof.
  induction d as [|[k' v'] t IH]; simpl.
  - now rewrite String.eqb_refl.
  - destruct (String.eqb k k') eqn:E; simpl.
    + now rewrite String.eqb_refl.
    + now rewrite E.
Qed.

Lemma dict_get_set_other {V : Type} (k k0 : string) (v : V)
    (d : list (string * V)) :
  k0 <> k -> dict_get k0 (dict_set k v d) = dict_get k0 d.
Proof.
  intros Hne. induction d as [|[k' v'] t IH]; simpl.
  - apply String.eqb_neq in Hne. now rewrite Hne.
  - destruct (String.eqb_spec k k') as [->|Hk]; simpl.
    + apply String.eqb_neq in Hne. now rewrite Hne.
    + destruct (String.eqb k0 k'); trivial.
Qed.

Lemma encode_column_spec (encoders : list (string * LabelEncoder))
    (col : string) (values : list string) :
  let classes := py_sorted String.leb (unique String.eqb values) in
  snd (encode_column encoders col values)
  = map (fun v => index_of v classes) values
  /\ dict_get col (fst (encode_column encoders col values))
     = Some {| classes_ := classes |}
  /\ forall col', col' <> col ->
       dict_get col' (fst (encode_column encoders col values))
       = dict_get col' encoders.
Proof.
  unfold encode_column, fit_transform; simpl.
  split; [reflexivity|]. split; [apply dict_get_set_same|].
  intros col' Hne. rewrite dict_get_set_other by trivial.
  destruct (dict_get col encoders); trivial.
  now apply dict_get_set_other.
Qed.

Lemma build_rows_spec (df : list Alert) (dev err : list Z) :
  length dev = length df -> length err = length df ->
  map device_id_encoded (build_rows df dev err) = dev
  /\ map error_code_encoded (build_rows df dev err) = err
  /\ map device_id (build_rows df dev err) = map a_device_id df
  /\ map error_code (build_rows df dev err) = map a_error_code df
  /\ length (build_rows df dev err) = length df.
Proof.
  revert dev err; induction df as [|a t IH]; intros [|d dev] [|e err]; simpl;
    try discriminate; intros H1 H2; [repeat split|].
  destruct (IH dev err) as [I1 [I2 [I3 [I4 I5]]]]; try lia.
  repeat split; congruence.
Qed.

(** What [fit_transform] assigns: the rank of a value among the sorted
    distinct values of the column. *)
Lemma rank_encoding_spec (y : list string) (v w : string) :
  let classes := py_sorted String.leb (unique String.eqb y) in
  In v y -> In w y ->
  (0 <= index_of v classes < Z.of_nat (length classes))
  /\ (index_of v classes = index_of w classes <-> v = w)
  /\ (index_of v classes < index_of w classes <-> String.ltb v w = true).
Proof.
  intros classes Hv Hw.
  apply (in_classes y) in Hv, Hw. fold classes in Hv, Hw.
  destruct (classes_sorted_distinct y) as [Hs Hnd]. fold classes in Hs, Hnd.
  destruct (index_of_nth v classes Hv) as [Hb Hn].
  destruct (index_of_nth w classes Hw) as [_ Hn'].
  split; [exact Hb|]. split.
  - split; [|now intros ->].
    intros E. rewrite <- Hn, <- Hn', E. reflexivity.
  - now apply index_of_lt_iff.
Qed.

Lemma scaler_fit_ok (X : list (list R)) :
  X <> [] -> exists sc, scaler_fit X = Ok sc.
Proof.
  destruct X as [|row rows]; [congruence|]. intros _.
  eexists; reflexivity.
Qed.

(** [preprocess_features] on a batch that is not empty: the processed rows
    and the encoder dict are functions of the batch alone, and the features
    are the raw feature rows put through a scaler fitted on them. *)
Lemma preprocess_features_spec (self : AlertCorrelator) (df : list Alert) :
  df <> [] ->
  let dev_classes :=
    py_sorted String.leb (unique String.eqb (map a_device_id df)) in
  let err_classes :=
    py_sorted String.leb (unique String.eqb (map a_error_code df)) in
  let processed :=
    build_rows df
      (map (fun v => index_of v dev_classes) (map a_device_id df))
      (map (fun v => index_of v err_classes) (map a_error_code df)) in
  exists self' sc,
    preprocess_features self df
    = Ok (self', (scaler_transform sc (map feature_row processed), processed))
    /\ scaler_fit (map feature_row processed) = Ok sc
    /\ scaler self' = sc
    /\ dict_get "device_id" (label_encoders self')
       = Some {| classes_ := dev_classes |}
    /\ dict_get "error_code" (label_encoders self')
       = Some {| classes_ := err_classes |}
    /\ length processed = length df.
Proof.
  intros Hne dev_classes err_classes processed.
  unfold preprocess_features.
  destruct (encode_column (label_encoders self) "device_id"
              (map a_device_id df)) as [encoders1 dev] eqn:E1.
  destruct (encode_column encoders1 "error_code" (map a_error_code df))
    as [encoders2 err] eqn:E2.
  destruct (encode_column_spec (label_encoders self) "device_id"
              (map a_device_id df)) as [Hd [Hg _]].
  destruct (encode_column_spec encoders1 "error_code" (map a_error_code df))
    as [He [Hg2 Hother]].
  rewrite E1 in Hd, Hg; rewrite E2 in He, Hg2, Hother; simpl in *.
  subst dev err. fold dev_classes err_classes processed.
  assert (Hlen : length processed = length df).
  { apply build_rows_spec; now rewrite !length_map. }
  destruct (scaler_fit_ok (map feature_row processed)) as [sc Hsc].
  { intros Ef. apply (f_equal (@length _)) in Ef.
    rewrite length_map, Hlen in Ef. destruct df; [congruence | discriminate]. }
  unfold scaler_fit_transform. rewrite Hsc. cbn [bind].
  exists {| scaler := sc; label_encoders := encoders2 |}, sc.
  cbn [scaler label_encoders]. repeat split; trivial.
  rewrite Hother by discriminate. exact Hg.
Qed.

(** C5, as the code has it: on a batch that is not empty, each distinct
    [device_id] and each distinct [error_code] of the batch is given a unique
    integer, namely its rank (from 0) among the distinct values of the batch
    in the order of strings, not in order of first appearance; the encoders
    are refitted on the batch, so the rows, the features and the encoders'
    classes are the same whatever the correlator held before. *)
Theorem categorical_encoding_sorted_and_refit (self : AlertCorrelator)
    (df : list Alert) :
  df <> [] ->
  let dev_classes :=
    py_sorted String.leb (unique String.eqb (map a_device_id df)) in
  let err_classes :=
    py_sorted String.leb (unique String.eqb (map a_error_code df)) in
  exists self' features processed,
    preprocess_features self df = Ok (self', (features, processed))
    /\ map device_id_encoded processed
       = map (fun a => index_of (a_device_id a) dev_classes) df
    /\ map error_code_encoded processed
       = map (fun a => index_of (a_error_code a) err_classes) df
    /\ (forall v w, In v (map a_device_id df) -> In w (map a_device_id df) ->
          (0 <= index_of v dev_classes < Z.of_nat (length dev_classes))
          /\ (index_of v dev_classes = index_of w dev_classes <-> v = w)
          /\ (index_of v dev_classes < index_of w dev_classes
              <-> String.ltb v w = true))
    /\ (forall v w, In v (map a_error_code df) -> In w (map a_error_code df) ->
          (0 <= index_of v err_classes < Z.of_nat (length err_classes))
          /\ (index_of v err_classes = index_of w err_classes <-> v = w)
          /\ (index_of v err_classes < index_of w err_classes
              <-> String.ltb v w = true))
    /\ dict_get "device_id" (label_encoders self')
       = Some {| classes_ := dev_classes |}
    /\ dict_get "error_code" (label_encoders self')
       = Some {| classes_ := err_classes |}
    /\ forall other, exists other',
         preprocess_features other df = Ok (other', (features, processed))
         /\ dict_get "device_id" (label_encoders other')
            = Some {| classes_ := dev_classes |}
         /\ dict_get "error_code" (label_encoders other')
            = Some {| classes_ := err_classes |}.
Proof.
  intros Hne dev_classes err_classes.
  destruct (preprocess_features_spec self df Hne)
    as [self' [sc [E [Hfit [_ [Hd [He Hlen]]]]]]].
  fold dev_classes err_classes in E, Hfit, Hd, He, Hlen.
  eexists; eexists; eexists. split; [exact E|].
  destruct (build_rows_spec df
              (map (fun v => index_of v dev_classes) (map a_device_id df))
              (map (fun v => index_of v err_classes) (map a_error_code df)))
    as [B1 [B2 _]]; try now rewrite !length_map.
  split; [now rewrite B1, map_map|]. split; [now rewrite B2, map_map|].
  split; [intros v w; apply rank_encoding_spec|].
  split; [intros v w; apply rank_encoding_spec|].
  split; [exact Hd|]. split; [exact He|].
  intros other.
  destruct (preprocess_features_spec other df Hne)
    as [other' [sc' [E' [Hfit' [_ [Hd' [He' _]]]]]]].
  fold dev_classes err_classes in E', Hfit', Hd', He'.
  exists other'. rewrite E'. rewrite Hfit in Hfit'. injection Hfit' as <-.
  auto.
Qed.

Lemma categorical_encoding_sorted_and_refit_witness :
  [alert_t2; alert_t1] <> []
  /\ exists self' features processed,
       preprocess_features AlertCorrelator_new [alert_t2; alert_t1]
       = Ok (self', (features, processed))
       /\ map device_id_encoded processed = [1; 0]
       /\ map error_code_encoded processed = [1; 0]
       /\ dict_get "device_id" (label_encoders self')
          = Some {| classes_ := ["T1"; "T2"]%string |}.
Proof.
  assert (Hne : [alert_t2; alert_t1] <> []) by discriminate.
  split; [exact Hne|].
  destruct (categorical_encoding_sorted_and_refit AlertCorrelator_new
              [alert_t2; alert_t1] Hne)
    as [self' [features [processed [E [Hd [He [_ [_ [Hg _]]]]]]]]].
  exists self', features, processed. auto.
Defined.

(** C5 as stated fails: in the batch T2, T1 the device seen first, T2, is
    encoded 1 and T1 is encoded 0; numbering by first appearance would give
    0 and 1. *)
Lemma encoding_not_first_seen :
  first_seen_encoding (map a_device_id [alert_t2; alert_t1]) = [0; 1]
  /\ exists self' features processed,
       preprocess_features AlertCorrelator_new [alert_t2; alert_t1]
       = Ok (self', (features, processed))
       /\ map device_id_encoded processed = [1; 0]
       /\ map device_id_encoded processed
          <> first_seen_encoding (map a_device_id [alert_t2; alert_t1]).
Proof.
  split; [reflexivity|].
  destruct (preprocess_features_spec AlertCorrelator_new [alert_t2; alert_t1])
    as [self' [sc [E _]]]; [discriminate|].
  eexists; eexists; eexists. split; [exact E|].
  split; [reflexivity | discriminate].
Qed.

(* ===================================================================== *)
(** * The scaler *)
(* ===================================================================== *)

Section Normalizer.
Local Open Scope R_scope.

Lemma Rleb_true (x y : R) : x <= y -> Rleb x y = true.
Proof. unfold Rleb; destruct (Rle_dec x y); tauto. Qed.

Lemma Rleb_false (x y : R) : y < x -> Rleb x y = false.
Proof. unfold Rleb; destruct (Rle_dec x y); trivial; lra. Qed.

Lemma Rleb_le (x y : R) : Rleb x y = true <-> x <= y.
Proof. unfold Rleb; destruct (Rle_dec x y); split; auto; discriminate. Qed.

Lemma Rsum_nonneg (l : list R) : Forall (fun x => 0 <= x) l -> 0 <= Rsum l.
Proof. induction 1 as [|x t Hx _ IH]; simpl; lra. Qed.

Lemma Rsum_zero_all (l : list R) :
  Forall (fun x => 0 <= x) l -> Rsum l = 0 -> Forall (fun x => x = 0) l.
Proof.
  induction 1 as [|x t Hx Ht IH]; simpl; intros Hs; constructor.
  - pose proof (Rsum_nonneg t Ht). lra.
  - apply IH. pose proof (Rsum_nonneg t Ht). lra.
Qed.

Lemma squares_nonneg (m : R) (l : list R) :
  Forall (fun x => 0 <= x) (map (fun x => Rsqr (x - m)) l).
Proof.
  apply Forall_forall. intros y Hy. apply in_map_iff in Hy.
  destruct Hy as [x [<- _]]. apply Rle_0_sqr.
Qed.

Lemma INR_length_pos {A : Type} (l : list A) : l <> [] -> 0 < INR (length l).
Proof.
  intros Hne. apply lt_0_INR. destruct l; [congruence | simpl; lia].
Qed.

Lemma Rvar_nonneg (l : list R) : 0 <= Rvar l.
Proof.
  unfold Rvar, Rmean. rewrite length_map.
  destruct l as [|x t].
  - simpl. lra.
  - pose proof (Rsum_nonneg _ (squares_nonneg (Rmean (x :: t)) (x :: t))) as Hs.
    pose proof (INR_length_pos (x :: t)) as Hn.
    apply Rmult_le_pos; [exact Hs|].
    apply Rlt_le, Rinv_0_lt_compat, Hn; discriminate.
Qed.

(** A column of variance 0 holds its mean everywhere. *)
Lemma Rvar_zero_all (l : list R) :
  l <> [] -> Rvar l = 0 -> Forall (fun x => x - Rmean l = 0) l.
Proof.
  intros Hne Hv. unfold Rvar in Hv. unfold Rmean at 1 in Hv.
  rewrite length_map in Hv.
  pose proof (INR_length_pos l Hne) as Hn.
  assert (Hs : Rsum (map (fun x => Rsqr (x - Rmean l)) l) = 0).
  { apply Rmult_integral in Hv. destruct Hv as [Hv|Hv]; trivial.
    assert (/ INR (length l) <> 0) by (apply Rinv_neq_0_compat; lra).
    contradiction. }
  pose proof (Rsum_zero_all _ (squares_nonneg (Rmean l) l) Hs) as Hall.
  rewrite Forall_forall in *. intros x Hx.
  apply Rsqr_0_uniq, Hall, in_map_iff. exists x; auto.
Qed.

Lemma Rsum_constant (c : R) (l : list R) :
  Forall (fun x => x = c) l -> Rsum l = INR (length l) * c.
Proof.
  induction 1 as [|x t Hx _ IH]; [simpl; lra|].
  cbn [Rsum fold_right length]. fold (Rsum t).
  rewrite IH, S_INR, Hx. lra.
Qed.

(** A column whose values are all equal has variance 0. *)
Lemma Rvar_constant (c : R) (l : list R) :
  l <> [] -> Forall (fun x => x = c) l -> Rmean l = c /\ Rvar l = 0.
Proof.
  intros Hne Hall.
  pose proof (INR_length_pos l Hne) as Hn.
  assert (Hm : Rmean l = c).
  { unfold Rmean. rewrite (Rsum_constant c l Hall). field. lra. }
  split; trivial.
  unfold Rvar. rewrite Hm. unfold Rmean. rewrite length_map.
  rewrite (Rsum_constant 0).
  - field. lra.
  - apply Forall_forall. intros y Hy. apply in_map_iff in Hy.
    destruct Hy as [x [<- Hx]]. rewrite Forall_forall in Hall.
    rewrite (Hall x Hx). unfold Rsqr. lra.
Qed.

(** No divisor of the scaler is 0. *)
Lemma scale_nonzero (v m n : R) :
  0 <= v ->
  handle_zeros_in_scale (sqrt v) (is_constant_feature v m n) <> 0.
Proof.
  intros Hv. unfold handle_zeros_in_scale, is_constant_feature, Rleb.
  destruct (Rle_dec _ _) as [Hle|Hgt]; [lra|].
  assert (Hpos : 0 < v).
  { destruct Hv as [Hv|Hv]; trivial. exfalso. apply Hgt. rewrite <- Hv.
    pose proof (Rle_0_sqr (n * m * float64_eps)). lra. }
  assert (0 < sqrt v) by (apply sqrt_lt_R0; lra). lra.
Qed.

(** A column of variance 0 passes the test of [_is_constant_feature]. *)
Lemma is_constant_feature_zero (m n : R) : is_constant_feature 0 m n = true.
Proof.
  unfold is_constant_feature, Rleb.
  destruct (Rle_dec _ _) as [Hle|Hgt]; trivial.
  exfalso. apply Hgt.
  pose proof (Rle_0_sqr (n * m * float64_eps)). lra.
Qed.

Lemma scale_row_nth (row mean scale : list R) (j : nat) (x m s : R) :
  nth_error row j = Some x -> nth_error mean j = Some m ->
  nth_error scale j = Some s ->
  nth_error (scale_row row mean scale) j = Some ((x - m) / s).
Proof.
  revert row mean scale; induction j as [|j IH];
    intros [|x' row] [|m' mean] [|s' scale]; simpl; try discriminate.
  - now intros [= ->] [= ->] [= ->].
  - apply IH.
Qed.

Lemma nth_error_map_seq {A : Type} (f : nat -> A) (d j : nat) :
  (j < d)%nat -> nth_error (map f (seq 0 d)) j = Some (f j).
Proof.
  intros Hj. rewrite nth_error_map, nth_error_nth' with (d := 0%nat)
    by now rewrite length_seq.
  rewrite seq_nth by trivial. reflexivity.
Qed.

(** The fitted scaler on a matrix of [d] columns. *)
Lemma scaler_zero_variance (X : list (list R)) (sc : StandardScaler)
    (d : nat) :
  X <> [] -> Forall (fun row => length row = d) X ->
  scaler_fit X = Ok sc ->
  Forall (fun s => s <> 0) (scale_ sc)
  /\ length (scale_ sc) = d
  /\ forall j, (j < d)%nat -> sqrt (Rvar (column j X)) = 0 ->
       Forall (fun row => nth_error row j = Some 0) (scaler_transform sc X).
Proof.
  intros Hne Hrows Hfit.
  assert (Hd : n_features X = d).
  { destruct X as [|row rows]; [congruence|]. now inversion Hrows. }
  destruct X as [|row0 rows0] eqn:EX; [congruence|].
  rewrite <- EX in *. assert (Hfit' := Hfit).
  rewrite EX in Hfit'. cbn [scaler_fit] in Hfit'. rewrite <- EX in Hfit'.
  injection Hfit' as <-. cbn [scale_ mean_]. rewrite Hd.
  split; [|split].
  - apply Forall_forall. intros s Hs. apply in_map_iff in Hs.
    destruct Hs as [v [<- _]]. apply scale_nonzero, Rvar_nonneg.
  - now rewrite !length_map, length_seq.
  - intros j Hj Hstd.
    assert (Hv : Rvar (column j X) = 0)
      by (apply sqrt_eq_0; [apply Rvar_nonneg | exact Hstd]).
    assert (Hcol : column j X <> []).
    { unfold column. rewrite EX. discriminate. }
    pose proof (Rvar_zero_all _ Hcol Hv) as Hall.
    unfold scaler_transform. cbn [scale_ mean_].
    apply Forall_forall. intros r Hr. apply in_map_iff in Hr.
    destruct Hr as [row [<- Hrow]].
    rewrite Forall_forall in Hrows. pose proof (Hrows row Hrow) as Hlen.
    rewrite (scale_row_nth row _ _ j (nth j row 0) (Rmean (column j X))
               (handle_zeros_in_scale (sqrt (Rvar (column j X)))
                  (is_constant_feature (Rvar (column j X))
                     (Rmean (column j X)) (INR (length X))))).
    + f_equal. rewrite Forall_forall in Hall.
      rewrite (Hall (nth j row 0)).
      * unfold Rdiv. apply Rmult_0_l.
      * unfold column. apply in_map_iff. exists row; auto.
    + apply nth_error_nth'. lia.
    + rewrite !map_map.
      now apply (nth_error_map_seq (fun x => Rmean (column x X)) d j).
    + rewrite !map_map.
      now apply (nth_error_map_seq
                   (fun x => handle_zeros_in_scale
                               (sqrt (Rvar (column x X)))
                               (is_constant_feature (Rvar (column x X))
                                  (Rmean (column x X)) (INR (length X))))
                   d j).
Qed.
End Normalizer.

(** The example of the specification: when all alerts of the batch share one
    [device_id], the encoded device column has standard deviation 0. *)
Lemma shared_device_id_zero_std (df : list Alert) (d : string) :
  df <> [] -> Forall (fun a => a_device_id a = d) df ->
  sqrt (Rvar (column 0 (raw_features df))) = 0%R.
Proof.
  intros Hne Hall.
  set (classes := py_sorted String.leb (unique String.eqb (map a_device_id df))).
  assert (Hcol : column 0 (raw_features df)
                 = map (fun a => IZR (index_of (a_device_id a) classes)) df).
  { unfold column, raw_features. cbn [fit_transform snd]. fold classes.
    rewrite map_map. cbn [feature_row nth].
    rewrite <- (map_map device_id_encoded IZR).
    destruct (build_rows_spec df
                (map (fun v => index_of v classes) (map a_device_id df))
                (map (fun v => index_of v
                        (py_sorted String.leb
                           (unique String.eqb (map a_error_code df))))
                   (map a_error_code df))) as [B1 _];
      try now rewrite !length_map.
    now rewrite B1, !map_map. }
  destruct (Rvar_constant (IZR (index_of d classes)) (column 0 (raw_features df)))
    as [_ Hv].
  - rewrite Hcol. destruct df; [congruence | discriminate].
  - rewrite Hcol. apply Forall_forall. intros x Hx. apply in_map_iff in Hx.
    destruct Hx as [a [<- Ha]]. rewrite Forall_forall in Hall.
    now rewrite (Hall a Ha).
  - rewrite Hv. exact sqrt_0.
Qed.



(* ===================================================================== *)
(** * The eps estimate: when it fails *)
(* ===================================================================== *)

Lemma kneighbors_ok (k : Z) (fit_X X : list (list R)) :
  0 < k <= Z.of_nat (length fit_X) ->
  kneighbors k fit_X X
  = Ok (map (fun x => firstn (Z.to_nat k) (np_sort (map (euclidean x) fit_X)))
          X).
Proof.
  intros [H1 H2]. unfold kneighbors.
  destruct (Z.leb_spec k 0); [lia|].
  destruct (Z.ltb_spec (Z.of_nat (length fit_X)) k); [lia|]. reflexivity.
Qed.

Lemma kneighbors_raise (k : Z) (fit_X X : list (list R)) :
  k <= 0 \/ Z.of_nat (length fit_X) < k ->
  kneighbors k fit_X X = Raise ValueError_n_neighbors.
Proof.
  intros H. unfold kneighbors.
  destruct (Z.leb_spec k 0); trivial.
  destruct (Z.ltb_spec (Z.of_nat (length fit_X)) k); trivial. lia.
Qed.

Lemma find_optimal_eps_ok (X : list (list R)) (k : Z) :
  0 < k <= Z.of_nat (length X) ->
  find_optimal_eps X k
  = Ok (percentile
          (np_sort
             (map (fun row => nth (Z.to_nat (k - 1)) row 0%R)
                (map (fun x => firstn (Z.to_nat k)
                                 (np_sort (map (euclidean x) X))) X)))
          75).
Proof.
  intros Hk. unfold find_optimal_eps. now rewrite kneighbors_ok.
Qed.

Lemma find_optimal_eps_raise (X : list (list R)) (k : Z) :
  k <= 0 \/ Z.of_nat (length X) < k ->
  find_optimal_eps X k = Raise ValueError_n_neighbors.
Proof.
  intros Hk. unfold find_optimal_eps. now rewrite kneighbors_raise.
Qed.

(** C7, as the code has it: without an explicit eps, the estimation fails
    exactly when the batch holds fewer than [min_samples] vectors (or
    [min_samples] is not positive); the failure reaches the caller of
    [cluster_alerts] and the clusterer is not run, whatever it is. A batch of
    exactly [min_samples] vectors, which is fewer than [min_samples + 1], is
    estimated without failure. *)
Theorem eps_estimation_fails_below_min_samples
    (DBSCAN_fit_predict : R -> Z -> list (list R) -> result (list Z))
    (silhouette_score : list (list R) -> list Z -> result R)
    (X : list (list R)) (min_samples : Z) :
  (Z.of_nat (length X) < min_samples \/ min_samples <= 0 ->
     find_optimal_eps X min_samples = Raise ValueError_n_neighbors
     /\ cluster_alerts DBSCAN_fit_predict silhouette_score X None min_samples
        = Raise ValueError_n_neighbors)
  /\ (0 < min_samples <= Z.of_nat (length X) ->
        exists eps, find_optimal_eps X min_samples = Ok eps).
Proof.
  split.
  - intros H.
    assert (E : find_optimal_eps X min_samples = Raise ValueError_n_neighbors)
      by (apply find_optimal_eps_raise; tauto).
    split; [exact E|]. unfold cluster_alerts. now rewrite E.
  - intros H. rewrite find_optimal_eps_ok by exact H. eexists; reflexivity.
Qed.

Lemma eps_estimation_fails_below_min_samples_witness :
  (Z.of_nat (length three_points) < 5 \/ 5 <= 0)
  /\ 0 < 5 <= Z.of_nat (length five_points)
  /\ cluster_alerts dbscan_all_noise silhouette_zero three_points None 5
     = Raise ValueError_n_neighbors
  /\ exists eps, find_optimal_eps five_points 5 = Ok eps.
Proof.
  assert (H3 : Z.of_nat (length three_points) < 5 \/ 5 <= 0)
    by (left; reflexivity).
  assert (H5 : 0 < 5 <= Z.of_nat (length five_points))
    by (split; [reflexivity | discriminate]).
  split; [exact H3|]. split; [exact H5|]. split.
  - exact (proj2 (proj1 (eps_estimation_fails_below_min_samples
                           dbscan_all_noise silhouette_zero three_points 5)
                    H3)).
  - exact (proj2 (eps_estimation_fails_below_min_samples
                    dbscan_all_noise silhouette_zero five_points 5) H5).
Defined.

(** C7 as stated fails: five vectors are fewer than [minPts + 1] = 6, and
    the estimation, run by [cluster_alerts] without an explicit eps, returns
    a value. *)
Lemma estimation_succeeds_with_min_samples_vectors :
  Z.of_nat (length five_points) < 5 + 1
  /\ (exists eps, find_optimal_eps five_points 5 = Ok eps)
  /\ find_optimal_eps five_points 5 <> Raise ValueError_n_neighbors
  /\ cluster_alerts dbscan_all_noise silhouette_zero five_points None 5
     = Ok [NOISE; NOISE; NOISE; NOISE; NOISE].
Proof.
  assert (H5 : 0 < 5 <= Z.of_nat (length five_points))
    by (split; [reflexivity | discriminate]).
  split; [reflexivity|]. split; [|split].
  - eexists. now apply find_optimal_eps_ok.
  - rewrite find_optimal_eps_ok by exact H5. discriminate.
  - unfold cluster_alerts. rewrite find_optimal_eps_ok by exact H5.
    reflexivity.
Qed.

(* ===================================================================== *)
(** * The eps estimate: which neighbour it measures *)
(* ===================================================================== *)

Section EpsEstimate.
Local Open Scope R_scope.

Lemma Rleb_total (x y : R) : Rleb x y = true \/ Rleb y x = true.
Proof. rewrite !Rleb_le. lra. Qed.

Lemma Rleb_trans (x y z : R) :
  Rleb x y = true -> Rleb y z = true -> Rleb x z = true.
Proof. rewrite !Rleb_le. lra. Qed.

Lemma Rleb_antisym (x y : R) :
  Rleb x y = true -> Rleb y x = true -> x = y.
Proof. rewrite !Rleb_le. lra. Qed.

Lemma np_sort_perm_eq (l l' : list R) :
  Permutation l l' -> np_sort l = np_sort l'.
Proof.
  apply py_sorted_perm_eq;
    [apply Rleb_total | apply Rleb_trans | apply Rleb_antisym].
Qed.

Lemma sq_dist_self (p : list R) : sq_dist p p = 0.
Proof.
  induction p as [|a p IH]; simpl; trivial.
  rewrite IH. unfold Rsqr. lra.
Qed.

Lemma euclidean_self (p : list R) : euclidean p p = 0.
Proof. unfold euclidean. rewrite sq_dist_self. exact sqrt_0. Qed.

Lemma euclidean_nonneg (p q : list R) : 0 <= euclidean p q.
Proof. apply sqrt_pos. Qed.

(** A zero in front of distances stays in front. *)
Lemma np_sort_cons_zero (l : list R) :
  Forall (fun x => 0 <= x) l -> np_sort (0 :: l) = 0 :: np_sort l.
Proof.
  intros Hall. unfold np_sort. cbn [py_sorted].
  destruct (py_sorted Rleb l) as [|y t] eqn:E; trivial.
  cbn [py_insert]. rewrite Rleb_true; trivial.
  rewrite Forall_forall in Hall. apply Hall.
  apply (py_sorted_in Rleb). rewrite E. now left.
Qed.

Lemma others_perm {A : Type} (X : list A) (i : nat) (d : A) :
  (i < length X)%nat -> Permutation X (nth i X d :: others i X).
Proof.
  revert i; induction X as [|x t IH]; intros i Hi; simpl in Hi; [lia|].
  destruct i as [|i].
  - unfold others. simpl. apply Permutation_refl.
  - unfold others in *. cbn [nth firstn skipn app].
    eapply perm_trans; [apply perm_skip, (IH i); lia | apply perm_swap].
Qed.

(** The sorted distances from a row of the batch to the whole batch are a
    0, its distance to itself, followed by the sorted distances to the
    other rows. *)
Lemma sorted_distances_split (X : list (list R)) (i : nat) :
  (i < length X)%nat ->
  np_sort (map (euclidean (nth i X [])) X)
  = 0 :: np_sort (map (euclidean (nth i X [])) (others i X)).
Proof.
  intros Hi.
  rewrite (np_sort_perm_eq _
             (map (euclidean (nth i X [])) (nth i X [] :: others i X))).
  - cbn [map]. rewrite euclidean_self. apply np_sort_cons_zero.
    apply Forall_forall. intros y Hy. apply in_map_iff in Hy.
    destruct Hy as [q [<- _]]. apply euclidean_nonneg.
  - apply Permutation_map, others_perm, Hi.
Qed.

Lemma nth_firstn_lt {A : Type} (l : list A) (i k : nat) (d : A) :
  (i < k)%nat -> nth i (firstn k l) d = nth i l d.
Proof.
  revert i k; induction l as [|x t IH]; intros i k Hik.
  - rewrite firstn_nil. reflexivity.
  - destruct k as [|k]; [lia|]. destruct i as [|i]; simpl; trivial.
    apply IH. lia.
Qed.

Lemma map_nth_seq {A B : Type} (g : A -> B) (X : list A) (d : A) :
  map g X = map (fun i => g (nth i X d)) (seq 0 (length X)).
Proof.
  induction X as [|x t IH]; simpl; trivial.
  f_equal. rewrite <- seq_shift, map_map. exact IH.
Qed.

(** What [find_optimal_eps] collects for row [i]: entry [min_samples - 1]
    of the list made of 0 and the sorted distances to the other rows. *)
Lemma find_optimal_eps_kth (X : list (list R)) (k : Z) :
  (0 < k <= Z.of_nat (length X))%Z ->
  find_optimal_eps X k
  = Ok (percentile
          (np_sort
             (map (fun i =>
                     nth (Z.to_nat (k - 1))
                       (0 :: np_sort (map (euclidean (nth i X []))
                                        (others i X))) 0)
                (seq 0 (length X))))
          75).
Proof.
  intros Hk. rewrite find_optimal_eps_ok by exact Hk.
  do 3 f_equal. rewrite map_map.
  rewrite (map_nth_seq _ X []).
  apply map_ext_in. intros i Hi. apply in_seq in Hi.
  rewrite nth_firstn_lt by lia.
  rewrite sorted_distances_split by lia. reflexivity.
Qed.

Lemma nth_all_zero (l : list R) (i : nat) :
  Forall (fun x => x = 0) l -> nth i l 0 = 0.
Proof.
  intros Hall. destruct (nth_in_or_default i l 0) as [Hin|E]; trivial.
  rewrite Forall_forall in Hall. now apply Hall.
Qed.

Lemma percentile_zeros (a : list R) (q : Z) :
  Forall (fun x => x = 0) a -> percentile a q = 0.
Proof.
  intros Hall. unfold percentile.
  assert (Hs : Forall (fun x => x = 0) (np_sort a)).
  { rewrite Forall_forall in *. intros x Hx. apply Hall.
    now apply (py_sorted_in Rleb). }
  rewrite !(nth_all_zero _ _ Hs). ring.
Qed.
End EpsEstimate.

(** With [min_samples >= 2] the code's estimate is the estimate of section
    4.3 for [min_samples - 1]. *)
Lemma find_optimal_eps_previous_rank (X : list (list R)) (k : Z) :
  2 <= k <= Z.of_nat (length X) ->
  find_optimal_eps X k = Ok (spec_estimated_eps X (k - 1)).
Proof.
  intros Hk. rewrite find_optimal_eps_kth by lia.
  unfold spec_estimated_eps. do 3 f_equal.
  apply map_ext. intros i. unfold kth_neighbor_distance.
  destruct (Z.to_nat (k - 1)) as [|m] eqn:Em; [lia|].
  replace (S m - 1)%nat with m by lia. reflexivity.
Qed.

(** ** The estimate on three points of a line *)

Section ThreePoints.
Local Open Scope R_scope.

Lemma euclidean_1d (a b : R) : euclidean [a] [b] = Rabs (a - b).
Proof.
  unfold euclidean. cbn [sq_dist]. rewrite Rplus_0_r. apply sqrt_Rsqr_abs.
Qed.

Ltac eval_Rabs :=
  repeat match goal with
  | |- context [Rabs ?x] =>
      first [rewrite (Rabs_pos_eq x) by lra | rewrite (Rabs_left1 x) by lra]
  end.

Ltac eval_np_sort :=
  unfold np_sort;
  repeat (cbn [py_sorted py_insert];
          first [rewrite Rleb_true by lra | rewrite Rleb_false by lra]);
  cbn [py_sorted py_insert].

Lemma percentile_75_of_three (a b c : R) :
  a <= b -> b <= c -> percentile [a; b; c] 75 = b + (c - b) / 2.
Proof.
  intros Hab Hbc. unfold percentile.
  replace (np_sort [a; b; c]) with [a; b; c] by (eval_np_sort; reflexivity).
  cbn [length].
  change ((Z.of_nat 3 - 1) * 75)%Z with 150%Z.
  change (150 / 100)%Z with 1%Z. change (150 mod 100)%Z with 50%Z.
  change (Z.min (1 + 1) (Z.of_nat 3 - 1)) with 2%Z.
  change (Z.to_nat 1) with 1%nat. change (Z.to_nat 2) with 2%nat.
  cbn [nth]. lra.
Qed.

(** Distances to the nearest other point: 1, 1, 2. *)
Lemma three_points_nearest :
  map (kth_neighbor_distance 1 three_points) (seq 0 3) = [1; 1; 2].
Proof.
  cbn [map seq]. unfold kth_neighbor_distance, others, three_points.
  cbn [nth firstn skipn app map Nat.sub]. rewrite !euclidean_1d.
  eval_Rabs. eval_np_sort. cbn [nth]. repeat f_equal; lra.
Qed.

(** Distances to the second nearest other point: 3, 2, 3. *)
Lemma three_points_second :
  map (kth_neighbor_distance 2 three_points) (seq 0 3) = [3; 2; 3].
Proof.
  cbn [map seq]. unfold kth_neighbor_distance, others, three_points.
  cbn [nth firstn skipn app map Nat.sub]. rewrite !euclidean_1d.
  eval_Rabs. eval_np_sort. cbn [nth]. repeat f_equal; lra.
Qed.

Lemma spec_estimated_eps_three_points_1 :
  spec_estimated_eps three_points 1 = 3 / 2.
Proof.
  unfold spec_estimated_eps. change (Z.to_nat 1) with 1%nat.
  change (length three_points) with 3%nat.
  rewrite three_points_nearest.
  replace (np_sort [1; 1; 2]) with [1; 1; 2] by (eval_np_sort; reflexivity).
  rewrite percentile_75_of_three by lra. lra.
Qed.

Lemma spec_estimated_eps_three_points_2 :
  spec_estimated_eps three_points 2 = 3.
Proof.
  unfold spec_estimated_eps. change (Z.to_nat 2) with 2%nat.
  change (length three_points) with 3%nat.
  rewrite three_points_second.
  replace (np_sort [3; 2; 3]) with [2; 3; 3] by (eval_np_sort; reflexivity).
  rewrite percentile_75_of_three by lra. lra.
Qed.
End ThreePoints.

(** C2, as the code has it: when no explicit eps is given and
    [2 <= min_samples <= n], the estimate is the one of section 4.3 taken
    with [min_samples - 1] in place of [minPts]: each vector is its own first
    neighbour at distance 0, so the distance collected for it is the one to
    its [(min_samples - 1)]-th nearest other vector; the collected distances
    are sorted ascending and their 75th percentile (linear interpolation) is
    returned. With [min_samples = 1] every collected distance is 0 and so is
    the estimate. *)
Theorem estimated_eps_counts_the_vector_itself (X : list (list R))
    (min_samples : Z) :
  0 < min_samples <= Z.of_nat (length X) ->
  (2 <= min_samples ->
     find_optimal_eps X min_samples
     = Ok (spec_estimated_eps X (min_samples - 1)))
  /\ (min_samples = 1 -> find_optimal_eps X min_samples = Ok 0%R).
Proof.
  intros Hk. split.
  - intros H2. apply find_optimal_eps_previous_rank. lia.
  - intros ->. rewrite find_optimal_eps_kth by exact Hk.
    f_equal. apply percentile_zeros.
    apply Forall_forall. intros x Hx.
    apply (proj1 (py_sorted_in Rleb _ _)) in Hx. apply in_map_iff in Hx.
    destruct Hx as [i [<- _]]. reflexivity.
Qed.

Lemma estimated_eps_counts_the_vector_itself_witness :
  0 < 5 <= Z.of_nat (length five_points)
  /\ 2 <= 5
  /\ find_optimal_eps five_points 5 = Ok (spec_estimated_eps five_points (5 - 1)).
Proof.
  assert (H5 : 0 < 5 <= Z.of_nat (length five_points))
    by (split; [reflexivity | discriminate]).
  assert (H2 : 2 <= 5) by discriminate.
  split; [exact H5|]. split; [exact H2|].
  exact (proj1 (estimated_eps_counts_the_vector_itself five_points 5 H5) H2).
Defined.

(** C2 as stated fails: for the points 0, 1, 3 and [minPts] = 2 the
    distances to the second nearest other point are 3, 2, 3, whose 75th
    percentile is 3; the code returns 3/2, the 75th percentile of the
    distances 1, 1, 2 to the nearest other point. *)
Lemma estimated_eps_is_not_the_minPts_th_neighbour :
  spec_estimated_eps three_points 2 = 3%R
  /\ find_optimal_eps three_points 2 = Ok (3 / 2)%R
  /\ find_optimal_eps three_points 2 <> Ok (spec_estimated_eps three_points 2).
Proof.
  assert (E : find_optimal_eps three_points 2 = Ok (3 / 2)%R).
  { rewrite find_optimal_eps_previous_rank
      by (split; [discriminate | discriminate]).
    change (2 - 1) with 1. now rewrite spec_estimated_eps_three_points_1. }
  split; [exact spec_estimated_eps_three_points_2|]. split; [exact E|].
  rewrite E, spec_estimated_eps_three_points_2.
  intros H. injection H as H. lra.
Qed.

(* ===================================================================== *)
(** * The entry point [correlate_alerts] *)
(* ===================================================================== *)

Lemma create_incidents_sorted (df : list Row) (labels : list Z)
    (incidents : list Incident) :
  create_incidents df labels = Ok incidents ->
  StronglySorted risk_ge incidents.
Proof.
  unfold create_incidents.
  destruct (created_incidents df labels) as [created|e]; simpl;
    [|discriminate].
  intros [= <-]. apply sort_desc_by_sorted.
Qed.

Lemma created_incidents_length_mismatch (df : list Row) (labels : list Z) :
  length labels <> length df ->
  create_incidents df labels = Raise ValueError_length_mismatch.
Proof.
  intros Hne. unfold create_incidents, created_incidents.
  apply Nat.eqb_neq in Hne. now rewrite Hne.
Qed.

Lemma create_incidents_members (df : list Row) (labels : list Z)
    (incidents : list Incident) :
  create_incidents df labels = Ok incidents ->
  Permutation (concat (map alerts incidents)) df.
Proof.
  intros Ec.
  destruct (Nat.eq_dec (length labels) (length df)) as [Hlen|Hlen].
  - destruct (created_incidents_spec df labels Hlen)
      as [clusters [noise [E [Hc [_ [Hn _]]]]]].
    unfold create_incidents in Ec. rewrite E in Ec. cbn [bind] in Ec.
    injection Ec as <-.
    eapply perm_trans;
      [| exact (created_incidents_members df labels clusters noise Hlen Hc Hn)].
    rewrite <- !flat_map_concat_map.
    apply Permutation_flat_map, sort_desc_by_perm.
  - rewrite created_incidents_length_mismatch in Ec by trivial.
    discriminate.
Qed.

Lemma preprocess_features_empty (self : AlertCorrelator) :
  preprocess_features self [] = Raise ValueError_no_samples.
Proof. reflexivity. Qed.

Section EntryPoint.
Variable DBSCAN_fit_predict : R -> Z -> list (list R) -> result (list Z).
Variable silhouette_score : list (list R) -> list Z -> result R.

(** A batch of one to four alerts stops in the eps estimation. *)
Lemma correlate_alerts_small_batch (self : AlertCorrelator)
    (df : list Alert) (output_path : option string) :
  df <> [] -> (length df < 5)%nat ->
  correlate_alerts DBSCAN_fit_predict silhouette_score self (Some df)
    output_path
  = Raise ValueError_n_neighbors.
Proof.
  intros Hne Hlen. unfold correlate_alerts.
  destruct (preprocess_features_spec self df Hne)
    as [self' [sc [E [_ [_ [_ [_ Hl]]]]]]].
  rewrite E. cbn [bind]. unfold cluster_alerts.
  rewrite find_optimal_eps_raise; [reflexivity|].
  right. unfold scaler_transform. rewrite !length_map, Hl. lia.
Qed.

Lemma cluster_alerts_explicit_eps (X : list (list R)) (eps : R) (k : Z) :
  find_optimal_eps X k = Ok eps ->
  cluster_alerts DBSCAN_fit_predict silhouette_score X (Some eps) k
  = cluster_alerts DBSCAN_fit_predict silhouette_score X None k.
Proof. intros E. unfold cluster_alerts. now rewrite E. Qed.
End EntryPoint.

(** C8, as the code has it: the entry point [correlate_alerts] takes the
    path of the alert file (here what loading it gave) and an optional output
    path, and neither [min_samples] nor eps. When loading fails it returns
    [None]. Otherwise it clusters with [min_samples = 5] and no explicit eps,
    so that a batch of fewer than five alerts always ends in an exception,
    and what it returns is the incident list of [create_incidents], ranked by
    [total_revenue_risk] descending, whose members are the processed rows of
    the batch. The optional eps that bypasses the estimation is a parameter
    of [cluster_alerts] only: given the estimate itself it changes nothing. *)
Theorem correlate_alerts_fixes_clustering_parameters
    (DBSCAN_fit_predict : R -> Z -> list (list R) -> result (list Z))
    (silhouette_score : list (list R) -> list Z -> result R)
    (self : AlertCorrelator) (load : option (list Alert))
    (output_path : option string) :
  (load = None ->
     correlate_alerts DBSCAN_fit_predict silhouette_score self load output_path
     = Ok (self, None))
  /\ (forall df, load = Some df -> (length df < 5)%nat ->
        exists e,
          correlate_alerts DBSCAN_fit_predict silhouette_score self load
            output_path = Raise e)
  /\ (forall df self' returned,
        load = Some df ->
        correlate_alerts DBSCAN_fit_predict silhouette_score self load
          output_path = Ok (self', returned) ->
        exists features processed cluster_labels incidents,
          returned = Some incidents
          /\ preprocess_features self df = Ok (self', (features, processed))
          /\ cluster_alerts DBSCAN_fit_predict silhouette_score features
               None 5 = Ok cluster_labels
          /\ create_incidents processed cluster_labels = Ok incidents
          /\ StronglySorted risk_ge incidents
          /\ Permutation (concat (map alerts incidents)) processed)
  /\ (forall X eps k,
        find_optimal_eps X k = Ok eps ->
        cluster_alerts DBSCAN_fit_predict silhouette_score X (Some eps) k
        = cluster_alerts DBSCAN_fit_predict silhouette_score X None k).
Proof.
  split; [intros ->; reflexivity|]. split; [|split].
  - intros df -> Hlen. destruct df as [|a t] eqn:Edf.
    + exists ValueError_no_samples. reflexivity.
    + exists ValueError_n_neighbors. rewrite <- Edf in *.
      apply correlate_alerts_small_batch; trivial. now rewrite Edf.
  - intros df self' returned -> E. unfold correlate_alerts in E.
    destruct (preprocess_features self df)
      as [[self1 [features processed]]|e] eqn:Ep; [|discriminate].
    cbn [bind] in E.
    destruct (cluster_alerts DBSCAN_fit_predict silhouette_score features
                None 5) as [labels|e] eqn:El; [|discriminate].
    cbn [bind] in E.
    destruct (create_incidents processed labels) as [incidents|e] eqn:Ec;
      [|discriminate].
    cbn [bind] in E. injection E as <- <-.
    exists features, processed, labels, incidents.
    repeat split; trivial.
    + now apply (create_incidents_sorted processed labels).
    + now apply (create_incidents_members processed labels).
  - intros X eps k. apply cluster_alerts_explicit_eps.
Qed.

Lemma correlate_alerts_fixes_clustering_parameters_witness :
  Some [alert_t2] = Some [alert_t2]
  /\ (length [alert_t2] < 5)%nat
  /\ exists e,
       correlate_alerts dbscan_all_noise silhouette_zero AlertCorrelator_new
         (Some [alert_t2]) None = Raise e.
Proof.
  assert (Hlen : (length [alert_t2] < 5)%nat) by (repeat constructor).
  split; [reflexivity|]. split; [exact Hlen|].
  exact (proj1 (proj2 (correlate_alerts_fixes_clustering_parameters
                         dbscan_all_noise silhouette_zero AlertCorrelator_new
                         (Some [alert_t2]) None))
           [alert_t2] eq_refl Hlen).
Defined.

(** C8 as stated fails: on a batch of one alert the entry point, with or
    without an output path, ends in the exception of the eps estimation; it
    has no argument to pass an eps or another [minPts]. The clustering step
    itself, given eps 1 and [min_samples] 1 on the features of that batch,
    returns labels. *)
Lemma entry_point_has_no_eps_override :
  correlate_alerts dbscan_all_noise silhouette_zero AlertCorrelator_new
    (Some [alert_t2]) None = Raise ValueError_n_neighbors
  /\ correlate_alerts dbscan_all_noise silhouette_zero AlertCorrelator_new
       (Some [alert_t2]) (Some "incidents.json"%string)
     = Raise ValueError_n_neighbors
  /\ exists self' features processed,
       preprocess_features AlertCorrelator_new [alert_t2]
       = Ok (self', (features, processed))
       /\ cluster_alerts dbscan_all_noise silhouette_zero features
            (Some 1%R) 1 = Ok [NOISE].
Proof.
  assert (Hne : [alert_t2] <> []) by discriminate.
  assert (Hlen : (length [alert_t2] < 5)%nat) by (repeat constructor).
  split; [now apply correlate_alerts_small_batch|].
  split; [now apply correlate_alerts_small_batch|].
  destruct (preprocess_features_spec AlertCorrelator_new [alert_t2] Hne)
    as [self' [sc [E _]]].
  eexists; eexists; eexists. split; [exact E|]. reflexivity.
Qed.

(* ===================================================================== *)
(** * Further properties of [create_incidents] *)
(* ===================================================================== *)

Lemma cluster_incident_nonempty (prev : list Incident) (rows : list Row)
    (inc : Incident) :
  cluster_incident prev rows = Ok inc -> rows <> [].
Proof. intros E ->. discriminate E. Qed.

Lemma cluster_loop_origin (dfc : list (Row * Z)) (ids : list Z) :
  forall acc res,
    cluster_loop dfc ids acc = Ok res ->
    Forall made_by_loops acc -> Forall made_by_loops res.
Proof.
  induction ids as [|c rest IH]; intros acc res E Hacc; simpl in E.
  - now injection E as <-.
  - destruct (c =? NOISE); [now apply (IH acc)|].
    destruct (cluster_incident acc (rows_with_label dfc c)) as [inc|e] eqn:Ei;
      [|discriminate].
    cbn [bind] in E. apply (IH _ _ E).
    apply Forall_app; split; trivial. constructor; [|constructor].
    left. exists acc, (rows_with_label dfc c). split; trivial.
    now apply (cluster_incident_nonempty acc _ inc).
Qed.

Lemma noise_loop_origin (rows : list Row) :
  forall acc, Forall made_by_loops acc ->
    Forall made_by_loops (noise_loop rows acc).
Proof.
  induction rows as [|a rest IH]; intros acc Hacc; simpl; trivial.
  apply IH. apply Forall_app; split; trivial.
  constructor; [|constructor]. right. now exists acc, a.
Qed.

(** Every returned incident was built by one of the two loops. *)
Lemma create_incidents_origin (df : list Row) (labels : list Z)
    (incidents : list Incident) :
  create_incidents df labels = Ok incidents -> Forall made_by_loops incidents.
Proof.
  unfold create_incidents, created_incidents.
  destruct (negb (length labels =? length df)%nat); [discriminate|].
  destruct (cluster_loop (combine df labels)
              (py_sorted Z.leb (unique Z.eqb labels)) []) as [cl|e] eqn:Ec;
    [|discriminate].
  cbn [bind]. intros [= <-].
  eapply Permutation_Forall; [apply Permutation_sym, sort_desc_by_perm|].
  apply noise_loop_origin. now apply (cluster_loop_origin _ _ _ _ Ec).
Qed.

Lemma create_incidents_total (df : list Row) (labels : list Z) :
  length labels = length df ->
  exists incidents, create_incidents df labels = Ok incidents.
Proof.
  intros Hlen.
  destruct (created_incidents_spec df labels Hlen)
    as [clusters [noise [E _]]].
  eexists. unfold create_incidents. rewrite E. reflexivity.
Qed.

Lemma filter_length_perm {A : Type} (f : A -> bool) (l l' : list A) :
  Permutation l l' -> length (filter f l) = length (filter f l').
Proof.
  induction 1 as [|x l l' _ IH|x y l|l l' l'' _ IH1 _ IH2]; simpl; trivial.
  - destruct (f x); simpl; congruence.
  - destruct (f x), (f y); reflexivity.
  - congruence.
Qed.

Lemma rows_with_label_length (df : list Row) (labels : list Z) (c : Z) :
  length labels = length df ->
  length (rows_with_label (combine df labels) c) = count Z.eqb c labels.
Proof.
  unfold rows_with_label, count. rewrite length_map.
  revert labels; induction df as [|r t IH]; intros [|l ls]; simpl;
    try discriminate; trivial.
  intros H. rewrite (Z.eqb_sym l c).
  destruct (c =? l); simpl; rewrite IH by lia; reflexivity.
Qed.

(** X2: with one label per row, the number of incidents is the number of
    distinct labels other than the noise label plus the number of rows
    labelled noise. *)
Theorem incident_count (df : list Row) (labels : list Z) :
  length labels = length df ->
  exists incidents,
    create_incidents df labels = Ok incidents
    /\ length incidents
       = Nat.add
           (length (filter (fun c => negb (c =? NOISE)) (unique Z.eqb labels)))
           (count Z.eqb NOISE labels).
Proof.
  intros Hlen.
  destruct (created_incidents_spec df labels Hlen)
    as [clusters [noise [E [Hc [_ [Hn _]]]]]].
  eexists. split; [unfold create_incidents; rewrite E; reflexivity|].
  rewrite (Permutation_length (sort_desc_by_perm total_revenue_risk _)).
  rewrite length_app. f_equal.
  - apply (f_equal (@length _)) in Hc. rewrite !length_map in Hc.
    rewrite Hc. apply filter_length_perm, py_sorted_perm.
  - rewrite <- (Forall2_length Hn). now apply rows_with_label_length.
Qed.

Lemma incident_count_witness :
  length [NOISE; 0; NOISE] = length [row_big; row_small; row_mid]
  /\ exists incidents,
       create_incidents [row_big; row_small; row_mid] [NOISE; 0; NOISE]
       = Ok incidents
       /\ length incidents = 3%nat.
Proof.
  split; [reflexivity|].
  destruct (incident_count [row_big; row_small; row_mid] [NOISE; 0; NOISE]
              eq_refl) as [incidents [E Hl]].
  exists incidents. split; [exact E | exact Hl].
Defined.

Lemma cluster_incident_fields (prev : list Incident) (rows : list Row)
    (inc : Incident) :
  cluster_incident prev rows = Ok inc ->
  alerts inc = rows
  /\ alert_count inc = Z.of_nat (length rows)
  /\ total_customers inc = series_sum (map customer_impact rows)
  /\ total_revenue_risk inc = series_sum (map revenue_risk rows)
  /\ priority inc = priority_of_risk (total_revenue_risk inc)
  /\ affected_devices inc
     = py_sorted String.leb (unique String.eqb (map device_id rows))
  /\ start_time inc = series_min (map timestamp rows)
  /\ end_time inc = series_max (map timestamp rows).
Proof.
  unfold cluster_incident.
  destruct (mode (map error_code rows)) as [|m ms]; [discriminate|].
  cbn [iloc0 bind]. intros [= <-]. cbn. repeat split.
Qed.

(** ** Sums *)

Lemma fold_left_add_acc (l : list Z) (a : Z) :
  fold_left Z.add l a = a + sumZ l.
Proof.
  unfold sumZ. revert a; induction l as [|x t IH]; intros a; simpl; [lia|].
  rewrite IH, (IH x). lia.
Qed.

Lemma sumZ_cons (x : Z) (l : list Z) : sumZ (x :: l) = x + sumZ l.
Proof. unfold sumZ at 1. simpl. apply fold_left_add_acc. Qed.

Lemma sumZ_app (l l' : list Z) : sumZ (l ++ l') = sumZ l + sumZ l'.
Proof.
  induction l as [|x t IH]; [reflexivity|].
  cbn [app]. rewrite !sumZ_cons, IH. lia.
Qed.

Lemma sumZ_perm (l l' : list Z) : Permutation l l' -> sumZ l = sumZ l'.
Proof.
  induction 1; rewrite ?sumZ_cons; lia.
Qed.

Lemma sumZ_nonneg (l : list Z) : Forall (fun x => 0 <= x) l -> 0 <= sumZ l.
Proof.
  induction 1 as [|x t Hx _ IH]; [reflexivity|]. rewrite sumZ_cons. lia.
Qed.

Lemma wrap_int64_small (z : Z) : 0 <= z < 2 ^ 63 -> wrap_int64 z = z.
Proof.
  intros H. unfold wrap_int64. rewrite Z.mod_small; lia.
Qed.

Lemma member_sum_bounds (f : Row -> Z) (df : list Row)
    (incidents : list Incident) (inc : Incident) :
  Permutation (concat (map alerts incidents)) df ->
  Forall (fun r => 0 <= f r) df ->
  In inc incidents ->
  0 <= sumZ (map f (alerts inc)) <= sumZ (map f df).
Proof.
  intros Hp Hnn Hin.
  rewrite <- (sumZ_perm _ _ (Permutation_map f Hp)).
  assert (Hall : Forall (fun r => 0 <= f r) (concat (map alerts incidents))).
  { eapply Permutation_Forall; [apply Permutation_sym, Hp | exact Hnn]. }
  clear Hp Hnn. induction incidents as [|i t IH]; [inversion Hin|].
  cbn [map concat] in *. apply Forall_app in Hall. destruct Hall as [Hi Ht].
  rewrite map_app, sumZ_app.
  assert (0 <= sumZ (map f (alerts i))).
  { apply sumZ_nonneg, Forall_forall. intros x Hx. apply in_map_iff in Hx.
    destruct Hx as [r [<- Hr]]. rewrite Forall_forall in Hi. auto. }
  assert (0 <= sumZ (map f (concat (map alerts t)))).
  { apply sumZ_nonneg, Forall_forall. intros x Hx. apply in_map_iff in Hx.
    destruct Hx as [r [<- Hr]]. rewrite Forall_forall in Ht. auto. }
  destruct Hin as [->|Hin]; [lia|]. specialize (IH Hin Ht). lia.
Qed.

(** X3: when the impacts and risks of the batch are not negative and their
    sums over the batch stay below 2^63, the totals of every incident are the
    exact integer sums over its members: the int64 sum of the column does
    not wrap. *)
Theorem incident_totals_are_exact_sums (df : list Row) (labels : list Z) :
  length labels = length df ->
  Forall (fun r => 0 <= customer_impact r /\ 0 <= revenue_risk r) df ->
  sumZ (map customer_impact df) < 2 ^ 63 ->
  sumZ (map revenue_risk df) < 2 ^ 63 ->
  exists incidents,
    create_incidents df labels = Ok incidents
    /\ Forall (fun inc =>
                 total_customers inc
                 = sumZ (map customer_impact (alerts inc))
                 /\ total_revenue_risk inc
                    = sumZ (map revenue_risk (alerts inc)))
         incidents.
Proof.
  intros Hlen Hnn Hc Hr.
  destruct (create_incidents_total df labels Hlen) as [incidents E].
  exists incidents. split; [exact E|].
  pose proof (create_incidents_origin _ _ _ E) as Horig.
  pose proof (create_incidents_members _ _ _ E) as Hp.
  assert (Hnc : Forall (fun r => 0 <= customer_impact r) df)
    by (eapply Forall_impl; [|exact Hnn]; intros r [H _]; exact H).
  assert (Hnr : Forall (fun r => 0 <= revenue_risk r) df)
    by (eapply Forall_impl; [|exact Hnn]; intros r [_ H]; exact H).
  apply Forall_forall. intros inc Hin.
  pose proof (member_sum_bounds customer_impact df incidents inc Hp Hnc Hin).
  pose proof (member_sum_bounds revenue_risk df incidents inc Hp Hnr Hin).
  rewrite Forall_forall in Horig.
  destruct (Horig inc Hin) as [[prev [rows [_ Ei]]]|[prev [a ->]]].
  - destruct (cluster_incident_fields _ _ _ Ei) as [Ha [_ [Htc [Htr _]]]].
    rewrite Ha in *. rewrite Htc, Htr. unfold series_sum.
    rewrite !wrap_int64_small by lia. now split.
  - cbn [noise_incident total_customers total_revenue_risk alerts map].
    unfold sumZ. cbn [fold_left]. lia.
Qed.

Lemma incident_totals_are_exact_sums_witness :
  length [0; 0; NOISE] = length [row_small; row_mid; row_big]
  /\ exists incidents,
       create_incidents [row_small; row_mid; row_big] [0; 0; NOISE]
       = Ok incidents
       /\ Forall (fun inc =>
                    total_customers inc
                    = sumZ (map customer_impact (alerts inc))
                    /\ total_revenue_risk inc
                       = sumZ (map revenue_risk (alerts inc)))
            incidents.
Proof.
  split; [reflexivity|].
  apply (incident_totals_are_exact_sums
           [row_small; row_mid; row_big] [0; 0; NOISE]).
  - reflexivity.
  - repeat constructor; discriminate.
  - reflexivity.
  - reflexivity.
Defined.

(** X4: the [affected_devices] of every incident are the device ids of its
    members, each once, in ascending order of strings. *)
Theorem affected_devices_sorted_distinct (df : list Row) (labels : list Z) :
  length labels = length df ->
  exists incidents,
    create_incidents df labels = Ok incidents
    /\ Forall (fun inc =>
                 StronglySorted (fun a b => String.leb a b = true)
                   (affected_devices inc)
                 /\ NoDup (affected_devices inc)
                 /\ forall d, In d (affected_devices inc)
                              <-> In d (map device_id (alerts inc)))
         incidents.
Proof.
  intros Hlen.
  destruct (create_incidents_total df labels Hlen) as [incidents E].
  exists incidents. split; [exact E|].
  eapply Forall_impl; [|exact (create_incidents_origin _ _ _ E)].
  intros inc [[prev [rows [_ Ei]]]|[prev [a ->]]].
  - destruct (cluster_incident_fields _ _ _ Ei)
      as [Ha [_ [_ [_ [_ [Hd _]]]]]].
    rewrite Ha, Hd.
    destruct (classes_sorted_distinct (map device_id rows)) as [Hs Hnd].
    split; [exact Hs|]. split; [exact Hnd|].
    intros d. apply in_classes.
  - cbn. split; [repeat constructor|]. split; [|tauto].
    repeat constructor. simpl; tauto.
Qed.

Lemma affected_devices_sorted_distinct_witness :
  length [0; 0; 0] = length [row_small; row_mid; row_big]
  /\ exists incidents,
       create_incidents [row_small; row_mid; row_big] [0; 0; 0] = Ok incidents
       /\ Forall (fun inc =>
                    StronglySorted (fun a b => String.leb a b = true)
                      (affected_devices inc)
                    /\ NoDup (affected_devices inc)
                    /\ forall d, In d (affected_devices inc)
                                 <-> In d (map device_id (alerts inc)))
            incidents.
Proof.
  split; [reflexivity|].
  apply (affected_devices_sorted_distinct
           [row_small; row_mid; row_big] [0; 0; 0]).
  reflexivity.
Defined.

(** ** Earliest and latest timestamp *)

Lemma fold_left_min_spec (t : list Z) (x : Z) :
  In (fold_left Z.min t x) (x :: t)
  /\ Forall (fun y => fold_left Z.min t x <= y) (x :: t).
Proof.
  revert x; induction t as [|y t IH]; intros x; simpl.
  - split; [now left | repeat constructor; lia].
  - destruct (IH (Z.min x y)) as [Hin Hall].
    inversion Hall as [|? ? Hhd Htl]; subst. split.
    + destruct Hin as [E|Hin]; [|now right; right].
      rewrite <- E. destruct (Z.min_spec x y) as [[_ ->]|[_ ->]]; auto.
    + constructor; [lia|]. constructor; [lia | exact Htl].
Qed.

Lemma fold_left_max_spec (t : list Z) (x : Z) :
  In (fold_left Z.max t x) (x :: t)
  /\ Forall (fun y => y <= fold_left Z.max t x) (x :: t).
Proof.
  revert x; induction t as [|y t IH]; intros x; simpl.
  - split; [now left | repeat constructor; lia].
  - destruct (IH (Z.max x y)) as [Hin Hall].
    inversion Hall as [|? ? Hhd Htl]; subst. split.
    + destruct Hin as [E|Hin]; [|now right; right].
      rewrite <- E. destruct (Z.max_spec x y) as [[_ ->]|[_ ->]]; auto.
    + constructor; [lia|]. constructor; [lia | exact Htl].
Qed.

(** X5: [start_time] and [end_time] of every incident are timestamps of
    members (never [NaT]), and every member's timestamp lies between them. *)
Theorem incident_time_span (df : list Row) (labels : list Z) :
  length labels = length df ->
  exists incidents,
    create_incidents df labels = Ok incidents
    /\ Forall (fun inc => exists lo hi,
                 start_time inc = Some lo /\ end_time inc = Some hi
                 /\ In lo (map timestamp (alerts inc))
                 /\ In hi (map timestamp (alerts inc))
                 /\ Forall (fun r => lo <= timestamp r <= hi) (alerts inc))
         incidents.
Proof.
  intros Hlen.
  destruct (create_incidents_total df labels Hlen) as [incidents E].
  exists incidents. split; [exact E|].
  eapply Forall_impl; [|exact (create_incidents_origin _ _ _ E)].
  intros inc [[prev [rows [Hne Ei]]]|[prev [a ->]]].
  - destruct (cluster_incident_fields _ _ _ Ei)
      as [Ha [_ [_ [_ [_ [_ [Hs He]]]]]]].
    rewrite Ha, Hs, He. destruct rows as [|r rows]; [congruence|].
    cbn [map series_min series_max].
    destruct (fold_left_min_spec (map timestamp rows) (timestamp r))
      as [Hmin Hle].
    destruct (fold_left_max_spec (map timestamp rows) (timestamp r))
      as [Hmax Hge].
    eexists; eexists. repeat split; trivial.
    change (timestamp r :: map timestamp rows)
      with (map timestamp (r :: rows)) in Hle, Hge.
    rewrite Forall_map in Hle, Hge.
    rewrite Forall_forall in *. intros x Hx.
    split; [now apply Hle | now apply Hge].
  - cbn. exists (timestamp a), (timestamp a). repeat split; auto.
    repeat constructor; lia.
Qed.

Lemma incident_time_span_witness :
  length [0; 0; NOISE] = length [row_mid; row_small; row_big]
  /\ exists incidents,
       create_incidents [row_mid; row_small; row_big] [0; 0; NOISE]
       = Ok incidents
       /\ Forall (fun inc => exists lo hi,
                    start_time inc = Some lo /\ end_time inc = Some hi
                    /\ In lo (map timestamp (alerts inc))
                    /\ In hi (map timestamp (alerts inc))
                    /\ Forall (fun r => lo <= timestamp r <= hi) (alerts inc))
            incidents.
Proof.
  split; [reflexivity|].
  apply (incident_time_span [row_mid; row_small; row_big] [0; 0; NOISE]).
  reflexivity.
Defined.

Lemma incident_priority_thresholds_aux (df : list Row) (labels : list Z) :
  length labels = length df ->
  exists incidents,
    create_incidents df labels = Ok incidents
    /\ Forall (fun inc =>
                 priority inc = High -> 500000 < total_revenue_risk inc)
         incidents.
Proof.
  intros Hlen.
  destruct (create_incidents_total df labels Hlen) as [incidents E].
  exists incidents. split; [exact E|].
  eapply Forall_impl; [|exact (create_incidents_origin _ _ _ E)].
  intros inc [[prev [rows [_ Ei]]]|[prev [a ->]]].
  - destruct (cluster_incident_fields _ _ _ Ei) as [_ [_ [_ [_ [Hp _]]]]].
    rewrite Hp. unfold priority_of_risk.
    destruct (total_revenue_risk inc >? 500000) eqn:E1.
    + rewrite Z.gtb_ltb in E1. apply Z.ltb_lt in E1. trivial.
    + destruct (total_revenue_risk inc >? 100000); discriminate.
  - cbn. discriminate.
Qed.

(** X6: an incident is [High] only when its total risk exceeds 500000 and
    [Medium] only when it lies in (100000, 500000]; an incident of two or
    more alerts has exactly the priority its total risk asks for. *)
Theorem incident_priority_thresholds (df : list Row) (labels : list Z) :
  length labels = length df ->
  exists incidents,
    create_incidents df labels = Ok incidents
    /\ Forall (fun inc =>
                 (priority inc = High -> 500000 < total_revenue_risk inc)
                 /\ (priority inc = Medium ->
                     100000 < total_revenue_risk inc <= 500000)
                 /\ (1 < alert_count inc ->
                     priority inc = priority_of_risk (total_revenue_risk inc)))
         incidents.
Proof.
  intros Hlen.
  destruct (create_incidents_total df labels Hlen) as [incidents E].
  exists incidents. split; [exact E|].
  eapply Forall_impl; [|exact (create_incidents_origin _ _ _ E)].
  intros inc [[prev [rows [_ Ei]]]|[prev [a ->]]].
  - destruct (cluster_incident_fields _ _ _ Ei) as [_ [_ [_ [_ [Hp _]]]]].
    rewrite Hp. unfold priority_of_risk.
    destruct (total_revenue_risk inc >? 500000) eqn:E1;
      rewrite Z.gtb_ltb in E1;
      [apply Z.ltb_lt in E1 | apply Z.ltb_ge in E1];
      [repeat split; trivial; discriminate|].
    destruct (total_revenue_risk inc >? 100000) eqn:E2;
      rewrite Z.gtb_ltb in E2;
      [apply Z.ltb_lt in E2 | apply Z.ltb_ge in E2];
      repeat split; trivial; try discriminate; lia.
  - cbn. repeat split; first [discriminate | lia].
Qed.

Lemma incident_priority_thresholds_witness :
  length [0; 0; NOISE] = length [row_mid; row_big; row_big]
  /\ exists incidents,
       create_incidents [row_mid; row_big; row_big] [0; 0; NOISE]
       = Ok incidents
       /\ Forall (fun inc =>
                    (priority inc = High -> 500000 < total_revenue_risk inc)
                    /\ (priority inc = Medium ->
                        100000 < total_revenue_risk inc <= 500000)
                    /\ (1 < alert_count inc ->
                        priority inc
                        = priority_of_risk (total_revenue_risk inc)))
            incidents.
Proof.
  split; [reflexivity|].
  apply (incident_priority_thresholds
           [row_mid; row_big; row_big] [0; 0; NOISE]).
  reflexivity.
Defined.

(** X7: the [alert_count]s of the returned incidents add up to the size of
    the batch, and there are never more incidents than alerts (the alert
    reduction printed by [correlate_alerts] is never negative). *)
Theorem alert_counts_add_up (df : list Row) (labels : list Z) :
  length labels = length df ->
  exists incidents,
    create_incidents df labels = Ok incidents
    /\ sumZ (map alert_count incidents) = Z.of_nat (length df)
    /\ (length incidents <= length df)%nat.
Proof.
  intros Hlen.
  destruct (create_incidents_total df labels Hlen) as [incidents E].
  exists incidents. split; [exact E|].
  pose proof (create_incidents_origin _ _ _ E) as Horig.
  rewrite <- (Permutation_length (create_incidents_members _ _ _ E)).
  clear E. induction Horig as [|inc t Hinc _ IH]; [split; reflexivity|].
  cbn [map concat]. rewrite sumZ_cons, length_app. cbn [length].
  assert (Hc : alert_count inc = Z.of_nat (length (alerts inc))
               /\ (1 <= length (alerts inc))%nat).
  { destruct Hinc as [[prev [rows [Hne Ei]]]|[prev [a ->]]].
    - destruct (cluster_incident_fields _ _ _ Ei) as [Ha [Hc _]].
      rewrite Ha, Hc. split; trivial.
      destruct rows; [congruence | simpl; lia].
    - cbn. split; [reflexivity | lia]. }
  lia.
Qed.

Lemma alert_counts_add_up_witness :
  length [0; 0; NOISE] = length [row_mid; row_big; row_big]
  /\ exists incidents,
       create_incidents [row_mid; row_big; row_big] [0; 0; NOISE]
       = Ok incidents
       /\ sumZ (map alert_count incidents)
          = Z.of_nat (length [row_mid; row_big; row_big])
       /\ (length incidents <= length [row_mid; row_big; row_big])%nat.
Proof.
  split; [reflexivity|].
  apply (alert_counts_add_up [row_mid; row_big; row_big] [0; 0; NOISE]).
  reflexivity.
Defined.

(* ===================================================================== *)
(** * The report of [main] *)
(* ===================================================================== *)

Section SortedLists.
Context {A : Type} (R : A -> A -> Prop).

Lemma StronglySorted_filter (f : A -> bool) (l : list A) :
  StronglySorted R l -> StronglySorted R (filter f l).
Proof.
  induction 1 as [|x t Ht IH Hall]; simpl; [constructor|].
  destruct (f x); trivial. constructor; trivial.
  rewrite Forall_forall in *. intros y Hy. apply filter_In in Hy.
  now apply Hall.
Qed.

Lemma StronglySorted_app_inv (a b : list A) :
  StronglySorted R (a ++ b) ->
  StronglySorted R a
  /\ Forall (fun y => Forall (fun x => R x y) a) b.
Proof.
  induction a as [|x a IH]; simpl; intros Hs.
  - split; [constructor|]. apply Forall_forall. constructor.
  - inversion Hs as [|? ? Ht Hall]; subst.
    destruct (IH Ht) as [Ha Hb]. apply Forall_app in Hall.
    destruct Hall as [Hxa Hxb]. split; [now constructor|].
    rewrite Forall_forall in *. intros y Hy. constructor; auto.
Qed.
End SortedLists.

(** X8: the incidents [main] reports are at most five, all of priority
    [High] with a total risk above 500000, in descending order of risk, and
    no [High] incident left out has a greater risk than one reported. *)
Theorem main_reports_top_high_incidents (df : list Row) (labels : list Z) :
  length labels = length df ->
  exists incidents rest,
    create_incidents df labels = Ok incidents
    /\ filter is_high incidents = high_priority incidents ++ rest
    /\ (length (high_priority incidents) <= 5)%nat
    /\ Forall (fun inc => priority inc = High
                          /\ 500000 < total_revenue_risk inc)
         (high_priority incidents)
    /\ StronglySorted risk_ge (high_priority incidents)
    /\ Forall (fun r =>
                 Forall (fun s => total_revenue_risk r <= total_revenue_risk s)
                   (high_priority incidents)) rest.
Proof.
  intros Hlen.
  destruct (incident_priority_thresholds_aux df labels Hlen)
    as [incidents [E Hprio]].
  exists incidents, (skipn 5 (filter is_high incidents)).
  split; [exact E|]. unfold high_priority.
  split; [symmetry; apply firstn_skipn|].
  split; [apply firstn_le_length|].
  pose proof (StronglySorted_filter risk_ge is_high incidents
                (create_incidents_sorted _ _ _ E)) as Hs.
  rewrite <- (firstn_skipn 5 (filter is_high incidents)) in Hs.
  destruct (StronglySorted_app_inv risk_ge _ _ Hs) as [Hs1 Hs2].
  split; [|split; [exact Hs1 | exact Hs2]].
  apply Forall_forall. intros inc Hin.
  assert (Hin' : In inc (filter is_high incidents)).
  { rewrite <- (firstn_skipn 5 (filter is_high incidents)).
    apply in_or_app. now left. }
  apply filter_In in Hin'. destruct Hin' as [Hin' Hh].
  assert (Hp : priority inc = High)
    by (unfold is_high in Hh; destruct (priority inc); congruence).
  split; trivial. rewrite Forall_forall in Hprio. now apply Hprio.
Qed.

Lemma main_reports_top_high_incidents_witness :
  length [0; 0; 1] = length [row_big; row_big; row_small]
  /\ exists incidents rest,
       create_incidents [row_big; row_big; row_small] [0; 0; 1] = Ok incidents
       /\ filter is_high incidents = high_priority incidents ++ rest
       /\ (length (high_priority incidents) <= 5)%nat
       /\ Forall (fun inc => priority inc = High
                             /\ 500000 < total_revenue_risk inc)
            (high_priority incidents)
       /\ StronglySorted risk_ge (high_priority incidents)
       /\ Forall (fun r =>
                    Forall (fun s =>
                              total_revenue_risk r <= total_revenue_risk s)
                      (high_priority incidents)) rest.
Proof.
  split; [reflexivity|].
  apply (main_reports_top_high_incidents
           [row_big; row_big; row_small] [0; 0; 1]).
  reflexivity.
Defined.

(* ===================================================================== *)
(** * The counting loops *)
(* ===================================================================== *)

Lemma dict_get_default_set_same {V : Type} (k : string) (v d0 : V)
    (d : list (string * V)) :
  dict_get_default k (dict_set k v d) d0 = v.
Proof. unfold dict_get_default. now rewrite dict_get_set_same. Qed.

Lemma dict_get_default_set_other {V : Type} (k k0 : string) (v d0 : V)
    (d : list (string * V)) :
  k0 <> k -> dict_get_default k0 (dict_set k v d) d0 = dict_get_default k0 d d0.
Proof.
  intros H. unfold dict_get_default. now rewrite dict_get_set_other.
Qed.

Lemma count_cons (k k' : string) (l : list string) :
  count String.eqb k (k' :: l)
  = ((if String.eqb k k' then 1 else 0) + count String.eqb k l)%nat.
Proof. unfold count. simpl. now destruct (String.eqb k k'). Qed.

(** The count kept for a key grows by the number of its occurrences. *)
Lemma count_keys_get (keys : list string) :
  forall counts k,
    dict_get_default k (count_keys keys counts) 0
    = dict_get_default k counts 0 + Z.of_nat (count String.eqb k keys).
Proof.
  induction keys as [|k' rest IH]; intros counts k; cbn [count_keys].
  - unfold count; simpl. lia.
  - rewrite IH, count_cons.
    destruct (String.eqb_spec k k') as [->|Hne].
    + rewrite dict_get_default_set_same. lia.
    + rewrite dict_get_default_set_other by trivial. lia.
Qed.

(** A key is in the dict exactly when it was there or has been counted. *)
Lemma count_keys_absent (keys : list string) :
  forall counts k,
    dict_get k (count_keys keys counts) = None
    <-> dict_get k counts = None /\ ~ In k keys.
Proof.
  induction keys as [|k' rest IH]; intros counts k; cbn [count_keys].
  - simpl. tauto.
  - rewrite IH. destruct (String.eqb_spec k k') as [->|Hne].
    + rewrite dict_get_set_same. split; [intros [H _]; discriminate|].
      intros [_ H]. exfalso. apply H. now left.
    + rewrite dict_get_set_other by trivial. simpl. intuition congruence.
Qed.

Lemma dict_set_sum (k : string) (v : Z) (d : list (string * Z)) :
  sumZ (map snd (dict_set k v d))
  = sumZ (map snd d) + v - dict_get_default k d 0.
Proof.
  unfold dict_get_default.
  induction d as [|[k' v'] t IH]; cbn [dict_set dict_get map snd].
  - rewrite sumZ_cons. unfold sumZ; simpl. lia.
  - destruct (String.eqb k k'); cbn [map snd]; rewrite !sumZ_cons; lia.
Qed.

Lemma count_keys_sum (keys : list string) :
  forall counts,
    sumZ (map snd (count_keys keys counts))
    = sumZ (map snd counts) + Z.of_nat (length keys).
Proof.
  induction keys as [|k rest IH]; intros counts; cbn [count_keys length].
  - lia.
  - rewrite IH, dict_set_sum. lia.
Qed.

(** X9: [error_counts] holds, for each error code of the alerts and for no
    other key, the number of alerts with that code (at least 1), and the
    counts add up to the number of alerts. *)
Theorem error_counts_count_occurrences (alerts : list Alert) :
  (forall code,
     dict_get code (error_counts alerts)
     = if in_dec string_dec code (map a_error_code alerts)
       then Some (Z.of_nat (count String.eqb code (map a_error_code alerts)))
       else None)
  /\ (forall code n, dict_get code (error_counts alerts) = Some n -> 1 <= n)
  /\ sumZ (map snd (error_counts alerts)) = Z.of_nat (length alerts).
Proof.
  unfold error_counts.
  assert (Hget : forall code,
            dict_get code (count_keys (map a_error_code alerts) [])
            = if in_dec string_dec code (map a_error_code alerts)
              then Some (Z.of_nat (count String.eqb code
                                     (map a_error_code alerts)))
              else None).
  { intros code.
    pose proof (count_keys_get (map a_error_code alerts) [] code) as Hg.
    pose proof (count_keys_absent (map a_error_code alerts) [] code) as Ha.
    unfold dict_get_default in Hg. cbn [dict_get] in Hg, Ha.
    destruct (in_dec string_dec code (map a_error_code alerts)) as [Hin|Hin].
    - destruct (dict_get code (count_keys (map a_error_code alerts) []))
        as [v|]; [f_equal; lia | exfalso; apply Ha; auto].
    - apply Ha. auto. }
  split; [exact Hget|]. split.
  - intros code n E. rewrite Hget in E.
    destruct (in_dec string_dec code (map a_error_code alerts)) as [Hin|Hin];
      [|discriminate].
    injection E as <-.
    pose proof (count_pos String.eqb String.eqb_eq _ _ Hin). lia.
  - rewrite count_keys_sum, length_map. unfold sumZ; simpl. lia.
Qed.

Lemma count_app (k : string) (l l' : list string) :
  count String.eqb k (l ++ l')
  = (count String.eqb k l + count String.eqb k l')%nat.
Proof. unfold count. now rewrite filter_app, length_app. Qed.

Lemma priority_names_partition (incidents : list Incident) :
  let names := map (fun inc => priority_name (priority inc)) incidents in
  (count String.eqb "High"%string names + count String.eqb "Medium"%string names
   + count String.eqb "Low"%string names)%nat = length incidents.
Proof.
  induction incidents as [|inc t IH]; [reflexivity|].
  cbn [map length] in *. rewrite !count_cons.
  destruct (priority inc); cbn; lia.
Qed.

(** X10: the priority distribution printed by [correlate_alerts] has no key
    other than High, Medium and Low; its counts add up to the number of
    incidents; and the count of Low is at least the number of alerts
    labelled noise. *)
Theorem priority_counts_distribution (df : list Row) (labels : list Z) :
  length labels = length df ->
  exists incidents,
    create_incidents df labels = Ok incidents
    /\ dict_get_default "High"%string (priority_counts incidents) 0
       + dict_get_default "Medium"%string (priority_counts incidents) 0
       + dict_get_default "Low"%string (priority_counts incidents) 0
       = Z.of_nat (length incidents)
    /\ Z.of_nat (count Z.eqb NOISE labels)
       <= dict_get_default "Low"%string (priority_counts incidents) 0
    /\ forall k, dict_get k (priority_counts incidents) <> None ->
         k = "High"%string \/ k = "Medium"%string \/ k = "Low"%string.
Proof.
  intros Hlen.
  destruct (created_incidents_spec df labels Hlen)
    as [clusters [noise [E [_ [_ [Hn _]]]]]].
  set (incidents := sort_desc_by total_revenue_risk (clusters ++ noise)).
  exists incidents.
  split; [unfold create_incidents; rewrite E; reflexivity|].
  unfold priority_counts. rewrite !count_keys_get.
  unfold dict_get_default; cbn [dict_get].
  pose proof (priority_names_partition incidents) as Hpart. cbn zeta in Hpart.
  split; [lia|]. split.
  - rewrite <- (rows_with_label_length df labels NOISE Hlen).
    rewrite (Forall2_length Hn).
    assert (Hperm : Permutation
              (map (fun inc => priority_name (priority inc)) incidents)
              (map (fun inc => priority_name (priority inc))
                 (clusters ++ noise)))
      by apply Permutation_map, sort_desc_by_perm.
    unfold count at 1. rewrite (filter_length_perm _ _ _ Hperm).
    fold (count String.eqb "Low"%string
            (map (fun inc => priority_name (priority inc)) (clusters ++ noise))).
    rewrite map_app, count_app.
    assert (Hlow : count String.eqb "Low"%string
                     (map (fun inc => priority_name (priority inc)) noise)
                   = length noise).
    { clear -Hn. induction Hn as [|a inc rows noise' Hr _ IH]; [reflexivity|].
      destruct Hr as [_ [_ [Hp _]]].
      cbn [map length]. rewrite count_cons, Hp, IH. reflexivity. }
    lia.
  - intros k Hk.
    assert (Hin : In k (map (fun inc => priority_name (priority inc))
                          incidents)).
    { destruct (in_dec string_dec k
                  (map (fun inc => priority_name (priority inc)) incidents))
        as [H|H]; trivial.
      exfalso. apply Hk. apply count_keys_absent. split; trivial. }
    apply in_map_iff in Hin. destruct Hin as [inc [<- _]].
    destruct (priority inc); auto.
Qed.

Lemma priority_counts_distribution_witness :
  length [0; 0; NOISE] = length [row_mid; row_big; row_big]
  /\ exists incidents,
       create_incidents [row_mid; row_big; row_big] [0; 0; NOISE]
       = Ok incidents
       /\ dict_get_default "High"%string (priority_counts incidents) 0
          + dict_get_default "Medium"%string (priority_counts incidents) 0
          + dict_get_default "Low"%string (priority_counts incidents) 0
          = Z.of_nat (length incidents)
       /\ Z.of_nat (count Z.eqb NOISE [0; 0; NOISE])
          <= dict_get_default "Low"%string (priority_counts incidents) 0
       /\ forall k, dict_get k (priority_counts incidents) <> None ->
            k = "High"%string \/ k = "Medium"%string \/ k = "Low"%string.
Proof.
  split; [reflexivity|].
  apply (priority_counts_distribution
           [row_mid; row_big; row_big] [0; 0; NOISE]).
  reflexivity.
Defined.

(* ===================================================================== *)
(** * Further properties of [preprocess_features] *)
(* ===================================================================== *)

Lemma build_rows_map (f g : string -> Z) (df : list Alert) :
  build_rows df (map f (map a_device_id df)) (map g (map a_error_code df))
  = map (fun a =>
           {| timestamp := a_timestamp a;
              device_id := a_device_id a;
              error_code := a_error_code a;
              customer_impact := a_customer_impact a;
              revenue_risk := a_revenue_risk a;
              hour := dt_hour (a_timestamp a);
              day_of_week := dt_dayofweek (a_timestamp a);
              device_id_encoded := f (a_device_id a);
              error_code_encoded := g (a_error_code a) |}) df.
Proof.
  induction df as [|a t IH]; [reflexivity|].
  cbn [map build_rows]. now rewrite IH.
Qed.

Lemma scale_row_length (row mean scale : list R) (d : nat) :
  length row = d -> length mean = d -> length scale = d ->
  length (scale_row row mean scale) = d.
Proof.
  revert row mean scale; induction d as [|d IH];
    intros [|x row] [|m mean] [|s scale]; simpl; try discriminate; trivial.
  intros H1 H2 H3. f_equal. apply IH; lia.
Qed.

Lemma scaler_fit_lengths (X : list (list R)) (sc : StandardScaler) :
  scaler_fit X = Ok sc ->
  length (mean_ sc) = n_features X /\ length (scale_ sc) = n_features X.
Proof.
  destruct X as [|row rows]; [discriminate|].
  cbn [scaler_fit]. intros [= <-]. cbn [mean_ scale_].
  now rewrite !length_map, length_seq.
Qed.

(** X12: on a batch that is not empty, [preprocess_features] returns one
    processed row and one vector of six features per alert; the rows carry
    the alerts' own fields in batch order, an hour of day in 0..23 and a day
    of week in 0..6. *)
Theorem processed_rows_carry_the_alerts (self : AlertCorrelator)
    (df : list Alert) :
  df <> [] ->
  exists self' features processed,
    preprocess_features self df = Ok (self', (features, processed))
    /\ map alert_of_row processed = df
    /\ Forall (fun r => 0 <= hour r < 24 /\ 0 <= day_of_week r < 7) processed
    /\ length features = length df
    /\ Forall (fun row => length row = 6%nat) features.
Proof.
  intros Hne.
  destruct (preprocess_features_spec self df Hne)
    as [self' [sc [E [Hfit [_ [_ [_ Hlen]]]]]]].
  rewrite build_rows_map in E, Hfit, Hlen.
  eexists; eexists; eexists. split; [exact E|].
  split; [|split; [|split]].
  - rewrite map_map. cbn. rewrite <- (map_id df) at 2.
    apply map_ext. now intros [].
  - apply Forall_forall. intros r Hr. apply in_map_iff in Hr.
    destruct Hr as [a [<- _]]. cbn [hour day_of_week].
    unfold dt_hour, dt_dayofweek.
    split; apply Z.mod_pos_bound; reflexivity.
  - unfold scaler_transform. now rewrite !length_map.
  - destruct (scaler_fit_lengths _ _ Hfit) as [Hm Hs].
    assert (Hd : n_features
                   (map feature_row
                      (map (fun a =>
                              {| timestamp := a_timestamp a;
                                 device_id := a_device_id a;
                                 error_code := a_error_code a;
                                 customer_impact := a_customer_impact a;
                                 revenue_risk := a_revenue_risk a;
                                 hour := dt_hour (a_timestamp a);
                                 day_of_week := dt_dayofweek (a_timestamp a);
                                 device_id_encoded :=
                                   index_of (a_device_id a)
                                     (py_sorted String.leb
                                        (unique String.eqb
                                           (map a_device_id df)));
                                 error_code_encoded :=
                                   index_of (a_error_code a)
                                     (py_sorted String.leb
                                        (unique String.eqb
                                           (map a_error_code df))) |}) df))
                 = 6%nat)
      by (destruct df; [congruence | reflexivity]).
    rewrite Hd in Hm, Hs.
    unfold scaler_transform. apply Forall_forall. intros row Hrow.
    apply in_map_iff in Hrow. destruct Hrow as [raw [<- Hraw]].
    apply scale_row_length; trivial.
    apply in_map_iff in Hraw. destruct Hraw as [r [<- _]]. reflexivity.
Qed.

Lemma processed_rows_carry_the_alerts_witness :
  [alert_t2; alert_t1] <> []
  /\ exists self' features processed,
       preprocess_features AlertCorrelator_new [alert_t2; alert_t1]
       = Ok (self', (features, processed))
       /\ map alert_of_row processed = [alert_t2; alert_t1]
       /\ Forall (fun r => 0 <= hour r < 24 /\ 0 <= day_of_week r < 7)
            processed
       /\ length features = length [alert_t2; alert_t1]
       /\ Forall (fun row => length row = 6%nat) features.
Proof.
  assert (Hne : [alert_t2; alert_t1] <> []) by discriminate.
  split; [exact Hne|].
  exact (processed_rows_carry_the_alerts AlertCorrelator_new
           [alert_t2; alert_t1] Hne).
Defined.

(** X13: the codes written into the rows decode through the classes the
    encoders hold afterwards: the class at position [device_id_encoded] is
    the row's [device_id], and likewise for [error_code]. *)
Theorem encoded_columns_decode (self : AlertCorrelator) (df : list Alert) :
  df <> [] ->
  exists self' features processed dev_encoder err_encoder,
    preprocess_features self df = Ok (self', (features, processed))
    /\ dict_get "device_id" (label_encoders self') = Some dev_encoder
    /\ dict_get "error_code" (label_encoders self') = Some err_encoder
    /\ Forall (fun r =>
                 nth (Z.to_nat (device_id_encoded r)) (classes_ dev_encoder)
                   EmptyString = device_id r
                 /\ nth (Z.to_nat (error_code_encoded r))
                      (classes_ err_encoder) EmptyString = error_code r)
         processed.
Proof.
  intros Hne.
  destruct (preprocess_features_spec self df Hne)
    as [self' [sc [E [_ [_ [Hd [He _]]]]]]].
  rewrite build_rows_map in E.
  eexists; eexists; eexists; eexists; eexists.
  split; [exact E|]. split; [exact Hd|]. split; [exact He|].
  cbn [classes_]. apply Forall_forall. intros r Hr.
  apply in_map_iff in Hr. destruct Hr as [a [<- Ha]].
  cbn [device_id_encoded error_code_encoded device_id error_code].
  split; apply index_of_nth, in_classes, in_map, Ha.
Qed.

Lemma encoded_columns_decode_witness :
  [alert_t2; alert_t1] <> []
  /\ exists self' features processed dev_encoder err_encoder,
       preprocess_features AlertCorrelator_new [alert_t2; alert_t1]
       = Ok (self', (features, processed))
       /\ dict_get "device_id" (label_encoders self') = Some dev_encoder
       /\ dict_get "error_code" (label_encoders self') = Some err_encoder
       /\ Forall (fun r =>
                    nth (Z.to_nat (device_id_encoded r))
                      (classes_ dev_encoder) EmptyString = device_id r
                    /\ nth (Z.to_nat (error_code_encoded r))
                         (classes_ err_encoder) EmptyString = error_code r)
            processed.
Proof.
  assert (Hne : [alert_t2; alert_t1] <> []) by discriminate.
  split; [exact Hne|].
  exact (encoded_columns_decode AlertCorrelator_new [alert_t2; alert_t1] Hne).
Defined.

(** ** Mean and variance of the scaled features *)

Section Standardised.
Local Open Scope R_scope.

Lemma Rsum_scaled (g : R -> R) (c : R) (l : list R) :
  Rsum (map (fun x => g x / c) l) = Rsum (map g l) / c.
Proof.
  induction l as [|x t IH]; simpl.
  - unfold Rdiv. now rewrite Rmult_0_l.
  - fold (Rsum (map (fun x => g x / c) t)). fold (Rsum (map g t)).
    rewrite IH. unfold Rdiv. ring.
Qed.

Lemma Rsum_shifted (m : R) (l : list R) :
  Rsum (map (fun x => x - m) l) = Rsum l - INR (length l) * m.
Proof.
  induction l as [|x t IH].
  - simpl. ring.
  - cbn [map Rsum fold_right length].
    fold (Rsum (map (fun x => x - m) t)). fold (Rsum t).
    rewrite IH, S_INR. ring.
Qed.

Lemma Rmean_affine (m s : R) (l : list R) :
  l <> [] -> s <> 0 ->
  Rmean (map (fun x => (x - m) / s) l) = (Rmean l - m) / s.
Proof.
  intros Hne Hs. pose proof (INR_length_pos l Hne) as Hn.
  unfold Rmean. rewrite length_map.
  rewrite (Rsum_scaled (fun x => x - m) s l), Rsum_shifted.
  field. split; lra.
Qed.

Lemma Rmean_scaled (g : R -> R) (c : R) (l : list R) :
  Rmean (map (fun x => g x / c) l) = Rmean (map g l) / c.
Proof.
  unfold Rmean. rewrite !length_map, Rsum_scaled. unfold Rdiv. ring.
Qed.

Lemma Rvar_affine (m s : R) (l : list R) :
  l <> [] -> s <> 0 ->
  Rvar (map (fun x => (x - m) / s) l) = Rvar l / (s * s).
Proof.
  intros Hne Hs. pose proof (INR_length_pos l Hne) as Hn.
  unfold Rvar. rewrite (Rmean_affine m s l Hne Hs), map_map.
  rewrite (map_ext _ (fun x => (fun y => Rsqr (y - Rmean l)) x / (s * s))).
  - apply Rmean_scaled.
  - intros x. unfold Rsqr. field. exact Hs.
Qed.

Lemma nth_scale_row (row mean scale : list R) (j d : nat) :
  length row = d -> length mean = d -> length scale = d -> (j < d)%nat ->
  nth j (scale_row row mean scale) 0
  = (nth j row 0 - nth j mean 0) / nth j scale 0.
Proof.
  intros H1 H2 H3 Hj. apply nth_error_nth.
  apply scale_row_nth; apply nth_error_nth'; lia.
Qed.

(** Column [j] of the transformed matrix is column [j] of the matrix,
    shifted by its mean and divided by its scale. *)
Lemma column_scaler_transform (X : list (list R)) (sc : StandardScaler)
    (d j : nat) :
  X <> [] -> Forall (fun row => length row = d) X ->
  scaler_fit X = Ok sc -> (j < d)%nat ->
  column j (scaler_transform sc X)
  = map (fun x =>
           (x - Rmean (column j X))
           / handle_zeros_in_scale (sqrt (Rvar (column j X)))
               (is_constant_feature (Rvar (column j X))
                  (Rmean (column j X)) (INR (length X))))
      (column j X).
Proof.
  intros Hne Hrows Hfit Hj.
  assert (Hd : n_features X = d).
  { destruct X as [|row rows]; [congruence|]. now inversion Hrows. }
  destruct (scaler_fit_lengths _ _ Hfit) as [Hm Hs]. rewrite Hd in Hm, Hs.
  assert (Hmj : nth j (mean_ sc) 0 = Rmean (column j X)).
  { destruct X as [|row0 rows0] eqn:EX; [congruence|]. rewrite <- EX in *.
    rewrite EX in Hfit. cbn [scaler_fit] in Hfit. rewrite <- EX in Hfit.
    injection Hfit as <-. cbn [mean_]. rewrite Hd, map_map.
    apply nth_error_nth.
    now apply (nth_error_map_seq (fun x => Rmean (column x X)) d j). }
  assert (Hsj : nth j (scale_ sc) 0
                = handle_zeros_in_scale (sqrt (Rvar (column j X)))
                    (is_constant_feature (Rvar (column j X))
                       (Rmean (column j X)) (INR (length X)))).
  { destruct X as [|row0 rows0] eqn:EX; [congruence|]. rewrite <- EX in *.
    rewrite EX in Hfit. cbn [scaler_fit] in Hfit. rewrite <- EX in Hfit.
    injection Hfit as <-. cbn [scale_]. rewrite Hd, !map_map.
    apply nth_error_nth.
    now apply (nth_error_map_seq
                 (fun x => handle_zeros_in_scale
                             (sqrt (Rvar (column x X)))
                             (is_constant_feature (Rvar (column x X))
                                (Rmean (column x X)) (INR (length X))))
                 d j). }
  unfold column, scaler_transform. rewrite !map_map.
  apply map_ext_in. intros row Hrow.
  rewrite Forall_forall in Hrows.
  rewrite (nth_scale_row row _ _ j d) by auto.
  fold (column j X). now rewrite Hmj, Hsj.
Qed.

(** Each scaled column has mean 0.  Its variance is 1 when the raw column
    fails the test of [_is_constant_feature]; when it passes the test the
    divisor is 1 and the variance is that of the raw column. *)
Lemma scaled_column_moments (X : list (list R)) (sc : StandardScaler)
    (d j : nat) :
  X <> [] -> Forall (fun row => length row = d) X ->
  scaler_fit X = Ok sc -> (j < d)%nat ->
  Rmean (column j (scaler_transform sc X)) = 0
  /\ (is_constant_feature (Rvar (column j X)) (Rmean (column j X))
        (INR (length X)) = false ->
      Rvar (column j (scaler_transform sc X)) = 1)
  /\ (is_constant_feature (Rvar (column j X)) (Rmean (column j X))
        (INR (length X)) = true ->
      Rvar (column j (scaler_transform sc X)) = Rvar (column j X)).
Proof.
  intros Hne Hrows Hfit Hj.
  rewrite (column_scaler_transform X sc d j Hne Hrows Hfit Hj).
  assert (Hcol : column j X <> []).
  { unfold column. destruct X; [congruence | discriminate]. }
  pose proof (Rvar_nonneg (column j X)) as Hv.
  pose proof (scale_nonzero (Rvar (column j X)) (Rmean (column j X))
                (INR (length X)) Hv) as Hs.
  rewrite Rmean_affine, Rvar_affine by trivial.
  split; [unfold Rdiv; rewrite Rminus_diag; apply Rmult_0_l|].
  split; intros H; rewrite H in *; cbn [handle_zeros_in_scale] in *.
  - rewrite sqrt_sqrt by lra. field.
    intros H0. apply Hs. rewrite H0. exact sqrt_0.
  - field.
Qed.
End Standardised.

(** X14: on a batch that is not empty, every column of the scaled features
    has mean 0.  With [v] and [m] the variance and the mean of the raw column
    and [n] the number of alerts, the scaler treats the column as constant
    when [v <= n*eps*v + (n*m*eps)^2], [eps] being 2^-52: a column that is
    not constant in this sense has variance 1 after scaling; one that is
    constant in this sense is divided by 1 and keeps its variance [v], which
    is 0 when all its values are equal. *)
Theorem scaled_features_zero_mean_unit_variance (self : AlertCorrelator)
    (df : list Alert) :
  df <> [] ->
  exists self' features processed,
    preprocess_features self df = Ok (self', (features, processed))
    /\ forall j, (j < 6)%nat ->
         let v := Rvar (column j (raw_features df)) in
         let m := Rmean (column j (raw_features df)) in
         let n := INR (length df) in
         Rmean (column j features) = 0%R
         /\ ((n * float64_eps * v + Rsqr (n * m * float64_eps) < v)%R ->
             Rvar (column j features) = 1%R)
         /\ ((v <= n * float64_eps * v + Rsqr (n * m * float64_eps))%R ->
             Rvar (column j features) = v)
         /\ (v = 0%R -> Rvar (column j features) = 0%R).
Proof.
  intros Hne.
  destruct (preprocess_features_spec self df Hne)
    as [self' [sc [E [Hfit [_ [_ [_ Hlen]]]]]]].
  change (map feature_row _) with (raw_features df) in E, Hfit.
  assert (Hn : length (raw_features df) = length df).
  { unfold raw_features. cbn [fit_transform snd].
    now rewrite length_map, Hlen. }
  assert (HX : raw_features df <> []).
  { intros HX. apply (f_equal (@length _)) in HX. rewrite Hn in HX.
    destruct df; [congruence | discriminate]. }
  assert (Hrows : Forall (fun row => length row = 6%nat) (raw_features df)).
  { apply Forall_forall. intros row Hrow. unfold raw_features in Hrow.
    apply in_map_iff in Hrow. destruct Hrow as [r [<- _]]. reflexivity. }
  eexists; eexists; eexists. split; [exact E|].
  intros j Hj v m n.
  destruct (scaled_column_moments _ sc 6 j HX Hrows Hfit Hj)
    as [Hmean [Hvar Hconst]].
  rewrite Hn in Hvar, Hconst. fold v m n in Hvar, Hconst.
  split; [exact Hmean|]. split; [|split].
  - intros Hlt. apply Hvar. unfold is_constant_feature, Rleb.
    destruct (Rle_dec _ _) as [Hle|_]; [lra | reflexivity].
  - intros Hle. apply Hconst. unfold is_constant_feature, Rleb.
    destruct (Rle_dec _ _) as [_|Hgt]; [reflexivity | contradiction].
  - intros H0. transitivity v; [|exact H0]. apply Hconst. rewrite H0.
    apply is_constant_feature_zero.
Qed.

Lemma scaled_features_zero_mean_unit_variance_witness :
  [alert_t2; alert_t1] <> []
  /\ exists self' features processed,
       preprocess_features AlertCorrelator_new [alert_t2; alert_t1]
       = Ok (self', (features, processed))
       /\ forall j, (j < 6)%nat ->
            let v := Rvar (column j (raw_features [alert_t2; alert_t1])) in
            let m := Rmean (column j (raw_features [alert_t2; alert_t1])) in
            let n := INR (length [alert_t2; alert_t1]) in
            Rmean (column j features) = 0%R
            /\ ((n * float64_eps * v + Rsqr (n * m * float64_eps) < v)%R ->
                Rvar (column j features) = 1%R)
            /\ ((v <= n * float64_eps * v + Rsqr (n * m * float64_eps))%R ->
                Rvar (column j features) = v)
            /\ (v = 0%R -> Rvar (column j features) = 0%R).
Proof.
  assert (Hne : [alert_t2; alert_t1] <> []) by discriminate.
  split; [exact Hne|].
  exact (scaled_features_zero_mean_unit_variance AlertCorrelator_new
           [alert_t2; alert_t1] Hne).
Defined.

(* ===================================================================== *)
(** * Further properties of [find_optimal_eps] *)
(* ===================================================================== *)

Section EpsFacts.
Local Open Scope R_scope.

Lemma nth_nonneg (l : list R) (i : nat) :
  Forall (fun x => 0 <= x) l -> 0 <= nth i l 0.
Proof.
  intros Hall. destruct (nth_in_or_default i l 0) as [Hin|E].
  - rewrite Forall_forall in Hall. now apply Hall.
  - rewrite E. lra.
Qed.

Lemma percentile_nonneg (a : list R) (q : Z) :
  Forall (fun x => 0 <= x) a -> 0 <= percentile a q.
Proof.
  intros Hall. unfold percentile.
  assert (Hs : Forall (fun x => 0 <= x) (np_sort a)).
  { rewrite Forall_forall in *. intros x Hx. apply Hall.
    now apply (py_sorted_in Rleb). }
  set (num := ((Z.of_nat (length (np_sort a)) - 1) * q)%Z).
  pose proof (nth_nonneg _ (Z.to_nat (num / 100)) Hs) as Hlo.
  pose proof (nth_nonneg _
                (Z.to_nat (Z.min (num / 100 + 1)
                             (Z.of_nat (length (np_sort a)) - 1))) Hs) as Hhi.
  assert (Hg : 0 <= IZR (num mod 100) / 100 <= 1).
  { destruct (Z.mod_pos_bound num 100) as [H0 H1]; [reflexivity|].
    apply IZR_le in H0. apply Z.lt_le_incl, IZR_le in H1.
    split; [apply Rmult_le_pos; lra | lra]. }
  nra.
Qed.

Lemma kth_distances_nonneg (X : list (list R)) (k : Z) :
  Forall (fun x => 0 <= x)
    (np_sort
       (map (fun row => nth (Z.to_nat (k - 1)) row 0)
          (map (fun x => firstn (Z.to_nat k) (np_sort (map (euclidean x) X)))
             X))).
Proof.
  apply Forall_forall. intros d Hd.
  apply (proj1 (py_sorted_in Rleb _ _)) in Hd. apply in_map_iff in Hd.
  destruct Hd as [row [<- Hrow]]. apply in_map_iff in Hrow.
  destruct Hrow as [x [<- _]]. apply nth_nonneg.
  apply Forall_forall. intros y Hy.
  assert (Hy' : In y (np_sort (map (euclidean x) X))).
  { rewrite <- (firstn_skipn (Z.to_nat k) (np_sort (map (euclidean x) X))).
    apply in_or_app. now left. }
  apply (proj1 (py_sorted_in Rleb _ _)) in Hy'. apply in_map_iff in Hy'.
  destruct Hy' as [p [<- _]]. apply euclidean_nonneg.
Qed.

Lemma all_equal_map {A B : Type} (f : A -> B) (a : A) (l : list A) :
  Forall (fun x => x = a) l -> Forall (fun y => y = f a) (map f l).
Proof.
  intros H. apply Forall_forall. intros y Hy. apply in_map_iff in Hy.
  destruct Hy as [x [<- Hx]]. rewrite Forall_forall in H.
  now rewrite (H x Hx).
Qed.

(** Identical rows are at distance 0 from one another, whatever the rank
    asked for. *)
Lemma find_optimal_eps_identical_rows (X : list (list R)) (p : list R)
    (k : Z) :
  Forall (fun row => row = p) X ->
  (0 < k <= Z.of_nat (length X))%Z ->
  find_optimal_eps X k = Ok 0.
Proof.
  intros Hall Hk. rewrite find_optimal_eps_ok by exact Hk.
  f_equal. apply percentile_zeros.
  apply Forall_forall. intros d Hd.
  apply (proj1 (py_sorted_in Rleb _ _)) in Hd. apply in_map_iff in Hd.
  destruct Hd as [row [<- Hrow]]. apply in_map_iff in Hrow.
  destruct Hrow as [x [<- Hx]]. apply nth_all_zero.
  apply Forall_forall. intros y Hy.
  assert (Hy' : In y (np_sort (map (euclidean x) X))).
  { rewrite <- (firstn_skipn (Z.to_nat k) (np_sort (map (euclidean x) X))).
    apply in_or_app. now left. }
  apply (proj1 (py_sorted_in Rleb _ _)) in Hy'. apply in_map_iff in Hy'.
  destruct Hy' as [q [<- Hq]]. rewrite Forall_forall in Hall.
  rewrite (Hall x Hx), (Hall q Hq). apply euclidean_self.
Qed.
End EpsFacts.

(** X15: whenever the estimation does not fail, the estimated eps is not
    negative. *)
Theorem estimated_eps_nonnegative (X : list (list R)) (min_samples : Z) :
  0 < min_samples <= Z.of_nat (length X) ->
  exists eps, find_optimal_eps X min_samples = Ok eps /\ (0 <= eps)%R.
Proof.
  intros Hk. rewrite find_optimal_eps_ok by exact Hk.
  eexists. split; [reflexivity|].
  apply percentile_nonneg, kth_distances_nonneg.
Qed.

Lemma estimated_eps_nonnegative_witness :
  0 < 5 <= Z.of_nat (length five_points)
  /\ exists eps, find_optimal_eps five_points 5 = Ok eps /\ (0 <= eps)%R.
Proof.
  assert (H5 : 0 < 5 <= Z.of_nat (length five_points))
    by (split; [reflexivity | discriminate]).
  split; [exact H5|].
  exact (estimated_eps_nonnegative five_points 5 H5).
Defined.

(** X16: the estimate, and whether the estimation fails, do not depend on
    the order of the vectors in the batch. *)
Theorem estimated_eps_ignores_batch_order (X X' : list (list R))
    (min_samples : Z) :
  Permutation X X' ->
  find_optimal_eps X min_samples = find_optimal_eps X' min_samples.
Proof.
  intros Hp. pose proof (Permutation_length Hp) as Hlen.
  destruct (Z_lt_le_dec 0 min_samples) as [Hpos|Hneg];
    [destruct (Z_le_gt_dec min_samples (Z.of_nat (length X))) as [Hle|Hgt]|].
  - rewrite !find_optimal_eps_ok by lia. do 2 f_equal.
    rewrite !map_map.
    rewrite (map_ext
               (fun x => nth (Z.to_nat (min_samples - 1))
                           (firstn (Z.to_nat min_samples)
                              (np_sort (map (euclidean x) X'))) 0%R)
               (fun x => nth (Z.to_nat (min_samples - 1))
                           (firstn (Z.to_nat min_samples)
                              (np_sort (map (euclidean x) X))) 0%R)).
    + apply np_sort_perm_eq, Permutation_map, Hp.
    + intros x. do 2 f_equal.
      apply np_sort_perm_eq, Permutation_map, Permutation_sym, Hp.
  - rewrite !find_optimal_eps_raise by lia. reflexivity.
  - rewrite !find_optimal_eps_raise by lia. reflexivity.
Qed.

Lemma estimated_eps_ignores_batch_order_witness :
  Permutation three_points [[1%R]; [0%R]; [3%R]]
  /\ find_optimal_eps three_points 2
     = find_optimal_eps [[1%R]; [0%R]; [3%R]] 2.
Proof.
  assert (Hp : Permutation three_points [[1%R]; [0%R]; [3%R]])
    by apply perm_swap.
  split; [exact Hp|].
  exact (estimated_eps_ignores_batch_order three_points _ 2 Hp).
Defined.

(** A matrix whose rows are all the same row is scaled to rows of zeros:
    every column is constant, so its mean is the shared value and its divisor
    is 1. *)
Lemma scaler_identical_rows (X : list (list R)) (sc : StandardScaler)
    (p : list R) :
  X <> [] -> Forall (fun row => row = p) X -> scaler_fit X = Ok sc ->
  Forall (fun row => row = repeat 0%R (length p)) (scaler_transform sc X).
Proof.
  intros Hne Hall Hfit.
  assert (Hrows : Forall (fun row => length row = length p) X).
  { rewrite Forall_forall in *. intros row Hrow. now rewrite (Hall row Hrow). }
  destruct (scaler_zero_variance X sc (length p) Hne Hrows Hfit)
    as [_ [Hs Hzero]].
  assert (Hd : n_features X = length p).
  { destruct X as [|row rows]; [congruence|]. now inversion Hrows. }
  destruct (scaler_fit_lengths X sc Hfit) as [Hm _]. rewrite Hd in Hm.
  apply Forall_forall. intros r Hr.
  assert (Hlen : length r = length p).
  { unfold scaler_transform in Hr. apply in_map_iff in Hr.
    destruct Hr as [row [<- Hrow]]. rewrite Forall_forall in Hrows.
    apply scale_row_length; auto. }
  apply (nth_ext r (repeat 0%R (length p)) 0%R 0%R).
  - now rewrite repeat_length.
  - intros j Hj. rewrite Hlen in Hj. rewrite nth_repeat.
    apply nth_error_nth.
    assert (Hstd : sqrt (Rvar (column j X)) = 0%R).
    { destruct (Rvar_constant (nth j p 0%R) (column j X)) as [_ Hv].
      - unfold column. destruct X; [congruence | discriminate].
      - unfold column. apply Forall_forall. intros x Hx.
        apply in_map_iff in Hx. destruct Hx as [row [<- Hrow]].
        rewrite Forall_forall in Hall. now rewrite (Hall row Hrow).
      - rewrite Hv. exact sqrt_0. }
    pose proof (Hzero j Hj Hstd) as Hz. rewrite Forall_forall in Hz.
    now apply Hz.
Qed.

(** X17: a batch of at least five alerts that are all the same alert has
    feature vectors that are all the same vector, the vector of six zeros;
    the estimate is then 0, and that 0 is the eps [cluster_alerts] hands to
    the clusterer. *)
Theorem identical_alerts_estimate_zero_eps
    (DBSCAN_fit_predict : R -> Z -> list (list R) -> result (list Z))
    (silhouette_score : list (list R) -> list Z -> result R)
    (self : AlertCorrelator) (df : list Alert) (a : Alert) :
  Forall (fun x => x = a) df ->
  (5 <= length df)%nat ->
  exists self' features processed,
    preprocess_features self df = Ok (self', (features, processed))
    /\ length features = length df
    /\ Forall (fun row => row = [0; 0; 0; 0; 0; 0]%R) features
    /\ find_optimal_eps features 5 = Ok 0%R
    /\ cluster_alerts DBSCAN_fit_predict silhouette_score features None 5
       = cluster_alerts DBSCAN_fit_predict silhouette_score features
           (Some 0%R) 5.
Proof.
  intros Hall Hlen.
  assert (Hne : df <> []) by (destruct df; [simpl in Hlen; lia | discriminate]).
  destruct (preprocess_features_spec self df Hne)
    as [self' [sc [E [Hfit [_ [_ [_ Hl]]]]]]].
  rewrite build_rows_map in E, Hfit, Hl.
  eexists; eexists; eexists. split; [exact E|].
  match type of E with
  | _ = Ok (_, (scaler_transform _ ?X, _)) =>
      assert (Hsame : exists p, length p = 6%nat
                                /\ Forall (fun row => row = p) X);
      [|assert (HX : X <> [])]
  end.
  { eexists. split; [|rewrite map_map; apply (all_equal_map _ a), Hall].
    reflexivity. }
  { intros HX. apply (f_equal (@length _)) in HX.
    rewrite !length_map in HX. simpl in HX. lia. }
  destruct Hsame as [p [Hp Hsame]].
  pose proof (scaler_identical_rows _ sc p HX Hsame Hfit) as Hzeros.
  rewrite Hp in Hzeros. cbn [repeat] in Hzeros.
  split; [unfold scaler_transform; now rewrite !length_map|].
  split; [exact Hzeros|].
  match type of E with
  | _ = Ok (_, (?F, _)) =>
      assert (H0 : find_optimal_eps F 5 = Ok 0%R)
  end.
  { eapply find_optimal_eps_identical_rows.
    - exact Hzeros.
    - unfold scaler_transform. rewrite !length_map. lia. }
  split; [exact H0|].
  symmetry. now apply cluster_alerts_explicit_eps.
Qed.

Lemma identical_alerts_estimate_zero_eps_witness :
  Forall (fun x => x = alert_t2)
    [alert_t2; alert_t2; alert_t2; alert_t2; alert_t2]
  /\ (5 <= length [alert_t2; alert_t2; alert_t2; alert_t2; alert_t2])%nat
  /\ exists self' features processed,
       preprocess_features AlertCorrelator_new
         [alert_t2; alert_t2; alert_t2; alert_t2; alert_t2]
       = Ok (self', (features, processed))
       /\ length features
          = length [alert_t2; alert_t2; alert_t2; alert_t2; alert_t2]
       /\ Forall (fun row => row = [0; 0; 0; 0; 0; 0]%R) features
       /\ find_optimal_eps features 5 = Ok 0%R
       /\ cluster_alerts dbscan_all_noise silhouette_zero features None 5
          = cluster_alerts dbscan_all_noise silhouette_zero features
              (Some 0%R) 5.
Proof.
  assert (Hall : Forall (fun x => x = alert_t2)
                   [alert_t2; alert_t2; alert_t2; alert_t2; alert_t2])
    by (repeat constructor).
  assert (Hlen : (5 <= length
                         [alert_t2; alert_t2; alert_t2; alert_t2; alert_t2])%nat)
    by (repeat constructor).
  split; [exact Hall|]. split; [exact Hlen|].
  exact (identical_alerts_estimate_zero_eps dbscan_all_noise silhouette_zero
           AlertCorrelator_new _ alert_t2 Hall Hlen).
Defined.

(* ===================================================================== *)
(** * [generate_alerts]: the weighted choice *)
(* ===================================================================== *)

(** The loop returns the code of the first entry whose running sum the draw
    does not exceed. *)
Lemma select_loop_first_reached (table : list (string * float))
    (r c : float) (d : string) (i : nat) (code : string) (w s : float) :
  nth_error table i = Some (code, w) ->
  nth_error (running_sums table c) i = Some s ->
  (r <=? s)%float = true ->
  (forall j s', (j < i)%nat -> nth_error (running_sums table c) j = Some s' ->
                (r <=? s')%float = false) ->
  select_loop table r c d = code.
Proof.
  revert c i; induction table as [|[code1 w1] t IH]; intros c i Hi Hs Hr Hprev.
  - destruct i; discriminate.
  - cbn [select_loop]. destruct i as [|i].
    + cbn in Hi, Hs. injection Hi as -> ->. injection Hs as <-.
      now rewrite Hr.
    + cbn [nth_error running_sums] in Hi, Hs.
      rewrite (Hprev 0%nat (c + w1)%float) by (try lia; reflexivity).
      apply (IH (c + w1)%float i Hi Hs Hr).
      intros j s' Hj Hs'. apply (Hprev (S j)); [lia | exact Hs'].
Qed.

(** When the draw compares below no running sum, the default stays. *)
Lemma select_loop_default (table : list (string * float))
    (r c : float) (d : string) :
  Forall (fun s => (r <=? s)%float = false) (running_sums table c) ->
  select_loop table r c d = d.
Proof.
  revert c; induction table as [|[code1 w1] t IH]; intros c H; trivial.
  cbn [select_loop running_sums] in *. inversion H as [|x l H1 H2]; subst.
  rewrite H1. now apply IH.
Qed.

(** One of the two always applies. *)
Lemma select_loop_cases (table : list (string * float)) (r c : float)
    (d : string) :
  (exists i code w s,
     nth_error table i = Some (code, w)
     /\ nth_error (running_sums table c) i = Some s
     /\ (r <=? s)%float = true
     /\ (forall j s', (j < i)%nat ->
           nth_error (running_sums table c) j = Some s' ->
           (r <=? s')%float = false)
     /\ select_loop table r c d = code)
  \/ (Forall (fun s => (r <=? s)%float = false) (running_sums table c)
      /\ select_loop table r c d = d).
Proof.
  revert c; induction table as [|[code1 w1] t IH]; intros c.
  - right. split; [constructor | reflexivity].
  - cbn [select_loop running_sums].
    destruct (r <=? c + w1)%float eqn:E.
    + left. exists 0%nat, code1, w1, (c + w1)%float.
      repeat split; trivial. intros j s' Hj. lia.
    + destruct (IH (c + w1)%float)
        as [[i [code [w [s [H1 [H2 [H3 [H4 H5]]]]]]]]|[H1 H2]].
      * left. exists (S i), code, w, s. repeat split; trivial.
        intros [|j] s' Hj Hs'.
        -- cbn in Hs'. now injection Hs' as <-.
        -- apply (H4 j); [lia | exact Hs'].
      * right. split; [constructor; trivial | exact H2].
Qed.

(** X18: the selection loop on any table, for any draw and default.  The
    running sums are those of binary64 addition, starting from 0.  The code
    chosen is that of the first entry whose running sum the draw does not
    exceed; when the draw compares below no running sum the default is
    chosen; and every run is one of these two cases. *)
Theorem weighted_choice_selects_by_cumulative_weight
    (table : list (string * float)) (rand_val : float) (default : string) :
  (forall i code w s,
      nth_error table i = Some (code, w) ->
      nth_error (running_sums table 0) i = Some s ->
      (rand_val <=? s)%float = true ->
      (forall j s', (j < i)%nat ->
         nth_error (running_sums table 0) j = Some s' ->
         (rand_val <=? s')%float = false) ->
      select_loop table rand_val 0 default = code)
  /\ (Forall (fun s => (rand_val <=? s)%float = false) (running_sums table 0)
      -> select_loop table rand_val 0 default = default)
  /\ ((exists i code w s,
         nth_error table i = Some (code, w)
         /\ nth_error (running_sums table 0) i = Some s
         /\ (rand_val <=? s)%float = true
         /\ (forall j s', (j < i)%nat ->
               nth_error (running_sums table 0) j = Some s' ->
               (rand_val <=? s')%float = false))
      \/ Forall (fun s => (rand_val <=? s)%float = false)
           (running_sums table 0)).
Proof.
  split; [|split].
  - intros i code w s. apply select_loop_first_reached.
  - apply select_loop_default.
  - destruct (select_loop_cases table rand_val 0 default)
      as [[i [code [w [s [H1 [H2 [H3 [H4 _]]]]]]]]|[H1 _]].
    + left. exists i, code, w, s. auto.
    + right. exact H1.
Qed.

Lemma weighted_choice_selects_by_cumulative_weight_witness :
  nth_error [("BGP_FAIL"%string, 0.5%float); ("LINK_DOWN"%string, 0.25%float);
             ("TIMEOUT"%string, 0.25%float)] 1
  = Some ("LINK_DOWN"%string, 0.25%float)
  /\ nth_error
       (running_sums
          [("BGP_FAIL"%string, 0.5%float); ("LINK_DOWN"%string, 0.25%float);
           ("TIMEOUT"%string, 0.25%float)] 0) 1
     = Some 0.75%float
  /\ (0.625 <=? 0.75)%float = true
  /\ (forall j s', (j < 1)%nat ->
        nth_error
          (running_sums
             [("BGP_FAIL"%string, 0.5%float); ("LINK_DOWN"%string, 0.25%float);
              ("TIMEOUT"%string, 0.25%float)] 0) j = Some s' ->
        (0.625 <=? s')%float = false)
  /\ select_loop
       [("BGP_FAIL"%string, 0.5%float); ("LINK_DOWN"%string, 0.25%float);
        ("TIMEOUT"%string, 0.25%float)] 0.625 0 "BGP_FAIL"
     = "LINK_DOWN"%string.
Proof.
  assert (H1 : nth_error
                 [("BGP_FAIL"%string, 0.5%float);
                  ("LINK_DOWN"%string, 0.25%float);
                  ("TIMEOUT"%string, 0.25%float)] 1
               = Some ("LINK_DOWN"%string, 0.25%float)) by reflexivity.
  assert (H2 : nth_error
                 (running_sums
                    [("BGP_FAIL"%string, 0.5%float);
                     ("LINK_DOWN"%string, 0.25%float);
                     ("TIMEOUT"%string, 0.25%float)] 0) 1
               = Some 0.75%float) by reflexivity.
  assert (H3 : (0.625 <=? 0.75)%float = true) by reflexivity.
  assert (H4 : forall j s', (j < 1)%nat ->
                 nth_error
                   (running_sums
                      [("BGP_FAIL"%string, 0.5%float);
                       ("LINK_DOWN"%string, 0.25%float);
                       ("TIMEOUT"%string, 0.25%float)] 0) j = Some s' ->
                 (0.625 <=? s')%float = false).
  { intros [|j] s' Hj Hs'; [|lia]. injection Hs' as <-. reflexivity. }
  split; [exact H1|]. split; [exact H2|]. split; [exact H3|].
  split; [exact H4|].
  exact (proj1 (weighted_choice_selects_by_cumulative_weight _ 0.625 "BGP_FAIL")
           1%nat "LINK_DOWN"%string 0.25%float 0.75%float H1 H2 H3 H4).
Defined.

(** ** The order of doubles, from the specification of the comparisons *)

Lemma SF_above_not_below (m1 m2 : positive) (e1 e2 : Z) (r : spec_float) :
  SFleb (S754_finite false m1 e1) (S754_finite false m2 e2) = true ->
  SFltb (S754_finite false m2 e2) r = true ->
  SFleb r (S754_finite false m1 e1) = false.
Proof.
  unfold SFleb, SFltb, SFcompare.
  destruct r as [s|s| |s m e]; try destruct s; intros H1 H2;
    try discriminate; trivial.
  revert H1 H2. rewrite !Pos.compare_cont_spec. cbn [Pos.switch_Eq].
  destruct (Z.compare_spec e1 e2) as [He|He|He];
    destruct (Z.compare_spec e2 e) as [He'|He'|He'];
    destruct (Z.compare_spec e e1) as [He''|He''|He''];
    try discriminate; try lia; trivial;
    destruct (Pos.compare_spec m1 m2);
    destruct (Pos.compare_spec m2 m);
    destruct (Pos.compare_spec m m1);
    try discriminate; try lia; trivial.
Qed.

(** A draw above the positive double [b] is not below any positive double
    [a <= b]. *)
Lemma above_not_below (a b r : float) (m1 m2 : positive) (e1 e2 : Z) :
  Prim2SF a = S754_finite false m1 e1 ->
  Prim2SF b = S754_finite false m2 e2 ->
  (a <=? b)%float = true -> (b <? r)%float = true ->
  (r <=? a)%float = false.
Proof.
  rewrite !leb_spec, ltb_spec. intros -> ->. apply SF_above_not_below.
Qed.

(** In a chain of tests [rand_val <= c], rewrite those that a draw above a
    double [b] (hypothesis [H]) fails. *)
Ltac skip_test H :=
  match goal with
  | |- context [if (?r <=? ?c)%float then _ else _] =>
      let E := fresh "E" in
      assert (E : (r <=? c)%float = false)
        by (eapply above_not_below; [| | | exact H]; vm_compute; reflexivity);
      rewrite E; clear E
  end.

Ltac select_between Hlo Hhi :=
  unfold select_error; vm_compute; repeat skip_test Hlo;
  rewrite Hhi; reflexivity.

(** X19: the cut points of [generate_alerts]'s table.  The running sums are
    those of binary64 addition: the eight doubles listed, which are the
    doubles that the literals 0.1, 0.25, 0.35, 0.43, 0.55, 0.75, 0.85 and 1.0
    denote, given also by mantissa and exponent; the last is exactly 1.0.  A
    draw not above the first selects BGP_FAIL; a draw above one cut point and
    not above the next selects the code of the next; a draw above 1.0 would
    select the default BGP_FAIL; the code selected is always one of the
    table.  The comparisons are those of doubles. *)
Theorem select_error_cut_points (rand_val : float) :
  running_sums error_codes 0
  = [0x1.999999999999ap-4; 0x1p-2; 0x1.6666666666666p-2;
     0x1.b851eb851eb85p-2; 0x1.199999999999ap-1; 0x1.8p-1;
     0x1.b333333333333p-1; 0x1p+0]%float
  /\ running_sums error_codes 0
     = [0.1; 0.25; 0.35; 0.43; 0.55; 0.75; 0.85; 1.0]%float
  /\ map Prim2SF (running_sums error_codes 0)
     = [S754_finite false 7205759403792794 (-56);
        S754_finite false 4503599627370496 (-54);
        S754_finite false 6305039478318694 (-54);
        S754_finite false 7746191359077253 (-54);
        S754_finite false 4953959590107546 (-53);
        S754_finite false 6755399441055744 (-53);
        S754_finite false 7656119366529843 (-53);
        S754_finite false 4503599627370496 (-52)]
  /\ ((rand_val <=? 0x1.999999999999ap-4)%float = true ->
      select_error rand_val = "BGP_FAIL"%string)
  /\ ((0x1.999999999999ap-4 <? rand_val)%float = true ->
      (rand_val <=? 0x1p-2)%float = true ->
      select_error rand_val = "LINK_DOWN"%string)
  /\ ((0x1p-2 <? rand_val)%float = true ->
      (rand_val <=? 0x1.6666666666666p-2)%float = true ->
      select_error rand_val = "HARDWARE_FAIL"%string)
  /\ ((0x1.6666666666666p-2 <? rand_val)%float = true ->
      (rand_val <=? 0x1.b851eb851eb85p-2)%float = true ->
      select_error rand_val = "POWER_FAIL"%string)
  /\ ((0x1.b851eb851eb85p-2 <? rand_val)%float = true ->
      (rand_val <=? 0x1.199999999999ap-1)%float = true ->
      select_error rand_val = "FIBER_CUT"%string)
  /\ ((0x1.199999999999ap-1 <? rand_val)%float = true ->
      (rand_val <=? 0x1.8p-1)%float = true ->
      select_error rand_val = "OVERLOAD"%string)
  /\ ((0x1.8p-1 <? rand_val)%float = true ->
      (rand_val <=? 0x1.b333333333333p-1)%float = true ->
      select_error rand_val = "CONFIG_ERROR"%string)
  /\ ((0x1.b333333333333p-1 <? rand_val)%float = true ->
      (rand_val <=? 0x1p+0)%float = true ->
      select_error rand_val = "TIMEOUT"%string)
  /\ ((0x1p+0 <? rand_val)%float = true ->
      select_error rand_val = "BGP_FAIL"%string)
  /\ In (select_error rand_val) (map fst error_codes).
Proof.
  split; [vm_compute; reflexivity|].
  split; [vm_compute; reflexivity|].
  split; [vm_compute; reflexivity|].
  split.
  { intros H. unfold select_error. vm_compute. rewrite H. reflexivity. }
  do 7 (split; [intros Hlo Hhi; select_between Hlo Hhi|]).
  split.
  - intros Hlo. unfold select_error. vm_compute. repeat skip_test Hlo.
    reflexivity.
  - unfold select_error. vm_compute.
    repeat match goal with
           | |- context [if ?b then _ else _] => destruct b
           end; tauto.
Qed.

Lemma select_error_cut_points_witness :
  (0x1.b851eb851eb85p-2 <? 0x1.199999999999ap-1)%float = true
  /\ (0x1.199999999999ap-1 <=? 0x1.199999999999ap-1)%float = true
  /\ select_error 0x1.199999999999ap-1 = "FIBER_CUT"%string.
Proof.
  assert (H1 : (0x1.b851eb851eb85p-2 <? 0x1.199999999999ap-1)%float = true)
    by reflexivity.
  assert (H2 : (0x1.199999999999ap-1 <=? 0x1.199999999999ap-1)%float = true)
    by reflexivity.
  split; [exact H1|]. split; [exact H2|].
  exact (proj1 (proj2 (proj2 (proj2 (proj2 (proj2 (proj2 (proj2
           (select_error_cut_points 0x1.199999999999ap-1)))))))) H1 H2).
Defined.

(* ===================================================================== *)
(** * Further properties of [cluster_alerts] and [correlate_alerts] *)
(* ===================================================================== *)

Lemma preprocess_features_rows (self self' : AlertCorrelator)
    (df : list Alert) (features : list (list R)) (processed : list Row) :
  preprocess_features self df = Ok (self', (features, processed)) ->
  df <> []
  /\ map alert_of_row processed = df
  /\ length features = length df
  /\ length processed = length df.
Proof.
  intros E.
  assert (Hne : df <> []).
  { intros ->. rewrite preprocess_features_empty in E. discriminate. }
  destruct (preprocess_features_spec self df Hne)
    as [self1 [sc [E' [_ [_ [_ [_ Hlen]]]]]]].
  rewrite build_rows_map in E', Hlen. rewrite E' in E.
  injection E as E1 E2 E3. subst self' features processed.
  split; [exact Hne|].
  split; [|split; [|exact Hlen]].
  - rewrite map_map. cbn. rewrite <- (map_id df) at 2.
    apply map_ext. now intros [].
  - unfold scaler_transform. now rewrite !length_map.
Qed.

Section Runs.
Variable DBSCAN_fit_predict : R -> Z -> list (list R) -> result (list Z).
Variable silhouette_score : list (list R) -> list Z -> result R.

(** What a return of [cluster_alerts] without explicit eps implies. *)
Lemma cluster_alerts_estimated_inv (X : list (list R)) (k : Z)
    (labels : list Z) :
  cluster_alerts DBSCAN_fit_predict silhouette_score X None k = Ok labels ->
  0 < k <= Z.of_nat (length X)
  /\ exists eps,
       find_optimal_eps X k = Ok eps /\ (0 <= eps)%R
       /\ DBSCAN_fit_predict eps k X = Ok labels.
Proof.
  intros E.
  assert (Hk : 0 < k <= Z.of_nat (length X)).
  { destruct (Z_lt_le_dec 0 k) as [Hpos|Hneg];
      [destruct (Z_le_gt_dec k (Z.of_nat (length X))) as [Hle|Hgt]|].
    - lia.
    - unfold cluster_alerts in E.
      rewrite find_optimal_eps_raise in E by lia. discriminate.
    - unfold cluster_alerts in E.
      rewrite find_optimal_eps_raise in E by lia. discriminate. }
  split; [exact Hk|].
  unfold cluster_alerts in E. rewrite find_optimal_eps_ok in E by exact Hk.
  cbn [bind] in E.
  match type of E with
  | context [DBSCAN_fit_predict ?e k X] =>
      exists e; destruct (DBSCAN_fit_predict e k X) as [l|err] eqn:Ed;
      [|discriminate]
  end.
  cbn [bind] in E. split; [now apply find_optimal_eps_ok|].
  split; [apply percentile_nonneg, kth_distances_nonneg|].
  match type of E with
  | context [if ?c then _ else _] => destruct c
  end.
  - destruct (silhouette_score X l); [|discriminate].
    cbn [bind] in E. exact E.
  - cbn [bind] in E. exact E.
Qed.

(** With library calls that do not raise and a clusterer that labels every
    vector, a batch of five alerts or more goes through. *)
Lemma correlate_alerts_returns (self : AlertCorrelator) (df : list Alert)
    (output_path : option string) :
  (forall eps k X, exists labels,
      DBSCAN_fit_predict eps k X = Ok labels /\ length labels = length X) ->
  (forall X labels, exists s, silhouette_score X labels = Ok s) ->
  (5 <= length df)%nat ->
  exists self' incidents,
    correlate_alerts DBSCAN_fit_predict silhouette_score self (Some df)
      output_path = Ok (self', Some incidents).
Proof.
  intros HD HS Hlen.
  assert (Hne : df <> []) by (destruct df; [simpl in Hlen; lia | discriminate]).
  destruct (preprocess_features self df)
    as [[self' [features processed]]|e] eqn:E.
  2:{ destruct (preprocess_features_spec self df Hne) as [s1 [sc [E' _]]].
      rewrite E' in E. discriminate. }
  destruct (preprocess_features_rows _ _ _ _ _ E) as [_ [_ [Hf Hp]]].
  unfold correlate_alerts. rewrite E. cbn [bind]. unfold cluster_alerts.
  rewrite find_optimal_eps_ok by lia. cbn [bind].
  match goal with
  | |- context [DBSCAN_fit_predict ?e 5 features] =>
      destruct (HD e 5 features) as [labels [Ed Hl]]
  end.
  rewrite Ed. cbn [bind].
  destruct (HS features labels) as [s Es].
  destruct (create_incidents_total processed labels) as [incidents Ei];
    [congruence|].
  exists self', incidents.
  match goal with
  | |- context [if ?c then _ else _] => destruct c
  end; [rewrite Es|]; cbn [bind]; rewrite Ei; reflexivity.
Qed.
End Runs.

(** X20: when [cluster_alerts] returns without an explicit eps, the batch
    holds at least [min_samples] vectors, the estimation gave an eps that is
    not negative, and the labels returned are those of the clusterer run
    with that eps and [min_samples]. *)
Theorem cluster_alerts_runs_clusterer_on_estimate
    (DBSCAN_fit_predict : R -> Z -> list (list R) -> result (list Z))
    (silhouette_score : list (list R) -> list Z -> result R)
    (X : list (list R)) (min_samples : Z) (labels : list Z) :
  cluster_alerts DBSCAN_fit_predict silhouette_score X None min_samples
  = Ok labels ->
  0 < min_samples <= Z.of_nat (length X)
  /\ exists eps,
       find_optimal_eps X min_samples = Ok eps /\ (0 <= eps)%R
       /\ DBSCAN_fit_predict eps min_samples X = Ok labels.
Proof. apply cluster_alerts_estimated_inv. Qed.

Lemma cluster_alerts_runs_clusterer_on_estimate_witness :
  cluster_alerts dbscan_all_noise silhouette_zero five_points None 5
  = Ok [NOISE; NOISE; NOISE; NOISE; NOISE]
  /\ 0 < 5 <= Z.of_nat (length five_points)
  /\ exists eps,
       find_optimal_eps five_points 5 = Ok eps /\ (0 <= eps)%R
       /\ dbscan_all_noise eps 5 five_points
          = Ok [NOISE; NOISE; NOISE; NOISE; NOISE].
Proof.
  assert (E : cluster_alerts dbscan_all_noise silhouette_zero five_points
                None 5 = Ok [NOISE; NOISE; NOISE; NOISE; NOISE]).
  { unfold cluster_alerts.
    rewrite find_optimal_eps_ok by (split; [reflexivity | discriminate]).
    reflexivity. }
  split; [exact E|].
  exact (cluster_alerts_runs_clusterer_on_estimate dbscan_all_noise
           silhouette_zero five_points 5 _ E).
Defined.

(** X21: one run of [correlate_alerts] on a loaded batch of five alerts or
    more.  If the preprocessing of the batch returned, the clusterer, run on
    the feature vectors with the estimated eps and [min_samples] 5, returned
    one label per vector, and the silhouette score, which is asked for only
    when more than one cluster was found, did not raise, then neither the
    estimation of eps nor [create_incidents] raises, and [correlate_alerts]
    returns the incidents that [create_incidents] builds from the processed
    rows and those labels. *)
Theorem correlate_alerts_returns_from_five_alerts
    (DBSCAN_fit_predict : R -> Z -> list (list R) -> result (list Z))
    (silhouette_score : list (list R) -> list Z -> result R)
    (self self' : AlertCorrelator) (df : list Alert)
    (features : list (list R)) (processed : list Row) (labels : list Z)
    (output_path : option string) :
  (5 <= length df)%nat ->
  preprocess_features self df = Ok (self', (features, processed)) ->
  (forall eps, find_optimal_eps features 5 = Ok eps ->
               DBSCAN_fit_predict eps 5 features = Ok labels) ->
  length labels = length features ->
  (1 < n_clusters labels ->
   exists s, silhouette_score features labels = Ok s) ->
  exists eps incidents,
    find_optimal_eps features 5 = Ok eps
    /\ cluster_alerts DBSCAN_fit_predict silhouette_score features None 5
       = Ok labels
    /\ create_incidents processed labels = Ok incidents
    /\ correlate_alerts DBSCAN_fit_predict silhouette_score self (Some df)
         output_path = Ok (self', Some incidents).
Proof.
  intros Hlen E HD Hl HS.
  destruct (preprocess_features_rows _ _ _ _ _ E) as [_ [_ [Hf Hp]]].
  assert (Hk : 0 < 5 <= Z.of_nat (length features)) by lia.
  pose proof (find_optimal_eps_ok features 5 Hk) as Heps.
  pose proof (HD _ Heps) as Ed.
  assert (Ec : cluster_alerts DBSCAN_fit_predict silhouette_score features
                 None 5 = Ok labels).
  { unfold cluster_alerts. rewrite Heps. cbn [bind]. rewrite Ed. cbn [bind].
    fold (n_clusters labels).
    destruct (n_clusters labels >? 1) eqn:En; [|reflexivity].
    rewrite Z.gtb_ltb in En. apply Z.ltb_lt in En.
    destruct (HS En) as [s ->]. reflexivity. }
  destruct (create_incidents_total processed labels) as [incidents Ei];
    [congruence|].
  eexists; exists incidents.
  split; [exact Heps|]. split; [exact Ec|]. split; [exact Ei|].
  unfold correlate_alerts. rewrite E. cbn [bind]. rewrite Ec. cbn [bind].
  rewrite Ei. reflexivity.
Qed.

Lemma stand_ins_do_not_raise :
  (forall eps k X, exists labels,
      dbscan_all_noise eps k X = Ok labels /\ length labels = length X)
  /\ (forall X labels, exists s, silhouette_zero X labels = Ok s).
Proof.
  split.
  - intros eps k X. eexists. split; [reflexivity|]. apply length_map.
  - intros X labels. eexists. reflexivity.
Defined.

Lemma correlate_alerts_returns_from_five_alerts_witness :
  exists self' features processed labels,
    (5 <= length [alert_t2; alert_t1; alert_t2; alert_t1; alert_t2])%nat
    /\ preprocess_features AlertCorrelator_new
         [alert_t2; alert_t1; alert_t2; alert_t1; alert_t2]
       = Ok (self', (features, processed))
    /\ (forall eps, find_optimal_eps features 5 = Ok eps ->
                    dbscan_all_noise eps 5 features = Ok labels)
    /\ length labels = length features
    /\ (1 < n_clusters labels ->
        exists s, silhouette_zero features labels = Ok s)
    /\ exists eps incidents,
         find_optimal_eps features 5 = Ok eps
         /\ cluster_alerts dbscan_all_noise silhouette_zero features None 5
            = Ok labels
         /\ create_incidents processed labels = Ok incidents
         /\ correlate_alerts dbscan_all_noise silhouette_zero
              AlertCorrelator_new
              (Some [alert_t2; alert_t1; alert_t2; alert_t1; alert_t2]) None
            = Ok (self', Some incidents).
Proof.
  assert (Hlen : (5 <= length
                         [alert_t2; alert_t1; alert_t2; alert_t1; alert_t2])%nat)
    by (repeat constructor).
  assert (Hne : [alert_t2; alert_t1; alert_t2; alert_t1; alert_t2] <> [])
    by discriminate.
  destruct (preprocess_features_spec AlertCorrelator_new _ Hne)
    as [self' [sc [E _]]].
  match type of E with
  | _ = Ok (_, (?F, ?P)) =>
      exists self', F, P, (map (fun _ => NOISE) F);
      assert (HD : forall eps, find_optimal_eps F 5 = Ok eps ->
                     dbscan_all_noise eps 5 F = Ok (map (fun _ => NOISE) F))
        by reflexivity;
      assert (Hl : length (map (fun _ : list R => NOISE) F) = length F)
        by apply length_map;
      assert (HS : 1 < n_clusters (map (fun _ : list R => NOISE) F) ->
                   exists s, silhouette_zero F (map (fun _ => NOISE) F) = Ok s)
        by (intros _; eexists; reflexivity)
  end.
  split; [exact Hlen|]. split; [exact E|]. split; [exact HD|].
  split; [exact Hl|]. split; [exact HS|].
  exact (correlate_alerts_returns_from_five_alerts dbscan_all_noise
           silhouette_zero AlertCorrelator_new self' _ _ _ _ None
           Hlen E HD Hl HS).
Defined.

(** X22: whenever [correlate_alerts] returns an incident list for a loaded
    batch, the batch held at least five alerts, the members of the incidents
    are the alerts of the batch, each exactly once, and there are no more
    incidents than alerts. *)
Theorem correlate_alerts_keeps_every_alert
    (DBSCAN_fit_predict : R -> Z -> list (list R) -> result (list Z))
    (silhouette_score : list (list R) -> list Z -> result R)
    (self self' : AlertCorrelator) (df : list Alert)
    (output_path : option string) (incidents : list Incident) :
  correlate_alerts DBSCAN_fit_predict silhouette_score self (Some df)
    output_path = Ok (self', Some incidents) ->
  (5 <= length df)%nat
  /\ Permutation (map alert_of_row (concat (map alerts incidents))) df
  /\ (length incidents <= length df)%nat.
Proof.
  intros E. unfold correlate_alerts in E.
  destruct (preprocess_features self df)
    as [[self1 [features processed]]|e] eqn:Ep; [|discriminate].
  cbn [bind] in E.
  destruct (cluster_alerts DBSCAN_fit_predict silhouette_score features
              None 5) as [labels|e] eqn:El; [|discriminate].
  cbn [bind] in E.
  destruct (create_incidents processed labels) as [incs|e] eqn:Ec;
    [|discriminate].
  cbn [bind] in E. injection E as <- <-.
  destruct (preprocess_features_rows _ _ _ _ _ Ep) as [_ [Hrows [Hf Hp]]].
  destruct (cluster_alerts_estimated_inv _ _ _ _ _ El) as [Hk _].
  pose proof (create_incidents_members _ _ _ Ec) as Hperm.
  split; [lia|]. split.
  - rewrite <- Hrows. now apply Permutation_map.
  - rewrite <- Hp, <- (Permutation_length Hperm).
    pose proof (create_incidents_origin _ _ _ Ec) as Horig.
    clear -Horig. induction Horig as [|inc t Hinc _ IH]; [reflexivity|].
    cbn [map concat length]. rewrite length_app.
    assert (1 <= length (alerts inc))%nat.
    { destruct Hinc as [[prev [rows [Hne Ei]]]|[prev [a ->]]].
      - destruct (cluster_incident_fields _ _ _ Ei) as [Ha _].
        rewrite Ha. destruct rows; [congruence | simpl; lia].
      - cbn. lia. }
    lia.
Qed.

Lemma correlate_alerts_keeps_every_alert_witness :
  exists self' incidents,
    correlate_alerts dbscan_all_noise silhouette_zero AlertCorrelator_new
      (Some [alert_t2; alert_t1; alert_t2; alert_t1; alert_t2]) None
    = Ok (self', Some incidents)
    /\ (5 <= length [alert_t2; alert_t1; alert_t2; alert_t1; alert_t2])%nat
    /\ Permutation (map alert_of_row (concat (map alerts incidents)))
         [alert_t2; alert_t1; alert_t2; alert_t1; alert_t2]
    /\ (length incidents
        <= length [alert_t2; alert_t1; alert_t2; alert_t1; alert_t2])%nat.
Proof.
  destruct (correlate_alerts_returns dbscan_all_noise silhouette_zero
              AlertCorrelator_new
              [alert_t2; alert_t1; alert_t2; alert_t1; alert_t2] None
              (proj1 stand_ins_do_not_raise) (proj2 stand_ins_do_not_raise))
    as [self' [incidents E]]; [repeat constructor|].
  exists self', incidents. split; [exact E|].
  exact (correlate_alerts_keeps_every_alert dbscan_all_noise silhouette_zero
           AlertCorrelator_new self' _ None incidents E).
Defined.

(* ===================================================================== *)
(** * [save_incidents] *)
(* ===================================================================== *)

Section SaveFacts.
Variable timestamp_str : Z -> string.
Context {AlertRest IncidentRest : Type}.

Let str_alert : @AlertDict AlertRest -> @AlertDict AlertRest :=
  stringify_alert timestamp_str.

Lemma update_at_nth (store : list (@AlertDict AlertRest)) (ref i : nat)
    (f : AlertDict -> AlertDict) :
  nth_error (update_at store ref f) i
  = if Nat.eqb i ref then option_map f (nth_error store i)
    else nth_error store i.
Proof.
  revert ref i; induction store as [|a t IH]; intros ref i.
  - cbn [update_at]. destruct (Nat.eqb i ref), i; reflexivity.
  - destruct ref as [|ref], i as [|i]; try reflexivity.
    cbn [update_at nth_error]. rewrite IH. reflexivity.
Qed.

Lemma update_at_length (store : list (@AlertDict AlertRest)) (ref : nat)
    (f : AlertDict -> AlertDict) :
  length (update_at store ref f) = length store.
Proof.
  revert ref; induction store as [|a t IH]; intros [|ref]; simpl; auto.
Qed.

Lemma stringify_alert_idem (a : @AlertDict AlertRest) :
  str_alert (str_alert a) = str_alert a.
Proof. destruct a as [[v|] rest]; reflexivity. Qed.

(** After the inner loop an alert dict is rewritten exactly when it is
    referenced. *)
Lemma stringify_alerts_nth (refs : list nat) :
  forall (store : list (@AlertDict AlertRest)) i,
    nth_error (stringify_alerts timestamp_str store refs) i
    = option_map
        (fun a => if existsb (Nat.eqb i) refs then str_alert a else a)
        (nth_error store i).
Proof.
  induction refs as [|r rest IH]; intros store i; cbn [stringify_alerts].
  - cbn [existsb]. now destruct (nth_error store i).
  - rewrite IH, update_at_nth. cbn [existsb].
    destruct (Nat.eqb i r); cbn [orb].
    + destruct (nth_error store i) as [a|]; cbn [option_map]; trivial.
      fold str_alert.
      destruct (existsb (Nat.eqb i) rest); trivial.
      now rewrite stringify_alert_idem.
    + reflexivity.
Qed.

Lemma stringify_alerts_length (refs : list nat) :
  forall store : list (@AlertDict AlertRest),
    length (stringify_alerts timestamp_str store refs) = length store.
Proof.
  induction refs as [|r rest IH]; intros store; cbn [stringify_alerts];
    trivial.
  now rewrite IH, update_at_length.
Qed.

Lemma save_loop_spec (incidents : list (@IncidentDict IncidentRest)) :
  forall (store : list (@AlertDict AlertRest)) acc,
    snd (save_loop timestamp_str store incidents acc)
    = acc ++ map (incident_copy timestamp_str) incidents
    /\ length (fst (save_loop timestamp_str store incidents acc))
       = length store
    /\ forall i,
         nth_error (fst (save_loop timestamp_str store incidents acc)) i
         = option_map
             (fun a =>
                if existsb (Nat.eqb i) (concat (map i_alerts incidents))
                then str_alert a else a)
             (nth_error store i).
Proof.
  induction incidents as [|inc rest IH]; intros store acc; cbn [save_loop].
  - cbn. rewrite app_nil_r. repeat split; trivial.
    intros i. now destruct (nth_error store i).
  - destruct (IH (stringify_alerts timestamp_str store
                    (i_alerts (incident_copy timestamp_str inc)))
                (acc ++ [incident_copy timestamp_str inc]))
      as [Hj [Hl Hn]].
    split; [|split].
    + rewrite Hj, <- app_assoc. reflexivity.
    + now rewrite Hl, stringify_alerts_length.
    + intros i. rewrite Hn, stringify_alerts_nth.
      cbn [map concat incident_copy i_alerts]. rewrite existsb_app.
      destruct (nth_error store i) as [a|]; cbn [option_map]; trivial.
      destruct (existsb (Nat.eqb i) (i_alerts inc)); cbn [orb];
        destruct (existsb (Nat.eqb i) (concat (map i_alerts rest))); trivial.
      now rewrite stringify_alert_idem.
Qed.
End SaveFacts.

(** X23: [save_incidents] leaves in [incidents_json] one copy per incident,
    in order, with [start_time] and [end_time] turned into strings; it keeps
    every alert dict in place, rewrites the 'timestamp' of exactly the alert
    dicts that some incident refers to, and so leaves a string, never a
    [Timestamp], in every member alert the caller still holds. *)
Theorem save_incidents_rewrites_member_timestamps
    (timestamp_str : Z -> string) {AlertRest IncidentRest : Type}
    (store : list (@AlertDict AlertRest))
    (incidents : list (@IncidentDict IncidentRest)) :
  snd (save_incidents timestamp_str store incidents)
  = map (incident_copy timestamp_str) incidents
  /\ length (fst (save_incidents timestamp_str store incidents))
     = length store
  /\ (forall ref,
        nth_error (fst (save_incidents timestamp_str store incidents)) ref
        = option_map
            (fun a =>
               if existsb (Nat.eqb ref) (concat (map i_alerts incidents))
               then stringify_alert timestamp_str a else a)
            (nth_error store ref))
  /\ (forall inc ref a,
        In inc incidents -> In ref (i_alerts inc) ->
        nth_error (fst (save_incidents timestamp_str store incidents)) ref
        = Some a ->
        fst a = None \/ exists s, fst a = Some (Text s)).
Proof.
  unfold save_incidents.
  destruct (save_loop_spec timestamp_str incidents store []) as [Hj [Hl Hn]].
  split; [exact Hj|]. split; [exact Hl|]. split; [exact Hn|].
  intros inc ref a Hinc Href E. rewrite Hn in E.
  assert (Hmem : existsb (Nat.eqb ref) (concat (map i_alerts incidents))
                 = true).
  { apply existsb_exists. exists ref. split; [|apply Nat.eqb_refl].
    apply in_concat. exists (i_alerts inc). split; trivial.
    now apply in_map. }
  rewrite Hmem in E. destruct (nth_error store ref) as [[v rest]|];
    [|discriminate].
  cbn in E. injection E as <-. cbn [fst].
  destruct v as [v|]; [right; eexists; reflexivity | now left].
Qed.

Lemma save_incidents_rewrites_member_timestamps_witness :
  In (mkIncidentDict (Instant 1) NaT [0%nat] tt)
    [mkIncidentDict (Instant 1) NaT [0%nat] tt]
  /\ In 0%nat (i_alerts (mkIncidentDict (Instant 1) NaT [0%nat] tt))
  /\ nth_error
       (fst (save_incidents (fun _ => "1970-01-01 00:00:00"%string)
               [(Some (Instant 5), tt); (Some (Instant 7), tt)]
               [mkIncidentDict (Instant 1) NaT [0%nat] tt])) 0
     = Some (Some (Text "1970-01-01 00:00:00"), tt)
  /\ (fst (Some (Text "1970-01-01 00:00:00"), tt) = None
      \/ exists s, fst (Some (Text "1970-01-01 00:00:00"), tt)
                   = Some (Text s)).
Proof.
  assert (H1 : In (mkIncidentDict (Instant 1) NaT [0%nat] tt)
                 [mkIncidentDict (Instant 1) NaT [0%nat] tt])
    by (now left).
  assert (H2 : In 0%nat (i_alerts (mkIncidentDict (Instant 1) NaT [0%nat] tt)))
    by (now left).
  assert (H3 : nth_error
                 (fst (save_incidents (fun _ => "1970-01-01 00:00:00"%string)
                         [(Some (Instant 5), tt); (Some (Instant 7), tt)]
                         [mkIncidentDict (Instant 1) NaT [0%nat] tt])) 0
               = Some (Some (Text "1970-01-01 00:00:00"), tt))
    by reflexivity.
  split; [exact H1|]. split; [exact H2|]. split; [exact H3|].
  exact (proj2 (proj2 (proj2
           (save_incidents_rewrites_member_timestamps
              (fun _ => "1970-01-01 00:00:00"%string)
              [(Some (Instant 5), tt); (Some (Instant 7), tt)]
              [mkIncidentDict (Instant 1) NaT [0%nat] tt])))
           _ 0%nat _ H1 H2 H3).
Defined.

(** X24: saving the same incidents a second time changes no alert dict and
    gives the same [incidents_json]: a timestamp already turned into a
    string is left as that string. *)
Theorem save_incidents_twice_changes_nothing
    (timestamp_str : Z -> string) {AlertRest IncidentRest : Type}
    (store : list (@AlertDict AlertRest))
    (incidents : list (@IncidentDict IncidentRest)) :
  save_incidents timestamp_str
    (fst (save_incidents timestamp_str store incidents)) incidents
  = save_incidents timestamp_str store incidents.
Proof.
  unfold save_incidents.
  destruct (save_loop_spec timestamp_str incidents store []) as [Hj [_ Hn]].
  destruct (save_loop_spec timestamp_str incidents
              (fst (save_loop timestamp_str store incidents [])) [])
    as [Hj' [_ Hn']].
  apply injective_projections; [|congruence].
  apply nth_error_ext. intros i. rewrite Hn', Hn.
  destruct (nth_error store i) as [a|]; cbn [option_map]; trivial.
  destruct (existsb (Nat.eqb i) (concat (map i_alerts incidents))); trivial.
  f_equal. apply stringify_alert_idem.
Qed.

Lemma error_counts_count_occurrences_witness :
  dict_get "TIMEOUT" (error_counts [alert_t2; alert_t1; alert_t2]) = Some 2
  /\ 1 <= 2.
Proof.
  assert (E : dict_get "TIMEOUT" (error_counts [alert_t2; alert_t1; alert_t2])
              = Some 2) by reflexivity.
  split; [exact E|].
  exact (proj1 (proj2 (error_counts_count_occurrences
                         [alert_t2; alert_t1; alert_t2]))
           "TIMEOUT"%string 2 E).
Defined.

(* ===================================================================== *)
(** * The counts printed by [cluster_alerts] *)
(* ===================================================================== *)

Lemma filter_other_length (x : Z) (u : list Z) :
  NoDup u ->
  Nat.add (length (filter (fun c => negb (c =? x)) u))
    (if existsb (Z.eqb x) u then 1%nat else 0%nat) = length u.
Proof.
  induction 1 as [|a t Hnotin Hnd IH]; [reflexivity|].
  cbn [filter existsb length]. rewrite (Z.eqb_sym x a).
  destruct (a =? x) eqn:E; cbn [negb orb length].
  - apply Z.eqb_eq in E. subst a.
    assert (Hex : existsb (Z.eqb x) t = false).
    { destruct (existsb (Z.eqb x) t) eqn:Ex; trivial.
      apply existsb_exists in Ex. destruct Ex as [y [Hy Ey]].
      apply Z.eqb_eq in Ey. subst y. contradiction. }
    rewrite Hex in IH. lia.
  - lia.
Qed.

Lemma existsb_unique (x : Z) (l : list Z) :
  existsb (Z.eqb x) (unique Z.eqb l) = existsb (Z.eqb x) l.
Proof.
  destruct (existsb (Z.eqb x) l) eqn:E.
  - apply existsb_exists in E. destruct E as [y [Hy Ey]].
    apply existsb_exists. exists y. split; trivial.
    exact (proj2 (unique_in Z.eqb Z.eqb_eq l y) Hy).
  - destruct (existsb (Z.eqb x) (unique Z.eqb l)) eqn:E'; trivial.
    apply existsb_exists in E'. destruct E' as [y [Hy Ey]].
    apply (proj1 (unique_in Z.eqb Z.eqb_eq l y)) in Hy.
    assert (existsb (Z.eqb x) l = true)
      by (apply existsb_exists; now exists y).
    congruence.
Qed.

(** X25: the numbers of clusters and of noise points that [cluster_alerts]
    prints for the labels are not negative, the first is the number of
    distinct labels other than -1, and together they are the number of
    incidents [create_incidents] makes of these labels. *)
Theorem printed_counts_match_incidents (df : list Row) (labels : list Z) :
  length labels = length df ->
  exists incidents,
    create_incidents df labels = Ok incidents
    /\ n_clusters labels
       = Z.of_nat (length (filter (fun c => negb (c =? NOISE))
                             (unique Z.eqb labels)))
    /\ Z.of_nat (length incidents) = n_clusters labels + n_noise labels.
Proof.
  intros Hlen.
  destruct (created_incidents_spec df labels Hlen)
    as [clusters [noise [E [Hc [_ [Hn _]]]]]].
  eexists. split; [unfold create_incidents; rewrite E; reflexivity|].
  pose proof (filter_other_length NOISE (unique Z.eqb labels)
                (unique_NoDup Z.eqb Z.eqb_eq labels)) as Hf.
  rewrite existsb_unique in Hf.
  assert (Hnc : n_clusters labels
                = Z.of_nat (length (filter (fun c => negb (c =? NOISE))
                                      (unique Z.eqb labels)))).
  { unfold n_clusters. destruct (existsb (Z.eqb NOISE) labels); lia. }
  split; [exact Hnc|].
  rewrite Hnc. unfold n_noise.
  rewrite (Permutation_length (sort_desc_by_perm total_revenue_risk _)).
  rewrite length_app.
  apply (f_equal (@length _)) in Hc. rewrite !length_map in Hc.
  rewrite Hc, (filter_length_perm _ _ _ (py_sorted_perm Z.leb _)).
  rewrite <- (Forall2_length Hn), (rows_with_label_length df labels NOISE Hlen).
  lia.
Qed.

Lemma printed_counts_match_incidents_witness :
  length [NOISE; 0; NOISE; 1] = length [row_big; row_small; row_mid; row_mid]
  /\ exists incidents,
       create_incidents [row_big; row_small; row_mid; row_mid]
         [NOISE; 0; NOISE; 1] = Ok incidents
       /\ n_clusters [NOISE; 0; NOISE; 1]
          = Z.of_nat (length (filter (fun c => negb (c =? NOISE))
                                (unique Z.eqb [NOISE; 0; NOISE; 1])))
       /\ Z.of_nat (length incidents)
          = n_clusters [NOISE; 0; NOISE; 1] + n_noise [NOISE; 0; NOISE; 1].
Proof.
  split; [reflexivity|].
  apply (printed_counts_match_incidents
           [row_big; row_small; row_mid; row_mid] [NOISE; 0; NOISE; 1]).
  reflexivity.
Defined.
